(** * transfer-logs: the archive decoder, the timeline and the merge

    A shallow embedding of the core of [transfer-logs.c]: the pivoted
    binary search [search], the slot timeline [create_rra_time], the
    loaders [read_rra_file], [read_csv_time] and [read_csv_data], the
    merge [sort_data_for_rra] and the metadata decoder [read_dat_file];
    and of the functions around them: [find_max], the path builders
    [get_csv_path] and [get_rra_path], the export [write_data_to_csv],
    [merge_data], [test_date], [usage] and the command line of [main].

    Conventions.
    - A C [int] is a [Z]; arithmetic on it wraps to 32 bits ([add32],
      [sub32]).  A [double] is carried as its 64-bit pattern: the program
      copies doubles and tests them for NaN, it never computes with them.
    - A heap array is a [list]; an access outside the allocation is the
      fault [OutOfBounds], a null pointer access is [NullPointer].  A
      function that can fault returns an [outcome].
    - [stdout] is the list of the lines printed. *)

From Stdlib Require Import ZArith Lia List.
From coqutil Require Import Byte Word.LittleEndianList.
From stdpp Require Import base list strings.

Local Open Scope Z_scope.

(** ** Machine integers *)

Definition wrap32 (z : Z) : Z := (z + 2 ^ 31) mod 2 ^ 32 - 2 ^ 31.
Definition add32 (a b : Z) : Z := wrap32 (a + b).
Definition sub32 (a b : Z) : Z := wrap32 (a - b).

(** ** Faults and outcomes *)

Inductive fault : Type :=
| OutOfBounds (a : string) (i : Z)
| NullPointer (p : string)
| Uninitialised (x : string)
| OutOfFuel.

Inductive outcome (A : Type) : Type :=
| Ret (a : A)
| Fault (f : fault).
Arguments Ret {A} a.
Arguments Fault {A} f.

#[global] Instance outcome_ret : MRet outcome := @Ret.
#[global] Instance outcome_bind : MBind outcome :=
  λ A B k m, match m with Ret a => k a | Fault f => Fault f end.

(** ** Heap arrays *)

(** [calloc(n, sizeof ...)]: [n] zeroed elements.  For a negative [n] the
    allocation fails: it has no element, and every access to it faults. *)
Definition calloc {A} (zero : A) (n : Z) : list A := replicate (Z.to_nat n) zero.

(** [a[i]] as an rvalue. *)
Definition rd {A} (a : string) (arr : list A) (i : Z) : outcome A :=
  if 0 <=? i then
    match arr !! Z.to_nat i with
    | Some x => Ret x
    | None => Fault (OutOfBounds a i)
    end
  else Fault (OutOfBounds a i).

(** [a[i] = x]. *)
Definition wr {A} (a : string) (arr : list A) (i : Z) (x : A) : outcome (list A) :=
  if (0 <=? i) && (i <? Z.of_nat (length arr)) then Ret (<[Z.to_nat i := x]> arr)
  else Fault (OutOfBounds a i).

(** A loop over the indices (or the lines) [idx], threading the state. *)
Fixpoint for_each {I S} (idx : list I) (body : I → S → outcome S) (s : S) : outcome S :=
  match idx with
  | [] => Ret s
  | i :: idx => s ← body i s; for_each idx body s
  end.

(** ** Strings *)

#[global] Instance byte_eq_dec : EqDecision byte := Byte.byte_eq_dec.

Definition bytes_of (s : string) : list byte := String.list_byte_of_string s.

(** The C string held by a buffer: its bytes up to the first NUL.  The
    fields of the metadata file are read into buffers of exactly their
    declared length; the model ends the C string of such a buffer at the
    end of the buffer when it holds no NUL, as the zeroed slack that
    [calloc] leaves behind a buffer of 7 or 11 bytes does. *)
Fixpoint cstr (buf : list byte) : list byte :=
  match buf with
  | [] => []
  | b :: buf => if Byte.eqb b Byte.x00 then [] else b :: cstr buf
  end.

(** [!strcmp(buf, lit)] *)
Definition streq (buf : list byte) (lit : string) : bool :=
  bool_decide (cstr buf = bytes_of lit).

Definition MAGIC : string := "hcb_rrd_09082011A".
Definition N_SUBSETS : Z := 4.

(** ** The metadata structures *)

Record dat_sub_s : Type := mk_dat_sub_s {
  unk_0 : Z;
  unk_1 : Z;
  unk_2 : Z;
  value : Z;
  divider : Z;
  timestamp_0 : Z;
  timestamp_1 : Z;
  minSamplesPerBin : Z;
  binL_len : Z;
  binLength : option (list byte);
  file_offset : Z;
  n_samples : Z;
  unk_3 : Z;
  int_len : Z;
  interval : option (list byte);
  cons_len : Z;
  consolidator : option (list byte);
  next : option Z  (* the index of the subset pointed to *)
}.

Record dat_s : Type := mk_dat_s {
  magic : list byte;
  devUuid_len : Z;
  deviceUuid : option (list byte);
  rrd_device_name : option (list byte);
  devVar_len : Z;
  deviceVar : option (list byte);
  devSvc_len : Z;
  deviceSvc : option (list byte);
  sampleT_len : Z;
  sampleType : option (list byte);
  n_sets : Z;
  subset : list (option dat_sub_s)
}.

(** [data->subset[j]->...]: the array holds [N_SUBSETS] pointers. *)
Definition subset_at (data : dat_s) (j : Z) : outcome dat_sub_s :=
  p ← rd "subset" (subset data) j;
  match p with
  | Some sub => Ret sub
  | None => Fault (NullPointer "subset")
  end.

(** [!strcmp(data->sampleType, "integer")] *)
Definition is_integer (data : dat_s) : outcome bool :=
  match sampleType data with
  | Some buf => Ret (streq buf "integer")
  | None => Fault (NullPointer "sampleType")
  end.

(** ** search *)

Fixpoint search_rec (fuel : nat) (arr : list Z) (l h key : Z) : outcome Z :=
  match fuel with
  | O => Fault OutOfFuel
  | S fuel =>
    if l >? h then Ret (-1)
    else
      let mid := Z.quot (add32 l h) 2 in
      a_mid ← rd "arr" arr mid;
      if a_mid =? key then Ret mid
      else
        a_l ← rd "arr" arr l;
        if a_l <=? a_mid then
          if (key >=? a_l) && (key <=? a_mid)
          then search_rec fuel arr l (sub32 mid 1) key
          else search_rec fuel arr (add32 mid 1) h key
        else
          if key >=? a_mid then
            a_h ← rd "arr" arr h;
            if key <=? a_h
            then search_rec fuel arr (add32 mid 1) h key
            else search_rec fuel arr l (sub32 mid 1) key
          else search_rec fuel arr l (sub32 mid 1) key
  end.

(** Every call shrinks the window [l..h] by one slot at least, so the
    window's size bounds the depth of the recursion. *)
Definition search (arr : list Z) (l h key : Z) : outcome Z :=
  search_rec (S (Z.to_nat (h - l + 1))) arr l h key.

(** ** create_rra_time *)

(** [do { time_rra[j-1] = time_rra[j] - interval; j--; } while ( j > 0 );] *)
Fixpoint walk_down (fuel : nat) (itv : Z) (time_rra : list Z) (j : Z)
  : outcome (list Z) :=
  match fuel with
  | O => Fault OutOfFuel
  | S fuel =>
    t ← rd "time_rra" time_rra j;
    time_rra ← wr "time_rra" time_rra (sub32 j 1) (sub32 t itv);
    let j := sub32 j 1 in
    if j >? 0 then walk_down fuel itv time_rra j else Ret time_rra
  end.

(** [do { j--; time_rra[j] = time_rra[j+1] - interval; }
     while ( j > file_offset+1 );] *)
Fixpoint walk_wrap (fuel : nat) (itv fo : Z) (time_rra : list Z) (j : Z)
  : outcome (list Z) :=
  match fuel with
  | O => Fault OutOfFuel
  | S fuel =>
    let j := sub32 j 1 in
    t ← rd "time_rra" time_rra (add32 j 1);
    time_rra ← wr "time_rra" time_rra j (sub32 t itv);
    if j >? add32 fo 1 then walk_wrap fuel itv fo time_rra j else Ret time_rra
  end.

Definition create_rra_time (data : dat_s) (sub : Z) : outcome (list Z) :=
  s ← subset_at data sub;
  let itv := sub32 (timestamp_1 s) (timestamp_0 s) in
  let time_rra := calloc 0 (n_samples s) in
  time_rra ← wr "time_rra" time_rra (file_offset s) (timestamp_1 s);
  time_rra ← walk_down (S (Z.to_nat (file_offset s))) itv time_rra (file_offset s);
  t0 ← rd "time_rra" time_rra 0;
  time_rra ← wr "time_rra" time_rra (sub32 (n_samples s) 1) (sub32 t0 itv);
  walk_wrap (S (Z.to_nat (n_samples s))) itv (file_offset s) time_rra
            (sub32 (n_samples s) 1).

(** ** Reading files *)

(** [fread(&x, sizeof(int), 1, fp)] into a zeroed [int]: the value stored,
    the number of items obtained, and the stream left.  At the end of the
    stream the bytes obtained are stored and no item is counted. *)
Definition fread_int (fp : list byte) : Z * Z * list byte :=
  (wrap32 (le_combine (take 4 fp)),
   if (4 <=? length fp)%nat then 1 else 0,
   drop 4 fp).

(** [fread(&x, sizeof(double), 1, fp)] into a zeroed [double]. *)
Definition fread_double (fp : list byte) : Z * Z * list byte :=
  (le_combine (take 8 fp),
   if (8 <=? length fp)%nat then 1 else 0,
   drop 8 fp).

(** [calloc(len, sizeof(char))]: no buffer for a negative length. *)
Definition calloc_buf (len : Z) : option (list byte) :=
  if len <? 0 then None else Some (calloc Byte.x00 len).

(** [fread(buf, 1, len, fp)]: [len] converts to [size_t]; the bytes obtained
    overwrite the front of the buffer and are counted. *)
Definition fread_buf (p : string) (buf : option (list byte)) (len : Z)
    (fp : list byte) : outcome (option (list byte) * Z * list byte) :=
  let want := Z.to_nat (if len <? 0 then len + 2 ^ 32 else len) in
  let got := take want fp in
  match got with
  | [] => Ret (buf, 0, fp)
  | _ :: _ =>
    match buf with
    | None => Fault (NullPointer p)
    | Some b =>
      Ret (Some (got ++ drop (length got) b), Z.of_nat (length got), drop want fp)
    end
  end.

(** What [fopen] gives for a binary file: its bytes, or [None]. *)
Definition binary_file : Type := option (list byte).

(** A line of an import file, as [sscanf] converts it: the leading integer
    and the value after the comma, [None] for a conversion that fails. *)
Record csv_line : Type := mk_csv_line {
  scan_time : option Z;
  scan_value : option Z
}.
Definition csv_file : Type := option (list csv_line).

(** The value of a local variable that may not have been assigned. *)
Definition local (x : string) (v : option Z) : outcome Z :=
  match v with
  | Some z => Ret z
  | None => Fault (Uninitialised x)
  end.

(** ** read_rra_file *)

(** [fread( &int_rra[j], sizeof( int ), 1, fp )], or the same on
    [dble_rra[j]]. *)
Definition rra_elem (data_type : bool) (j : Z) (st : list Z * list byte)
  : outcome (list Z * list byte) :=
  let '(rra, fp) := st in
  let '(x, _, fp) := if data_type then fread_int fp else fread_double fp in
  rra ← wr "rra" rra j x;
  Ret (rra, fp).

(** For a negative [n_samples] the allocation fails and the loop does not
    run: the null pointer is returned, and nothing is printed. *)
Definition read_rra_file (fopen : binary_file) (rra_path : string)
    (data : dat_s) (sub : Z) : outcome (option (list Z) * list string) :=
  match fopen with
  | Some fp =>
    data_type ← is_integer data;
    s ← subset_at data sub;
    let rra := calloc 0 (n_samples s) in
    st ← for_each (seqZ 0 (n_samples s)) (rra_elem data_type) (rra, fp);
    Ret (if n_samples s <? 0 then None else Some st.1, [])
  | None =>
    Ret (None, ["read_rra_file: Cannot open file " +:+ rra_path +:+ " for reading"])
  end.

(** ** read_csv_data *)

(** One line of the import file: [sscanf( line, "%d,%d\n", &t, &int_tmp )]
    (or ["%d,%lf\n"]), then the two tests of [t <= t_max]. *)
Definition csv_data_line (t_max : Z) (line : csv_line)
    (st : list Z * Z * option Z * option Z)
  : outcome (list Z * Z * option Z * option Z) :=
  let '(csv, j, t, tmp) := st in
  let '(t, tmp) :=
    match scan_time line with
    | Some t' => (Some t', match scan_value line with Some v => Some v | None => tmp end)
    | None => (t, tmp)
    end in
  tv ← local "t" t;
  csv ← (if tv <=? t_max then x ← local "tmp" tmp; wr "csv" csv j x else Ret csv);
  Ret (csv, if tv <=? t_max then add32 j 1 else j, t, tmp).

(** As in [read_rra_file], the allocation fails for a negative [n_samples]:
    the null pointer is returned when no line has been stored. *)
Definition read_csv_data (fopen : csv_file) (csv_path : string)
    (data : dat_s) (sub : Z) (t_max : Z) : outcome (option (list Z) * list string) :=
  match fopen with
  | Some lines =>
    data_type ← is_integer data;
    s ← subset_at data sub;
    let csv := calloc 0 (n_samples s) in
    st ← for_each lines (csv_data_line t_max) (csv, 0, None, None);
    Ret (if n_samples s <? 0 then None else Some st.1.1.1, [])
  | None =>
    Ret (None, ["read_csv_data: Cannot open file " +:+ csv_path +:+ " for reading"])
  end.

(** ** read_csv_time *)

(** One line of the import file: [sscanf( line, "%d,%s", &time_tmp, dum )],
    then the test of [time_tmp <= max_time]. *)
Definition csv_time_line (max_time : Z) (line : csv_line)
    (st : list Z * Z * option Z) : outcome (list Z * Z * option Z) :=
  let '(time_csv, j, time_tmp) := st in
  let time_tmp := match scan_time line with Some t => Some t | None => time_tmp end in
  t ← local "time_tmp" time_tmp;
  if t <=? max_time
  then time_csv ← wr "time_csv" time_csv j t; Ret (time_csv, add32 j 1, time_tmp)
  else Ret (time_csv, j, time_tmp).

Definition read_csv_time (fopen : csv_file) (csv_path : string)
    (data : dat_s) (sub : Z) (max_time : Z) : outcome (option (list Z) * list string) :=
  match fopen with
  | Some lines =>
    s ← subset_at data sub;
    let time_csv := calloc 0 (n_samples s) in
    st ← for_each lines (csv_time_line max_time) (time_csv, 0, None);
    Ret (if n_samples s <? 0 then None else Some st.1.1, [])
  | None =>
    Ret (None, ["read_csv_time: Cannot open file " +:+ csv_path +:+ " for reading"])
  end.

(** ** sort_data_for_rra *)

(** The two branches on [data_type] run the same statements on [int] and on
    [double] elements; an element is a [Z] here (an [int], or the pattern
    of a [double]), and the branches coincide. *)
Definition sort_data_for_rra (data : dat_s) (sub : Z)
    (data_csv data_rra : list Z) (time_csv time_rra : list Z) : outcome (list Z) :=
  data_type ← is_integer data;
  s ← subset_at data sub;
  let tmp := calloc 0 (n_samples s) in
  tmp ← for_each (seqZ 0 (n_samples s))
        (λ i tmp, x ← rd "data_rra" data_rra i; wr "tmp" tmp i x) tmp;
  t_min ← rd "time_rra" time_rra (add32 (file_offset s) 1);
  t_max ← rd "time_rra" time_rra (file_offset s);
  for_each (seqZ 0 (n_samples s))
    (λ i tmp,
       c ← rd "time_csv" time_csv i;
       if (c >=? t_min) && (c <=? t_max) then
         key ← rd "time_rra" time_rra i;
         index ← search time_csv 0 (n_samples s) key;
         if index >=? 0
         then x ← rd "data_csv" data_csv index; wr "tmp" tmp i x
         else Ret tmp
       else Ret tmp)
    tmp.

(** ** read_dat_file *)

(** [p->...] through a buffer pointer. *)
Definition deref {A} (p : string) (x : option A) : outcome A :=
  match x with
  | Some a => Ret a
  | None => Fault (NullPointer p)
  end.

Definition set_subsets (data : dat_s) (n : Z) (arr : list (option dat_sub_s)) : dat_s :=
  mk_dat_s (magic data) (devUuid_len data) (deviceUuid data) (rrd_device_name data)
    (devVar_len data) (deviceVar data) (devSvc_len data) (deviceSvc data)
    (sampleT_len data) (sampleType data) n arr.

Definition set_next (s : dat_sub_s) (nx : option Z) : dat_sub_s :=
  mk_dat_sub_s (unk_0 s) (unk_1 s) (unk_2 s) (value s) (divider s)
    (timestamp_0 s) (timestamp_1 s) (minSamplesPerBin s) (binL_len s) (binLength s)
    (file_offset s) (n_samples s) (unk_3 s) (int_len s) (interval s)
    (cons_len s) (consolidator s) nx.

(** [calloc( 1, sizeof( dat_sub_s ) )] *)
Definition zero_sub : dat_sub_s :=
  mk_dat_sub_s 0 0 0 0 0 0 0 0 0 None 0 0 0 0 None 0 None None.

(** [data->subset[k]->next = nx] *)
Definition link (arr : list (option dat_sub_s)) (k : Z) (nx : option Z)
  : outcome (list (option dat_sub_s)) :=
  p ← rd "subset" arr k;
  s ← deref "subset" p;
  wr "subset" arr k (Some (set_next s nx)).

(** The reads of one record, in the order of the source: the record as it
    is left in memory, the count [cnt] and the stream after it. *)
Definition read_subset (integer : bool) (fp : list byte)
  : outcome (dat_sub_s * Z * list byte) :=
  let cnt := 0 in
  let '(u0, u1, u2, val, dvd, fp) :=
    if integer then
      let '(u0, _, fp) := fread_int fp in
      let '(u1, _, fp) := fread_int fp in
      let '(u2, _, fp) := fread_int fp in
      (u0, u1, u2, 0, 0, fp)
    else
      let '(val, _, fp) := fread_double fp in
      let '(dvd, _, fp) := fread_double fp in
      (0, 0, 0, val, dvd, fp) in
  let '(ts0, c, fp) := fread_int fp in
  let cnt := add32 cnt c in
  let '(ts1, c, fp) := fread_int fp in
  let cnt := add32 cnt c in
  let '(mspb, c, fp) := fread_int fp in
  let cnt := add32 cnt c in
  let '(bl_len, cnt2, fp) := fread_int fp in
  let bl := if cnt2 =? 0 then None else calloc_buf bl_len in
  let cnt := add32 cnt cnt2 in
  '(bl, c, fp) ← fread_buf "binLength" bl bl_len fp;
  let cnt := add32 cnt c in
  let '(fo, c, fp) := fread_int fp in
  let cnt := add32 cnt c in
  let '(ns, c, fp) := fread_int fp in
  let cnt := add32 cnt c in
  let '(u3, c, fp) := fread_int fp in
  let cnt := add32 cnt c in
  let '(il_len, cnt2, fp) := fread_int fp in
  let il := if cnt2 =? 0 then None else calloc_buf il_len in
  let cnt := add32 cnt cnt2 in
  '(il, c, fp) ← fread_buf "interval" il il_len fp;
  let cnt := add32 cnt c in
  let '(cl_len, cnt2, fp) := fread_int fp in
  let cl := if cnt2 =? 0 then None else calloc_buf cl_len in
  let cnt := add32 cnt cnt2 in
  '(cl, c, fp) ← fread_buf "consolidator" cl cl_len fp;
  let cnt := add32 cnt c in
  Ret (mk_dat_sub_s u0 u1 u2 val dvd ts0 ts1 mspb bl_len bl fo ns u3
         il_len il cl_len cl None, cnt, fp).

(** The [do ... while ( done == 0 )] loop, one call for each iteration.  The
    store into [data->subset[j]] faults at [j = N_SUBSETS], which bounds
    the number of iterations. *)
Fixpoint read_subsets (fuel : nat) (j : Z) (data : dat_s) (fp : list byte)
    (stdout : list string) : outcome (dat_s * list string) :=
  match fuel with
  | O => Fault OutOfFuel
  | S fuel =>
    uuid ← deref "deviceUuid" (deviceUuid data);
    if negb (streq uuid "placeholder") then
      arr ← wr "subset" (subset data) j (Some zero_sub);
      let n := add32 j 1 in
      arr ← (if j >? 0 then link arr (sub32 j 1) (Some j) else Ret arr);
      st ← deref "sampleType" (sampleType data);
      '(s, cnt, fp) ← read_subset (streq st "integer") fp;
      arr ← wr "subset" arr j (Some s);
      if cnt <? add32 (add32 (add32 (cons_len s) (int_len s)) (binL_len s)) 9 then
        let stdout := stdout ++ ["dat file is partly corrupted, continuing ..."] in
        arr ← link arr (sub32 j 1) None;
        Ret (set_subsets data (sub32 n 1) arr, stdout)
      else
        match fp with
        | _ :: _ => read_subsets fuel (add32 j 1) (set_subsets data n arr) fp stdout
        | [] => Ret (set_subsets data n arr, stdout)
        end
    else Ret (data, stdout)
  end.

Definition read_dat_file (fopen : binary_file) : outcome (dat_s * list string) :=
  fp ← deref "fp" fopen;
  let magic := take 17 fp ++ replicate (17 - length (take 17 fp)) Byte.x00 in
  let fp := drop 17 fp in
  let data := mk_dat_s magic 0 None None 0 None 0 None 0 None 0
                (replicate (Z.to_nat N_SUBSETS) None) in
  if streq magic MAGIC then
    let '(uuid_len, _, fp) := fread_int fp in
    '(uuid, _, fp) ← fread_buf "deviceUuid" (calloc_buf uuid_len) uuid_len fp;
    let '(var_len, _, fp) := fread_int fp in
    '(var, _, fp) ← fread_buf "deviceVar" (calloc_buf var_len) var_len fp;
    let '(svc_len, _, fp) := fread_int fp in
    '(svc, _, fp) ← fread_buf "deviceSvc" (calloc_buf svc_len) svc_len fp;
    let '(st_len, _, fp) := fread_int fp in
    '(st, _, fp) ← fread_buf "sampleType" (calloc_buf st_len) st_len fp;
    let data := mk_dat_s magic uuid_len uuid None var_len var svc_len svc st_len st 0
                  (replicate (Z.to_nat N_SUBSETS) None) in
    read_subsets (S (Z.to_nat N_SUBSETS)) 0 data fp []
  else Ret (data, ["Bad magic number"]).

(** ** The metadata file as the specification lays it out *)

Definition enc_int (z : Z) : list byte := le_split 4 z.
Definition enc_double (bits : Z) : list byte := le_split 8 bits.
Definition enc_str (s : list byte) : list byte := enc_int (Z.of_nat (length s)) ++ s.

(** The fields of a Buffer record. *)
Record buffer : Type := mk_buffer {
  b_unk_0 : Z; b_unk_1 : Z; b_unk_2 : Z;
  b_value : Z; b_divider : Z;
  b_timestamp_0 : Z; b_timestamp_1 : Z;
  b_minSamplesPerBin : Z;
  b_binLength : list byte;
  b_file_offset : Z; b_n_samples : Z; b_unk_3 : Z;
  b_interval : list byte;
  b_consolidator : list byte
}.

Definition enc_buffer (integer : bool) (b : buffer) : list byte :=
  (if integer
   then enc_int (b_unk_0 b) ++ enc_int (b_unk_1 b) ++ enc_int (b_unk_2 b)
   else enc_double (b_value b) ++ enc_double (b_divider b))
  ++ enc_int (b_timestamp_0 b) ++ enc_int (b_timestamp_1 b)
  ++ enc_int (b_minSamplesPerBin b) ++ enc_str (b_binLength b)
  ++ enc_int (b_file_offset b) ++ enc_int (b_n_samples b) ++ enc_int (b_unk_3 b)
  ++ enc_str (b_interval b) ++ enc_str (b_consolidator b).

Record device : Type := mk_device {
  d_uuid : list byte;
  d_var : list byte;
  d_svc : list byte;
  d_sampleType : list byte
}.

Definition enc_header (d : device) : list byte :=
  bytes_of MAGIC ++ enc_str (d_uuid d) ++ enc_str (d_var d) ++ enc_str (d_svc d)
  ++ enc_str (d_sampleType d).

Definition enc_dat (d : device) (bs : list buffer) : list byte :=
  enc_header d ++ concat (map (enc_buffer (streq (d_sampleType d) "integer")) bs).

(** ** The statements: the search *)

(** The element at index [i], for statements about slots known to exist. *)
Definition at_ (arr : list Z) (i : Z) : Z := default 0 (arr !! Z.to_nat i).

(** Strictly increasing on the window [a..b]. *)
Definition inc (f : Z → Z) (a b : Z) : Prop :=
  ∀ i j, a ≤ i → i < j → j ≤ b → f i < f j.

(** A sorted list of distinct integers. *)
Definition ascending (s : list Z) : Prop := inc (at_ s) 0 (Z.of_nat (length s) - 1).

(** A sorted list of distinct integers, rotated by some number of places. *)
Definition rotated_sorted (arr : list Z) : Prop :=
  ∃ (s : list Z) (k : nat), ascending s ∧ arr = rotate k s.

(** A window of a rotated sorted array: increasing, or two increasing runs
    the second of which lies below the first. *)
Definition window (f : Z → Z) (l h : Z) : Prop :=
  inc f l h ∨ ∃ p, l < p ≤ h ∧ inc f l (p - 1) ∧ inc f p h ∧ f h < f l.

(** [key] is held by a slot of [arr[l..h]]. *)
Definition occurs (arr : list Z) (l h key : Z) : Prop :=
  ∃ i, l ≤ i ≤ h ∧ arr !! Z.to_nat i = Some key.

(** ** The statements: the merge *)



(** ** The statements: the loaders *)

(** The lines of an import file whose rows [(timestamp, value)] all convert. *)
Definition lines_of (rows : list (Z * Z)) : list csv_line :=
  map (λ r, mk_csv_line (Some r.1) (Some r.2)) rows.

(** The rows an import load keeps under a cutoff, in file order. *)
Definition kept (cutoff : Z) (rows : list (Z * Z)) : list (Z * Z) :=
  filter (λ r, r.1 ≤ cutoff) rows.

(** The import load as C9 words it: for every stream and cutoff the output
    starts with the kept timestamps, in file order. *)
Definition import_as_claimed : Prop :=
  ∀ (rows : list (Z * Z)) (cutoff : Z) (path : string) (data : dat_s) (sub : Z)
    (s : dat_sub_s),
    subset_at data sub = Ret s →
    ∃ time_csv,
      read_csv_time (Some (lines_of rows)) path data sub cutoff = Ret (Some time_csv, []) ∧
      take (length (kept cutoff rows)) time_csv = (kept cutoff rows).*1.

(** The bytes of an archive payload element, and the values an element of
    each kind ranges over. *)
Definition enc_elem (integer : bool) (x : Z) : list byte :=
  if integer then enc_int x else enc_double x.
Definition elem_range (integer : bool) (x : Z) : Prop :=
  if integer then - 2 ^ 31 ≤ x < 2 ^ 31 else 0 ≤ x < 2 ^ 64.

(** Element [j] of an archive payload: its bytes in the file, the bytes the
    file lacks being those of the zeroed array. *)
Definition elem_at (integer : bool) (fp : list byte) (j : nat) : Z :=
  if integer then wrap32 (le_combine (take 4 (drop (j * 4) fp)))
  else le_combine (take 8 (drop (j * 8) fp)).

(** The archive-native load as C8 words it, on a file shorter than
    declared: no array is returned. *)
Definition short_file_fails : Prop :=
  ∀ (fp : list byte) (path : string) (data : dat_s) (sub : Z) (s : dat_sub_s),
    is_integer data = Ret true →
    subset_at data sub = Ret s →
    Z.of_nat (length fp) < 4 * n_samples s →
    ∃ stdout, read_rra_file (Some fp) path data sub = Ret (None, stdout).

(** ** Validly constructed metadata *)

Definition int_range (z : Z) : Prop := - 2 ^ 31 ≤ z < 2 ^ 31.

(** A string whose length prefix is an [int], short enough for the lengths
    of a record to add up within an [int]. *)
Definition str_ok (s : list byte) : Prop := Z.of_nat (length s) < 2 ^ 29.

Record wf_buffer (b : buffer) : Prop := mk_wf_buffer {
  wf_unk_0 : int_range (b_unk_0 b);
  wf_unk_1 : int_range (b_unk_1 b);
  wf_unk_2 : int_range (b_unk_2 b);
  wf_value : 0 ≤ b_value b < 2 ^ 64;
  wf_divider : 0 ≤ b_divider b < 2 ^ 64;
  wf_timestamp_0 : int_range (b_timestamp_0 b);
  wf_timestamp_1 : int_range (b_timestamp_1 b);
  wf_minSamplesPerBin : int_range (b_minSamplesPerBin b);
  wf_binLength : str_ok (b_binLength b);
  wf_file_offset : int_range (b_file_offset b);
  wf_n_samples : int_range (b_n_samples b);
  wf_unk_3 : int_range (b_unk_3 b);
  wf_interval : str_ok (b_interval b);
  wf_consolidator : str_ok (b_consolidator b)
}.

Record wf_device (d : device) : Prop := mk_wf_device {
  wf_uuid : str_ok (d_uuid d);
  wf_var : str_ok (d_var d);
  wf_svc : str_ok (d_svc d);
  wf_sampleType : str_ok (d_sampleType d)
}.

(** The record a Buffer decodes to: the reserved integers for the sample
    type [integer], the two reals for any other; [nx] is its [next]. *)
Definition sub_of (integer : bool) (b : buffer) (nx : option Z) : dat_sub_s :=
  mk_dat_sub_s
    (if integer then b_unk_0 b else 0) (if integer then b_unk_1 b else 0)
    (if integer then b_unk_2 b else 0)
    (if integer then 0 else b_value b) (if integer then 0 else b_divider b)
    (b_timestamp_0 b) (b_timestamp_1 b) (b_minSamplesPerBin b)
    (Z.of_nat (length (b_binLength b))) (Some (b_binLength b))
    (b_file_offset b) (b_n_samples b) (b_unk_3 b)
    (Z.of_nat (length (b_interval b))) (Some (b_interval b))
    (Z.of_nat (length (b_consolidator b))) (Some (b_consolidator b)) nx.

(** The records of the Buffers [bs], the first at index [j], each linked to
    the one after it. *)
Fixpoint subs_from (integer : bool) (j : Z) (bs : list buffer)
  : list (option dat_sub_s) :=
  match bs with
  | [] => []
  | b :: bs =>
    Some (sub_of integer b (match bs with [] => None | _ :: _ => Some (j + 1) end))
    :: subs_from integer (j + 1) bs
  end.

(** The Device a metadata file of [d] and [bs] decodes to. *)
Definition dat_of (d : device) (bs : list buffer) : dat_s :=
  mk_dat_s (bytes_of MAGIC)
    (Z.of_nat (length (d_uuid d))) (Some (d_uuid d)) None
    (Z.of_nat (length (d_var d))) (Some (d_var d))
    (Z.of_nat (length (d_svc d))) (Some (d_svc d))
    (Z.of_nat (length (d_sampleType d))) (Some (d_sampleType d))
    (Z.of_nat (length bs))
    (subs_from (streq (d_sampleType d) "integer") 0 bs
       ++ replicate (Z.to_nat N_SUBSETS - length bs) None).

(** The outcome of reading a record that the decode loop takes for corrupt:
    the reads return, and count less than the record declares. *)
Definition counted_short (r : outcome (dat_sub_s * Z * list byte)) : Prop :=
  ∃ s cnt fp, r = Ret (s, cnt, fp) ∧
    cnt < add32 (add32 (add32 (cons_len s) (int_len s)) (binL_len s)) 9.

(** ** Sample values *)

(** A decoded Device of sample type [ty] that owns one Buffer. *)
Definition one_buffer (ty : string) (ts0 ts1 fo n : Z) : dat_s :=
  mk_dat_s (bytes_of MAGIC) 0 (Some []) None 0 (Some []) 0 (Some [])
    (Z.of_nat (length (bytes_of ty))) (Some (bytes_of ty)) 1
    [Some (mk_dat_sub_s 0 0 0 0 0 ts0 ts1 0 0 (Some []) fo n 0 0 (Some []) 0 (Some []) None);
     None; None; None].

(** A Device and a Buffer to build metadata files from. *)
Definition device_1 : device :=
  mk_device (bytes_of "uuid-1") (bytes_of "var") (bytes_of "svc") (bytes_of "integer").
Definition buffer_1 : buffer :=
  mk_buffer 1 2 3 0 0 300 400 5 (bytes_of "bl") 1 4 9 (bytes_of "5min") (bytes_of "avg").

(** The same for a Device of reals; [value] and [divider] are the patterns
    of 1.0 and 1000.0. *)
Definition device_2 : device :=
  mk_device (bytes_of "uuid-2") (bytes_of "var") (bytes_of "svc") (bytes_of "double").
Definition buffer_2 : buffer :=
  mk_buffer 0 0 0 4607182418800017408 4652007308841189376 300 400 5 (bytes_of "bl")
    1 4 9 (bytes_of "hours") (bytes_of "avg").

(** ** The statements: the decoded Device *)

(** The Buffers of a decoded Device: each index below [n_sets] holds a
    record, and each record points to the one after it, the last one to
    none. *)
Definition linked (data : dat_s) : Prop :=
  ∀ i, 0 ≤ i < n_sets data →
    ∃ s, subset_at data i = Ret s ∧
         next s = if i + 1 <? n_sets data then Some (i + 1) else None.

(** The records below index [j] of the pointer array, each linked to the
    one after it and the last one to none. *)
Definition chain (j : Z) (arr : list (option dat_sub_s)) : Prop :=
  ∀ i, 0 ≤ i < j →
    ∃ s, arr !! Z.to_nat i = Some (Some s) ∧
         next s = if i + 1 <? j then Some (i + 1) else None.

(** ** find_max *)

(** The pair [(max, j)] is the state of the loop. *)
Definition find_max (vec : list Z) (n : Z) : outcome Z :=
  max ← rd "vec" vec 0;
  st ← for_each (seqZ 1 (n - 1))
         (λ i (st : Z * Z),
            x ← rd "vec" vec i;
            if x >? st.1 then Ret (x, i) else Ret st)
         (max, 0);
  Ret st.2.

(** ** get_csv_path and get_rra_path *)

Definition MAX_LEN : Z := 256.

Definition string_of (s : list byte) : string := String.string_of_list_byte s.

(** [sprintf], [strcpy] or [strcat] leaving [text] in a buffer of [MAX_LEN]
    bytes: the text and its closing NUL have to fit, the first byte that
    does not is stored behind the buffer. *)
Definition fill (buf : string) (text : list byte) : outcome (list byte) :=
  if Z.of_nat (length text) <? MAX_LEN then Ret text
  else Fault (OutOfBounds buf MAX_LEN).

(** A [char*] field of the metadata passed for a [%s]: the bytes of its
    buffer up to the first NUL.  The fields are read into buffers of exactly
    their declared length and are not terminated there: in a buffer that
    holds no NUL the conversion reads on behind the buffer. *)
Definition str_arg (p : string) (x : option (list byte)) : outcome (list byte) :=
  buf ← deref p x;
  if bool_decide (Byte.x00 ∈ buf) then Ret (cstr buf)
  else Fault (OutOfBounds p (Z.of_nat (length buf))).

(** [strncmp( buf, lit, n ) == 0]: the bytes are compared one by one, up to
    [n] of them or to the NUL that ends both strings; [lit] is the text of
    the literal, [i] the index that is read. *)
Fixpoint strncmp_eq (p : string) (buf lit : list byte) (n : nat) (i : Z)
    {struct n} : outcome bool :=
  match n with
  | O => Ret true
  | S n =>
    match buf with
    | [] => Fault (OutOfBounds p i)
    | b :: buf =>
      match lit with
      | [] => Ret (Byte.eqb b Byte.x00)
      | c :: lit =>
        if Byte.eqb b c then
          if Byte.eqb b Byte.x00 then Ret true
          else strncmp_eq p buf lit n (i + 1)
        else Ret false
      end
    end
  end.

(** What [sprintf] puts out for a part of its format: the text between two
    conversions, the string of a [char*] parameter, or the [%s] of a field
    of the metadata. *)
Inductive piece : Type :=
| Lit (text : list byte)
| Str (p : string) (x : option (list byte)).

(** One part stored behind what the buffer of [MAX_LEN] bytes holds. *)
Definition sprintf_piece (buf : string) (pc : piece) (out : list byte)
  : outcome (list byte) :=
  text ← match pc with
         | Lit text => Ret text
         | Str p x => str_arg p x
         end;
  if Z.of_nat (length (out ++ text)) <=? MAX_LEN then Ret (out ++ text)
  else Fault (OutOfBounds buf MAX_LEN).

(** [sprintf( buf, ... )]: the parts in the order of the format, then the
    closing NUL. *)
Definition sprintf (buf : string) (pieces : list piece) : outcome (list byte) :=
  out ← for_each pieces (sprintf_piece buf) [];
  fill buf out.

(** A [char*] parameter is the string it points to.  The test
    [data->rrd_device_name != ""] compares the pointer with the address of
    a literal, which no device name is stored at: it holds for every name,
    the null pointer included.  The result is the path returned, [None] for
    [NULL], and the lines printed. *)
Definition get_csv_path (csv_dir : list byte) (data : dat_s) (sub : Z)
  : outcome (option (list byte) * list string) :=
  if (sub >=? 0) && (sub <? n_sets data) then
    s ← subset_at data sub;
    name ← deref "rrd_device_name" (rrd_device_name data);
    thermstat ← strncmp_eq "rrd_device_name" name (bytes_of "thermstat") 9 0;
    csv_name ← sprintf "csv_name"
                 (if thermstat : bool then
                    [Str "rrd_device_name" (rrd_device_name data);
                     Lit (bytes_of "_"); Str "interval" (interval s);
                     Lit (bytes_of ".csv")]
                  else
                    [Str "rrd_device_name" (rrd_device_name data);
                     Lit (bytes_of "_"); Str "deviceVar" (deviceVar data);
                     Lit (bytes_of "_"); Str "interval" (interval s);
                     Lit (bytes_of ".csv")]);
    csv_path ← fill "csv_path" csv_dir;
    csv_path ← fill "csv_path" (csv_path ++ csv_name);
    Ret (Some csv_path, ["csv_path        : " +:+ string_of csv_path])
  else Ret (None, ["transfer-logs: get_csv_path: subset out of range"]).

Definition get_rra_path (data : dat_s) (uuid loc : list byte) (sub : Z)
  : outcome (option (list byte) * list string) :=
  if (sub >=? 0) && (sub <? n_sets data) then
    s ← subset_at data sub;
    rra_path ← sprintf "rra_path"
                 [Lit loc; Lit uuid; Lit (bytes_of "-");
                  Str "interval" (interval s); Lit (bytes_of ".rra")];
    Ret (Some rra_path, ["rra_path        : " +:+ string_of rra_path])
  else Ret (None, ["get_rra_path: subset out of range"]).

(** ** write_data_to_csv *)

(** [isnan] on the pattern of a [double]: all exponent bits set and a
    fraction other than zero. *)
Definition isnan (bits : Z) : bool :=
  ((bits / 2 ^ 52) mod 2 ^ 11 =? 2047) && negb (bits mod 2 ^ 52 =? 0).

(** The test that a slot has been filled: [int_rra[j] != 0x7fffffff], or
    [!isnan( dble_rra[j] )]. *)
Definition filled (data_type : bool) (x : Z) : bool :=
  if data_type then negb (x =? 2147483647) else negb (isnan x).

(** One turn of the loop over the slots.  A line written is kept as the
    pair of the arguments of its [fprintf]. *)
Definition csv_row (data_type : bool) (time_rra : list Z) (rra : option (list Z))
    (j : Z) (rows : list (Z * Z)) : outcome (list (Z * Z)) :=
  arr ← deref "rra" rra;
  x ← rd "rra" arr j;
  if filled data_type x then
    t ← rd "time_rra" time_rra j;
    Ret (rows ++ [(t, x)])
  else Ret rows.

(** [fopen_csv] tells whether the file at [csv_path] opens for writing,
    [fopen_rra] is what opening the payload file gives.  The result is the
    lines written to the file at [csv_path], [None] when it was not opened,
    and the lines printed. *)
Definition write_data_to_csv (fopen_csv : bool) (fopen_rra : binary_file)
    (csv_path rra_path : string) (data : dat_s) (sub : Z)
  : outcome (option (list (Z * Z)) * list string) :=
  if fopen_csv then
    data_type ← is_integer data;
    time_rra ← create_rra_time data sub;
    '(rra, stdout) ← read_rra_file fopen_rra rra_path data sub;
    s ← subset_at data sub;
    rows ← (if n_samples s =? 0 then Ret []
            else for_each (seqZ 0 (n_samples s)) (csv_row data_type time_rra rra) []);
    Ret (Some rows, stdout)
  else
    Ret (None, ["write_data_to_csv: Cannot open file " +:+ csv_path +:+ " for writing"]).

(** ** merge_data *)

(** An array handed to [sort_data_for_rra]; a null pointer is an array
    without elements, every access to which faults. *)
Definition array_of (p : option (list Z)) : list Z := default [] p.

(** [fwrite( temp, size, n, fp )]: the elements as they lie in memory;
    [n] converts to [size_t]. *)
Definition fwrite (data_type : bool) (temp : list Z) (n : Z) : outcome (list byte) :=
  for_each (seqZ 0 (if n <? 0 then n + 2 ^ 32 else n))
    (λ j out, x ← rd "temp" temp j; Ret (out ++ enc_elem data_type x)) [].

(** [fopen_csv] and [fopen_rra] are what opening the import file and the
    payload file for reading gives, [fopen_out] tells whether the payload
    file opens for writing.  The result is the bytes the payload file is
    rewritten with, [None] when it is not rewritten, and the lines
    printed. *)
Definition merge_data (fopen_csv : csv_file) (fopen_rra : binary_file)
    (fopen_out : bool) (csv_path rra_path : string) (data : dat_s) (sub : Z)
    (max_time : Z) : outcome (option (list byte) * list string) :=
  match fopen_csv with
  | Some _ =>
    data_type ← is_integer data;
    time_rra ← create_rra_time data sub;
    '(time_csv, out1) ← read_csv_time fopen_csv csv_path data sub max_time;
    '(rra, out2) ← read_rra_file fopen_rra rra_path data sub;
    '(csv, out3) ← read_csv_data fopen_csv csv_path data sub max_time;
    temp ← sort_data_for_rra data sub (array_of csv) (array_of rra)
             (array_of time_csv) time_rra;
    _ ← fill "rra_out_path" (bytes_of rra_path);
    let stdout := out1 ++ out2 ++ out3 ++ ["rra_out_path    : " +:+ rra_path] in
    if fopen_out then
      s ← subset_at data sub;
      bytes ← fwrite data_type temp (n_samples s);
      Ret (Some bytes, stdout)
    else
      Ret (None, stdout ++ ["merge_data: Cannot open " +:+ rra_path +:+ " for writing"])
  | None =>
    Ret (None, ["merge_data: Cannot open file " +:+ csv_path +:+ " for reading"])
  end.

(** ** The statements: the export *)



(** [data->rrd_device_name = name], as the callers of [read_dat_file] set
    the name they look up in the configuration. *)
Definition set_device_name (data : dat_s) (name : option (list byte)) : dat_s :=
  mk_dat_s (magic data) (devUuid_len data) (deviceUuid data) name
    (devVar_len data) (deviceVar data) (devSvc_len data) (deviceSvc data)
    (sampleT_len data) (sampleType data) (n_sets data) (subset data).




(** A Device and a Buffer whose strings are stored with their closing
    NUL. *)
Definition device_3 : device :=
  mk_device (bytes_of "uuid-3" ++ [Byte.x00]) (bytes_of "var" ++ [Byte.x00])
    (bytes_of "svc" ++ [Byte.x00]) (bytes_of "integer" ++ [Byte.x00]).
Definition buffer_3 : buffer :=
  mk_buffer 1 2 3 0 0 300 400 5 (bytes_of "bl" ++ [Byte.x00]) 1 4 9
    (bytes_of "5min" ++ [Byte.x00]) (bytes_of "avg" ++ [Byte.x00]).



(** ** test_date *)

(** [strptime] and [mktime] belong to the C library: [to_time date] stands
    for the value of [mktime] on the fields that
    [strptime( date, "%Y-%m-%d", &tm )] fills, [None] when [strptime]
    fails. *)
Definition test_date (to_time : list byte → option Z) (date : option (list byte)) : Z :=
  match date with
  | Some d =>
    match to_time d with
    | Some t => add32 (wrap32 t) 86400
    | None => 2147483647
    end
  | None => 2147483647
  end.

(** ** usage *)

Definition VERSION : string := "0.1.0".

(** The lines printed. *)
Definition usage (exec_name : string) : list string :=
  ["version: " +:+ VERSION;
   "";
   "call:";
   "";
   exec_name +:+ " [-h] [-d <IP>] [-u <directory>] [-L <date>] -[e] [-r] [-b]";
   "";
   "options:";
   "    -h              Print this help message and exit.";
   "    -d <IP>         Download data from this IP-address. This option implies -e.";
   "    -u <directory>  Read data from this upload directory. Required for options";
   "                    -e and -r.";
   "    -e              Read data from an uploaded export.zip file, as created";
   "                    with the data export function in toons with FW 4.16.10";
   "                    or newer.";
   "                    Use this option in combination with -u.";
   "    -r              Read data from .rra files. For this option to work, ";
   "                    upload all .rra and corresponding .dat files to the";
   "                    the directory set with option -u.";
   "                    Make sure to put the files config_hcb_rrd.xml and";
   "                    config_happ_pwrusage.xml in that same directory as well.";
   "    -L <date>       Process data until (and including) this date, with";
   "                    <date> in the form YYYY-mm-dd, e.g., 2019-03-09.";
   "                    Monthly data will be processed until the last full month";
   "                    before this date, when available.";
   "    -b              Create back-ups of the rra databases and corresponding";
   "                    .dat files. This option also creates a script to restore";
   "                    the back-ups, in case something goes wrong. The script";
   "                    is called restore_logs.sh and is stored with the data in";
   "                    /HCBv2/rra_backups_<POSIX_timestamp>.";
   " ";
   "This software will only work when your toon has been connected to a meter";
   "adapter previously. Prior to this first contact, no databases exist on your";
   "toon, so there's nothing to write data into.";
   "";
   "Please note that at least one choice of data files to be imported into the new";
   "databases is mandatory (options -d, -u/-r or -u/-e).";
   "";
   "The new data become available after rebooting your toon.";
   "";
   "For the best results, apply options -u/-r, with all files uploaded.";
   "The toon-generated export.zip file contains far less old data.";
   "";
   "Especially in the testing phase of this code, option -b is HIGHLY recommended.";
   ""].

(** ** main: the command line *)

Definition EXPORTS_LOCATION : string := "/var/volatile/tmp/exports/".
Definition E_INSUFFICIENT_CL_ARGS : Z := 254.
Definition E_BAD_DL_URL : Z := 253.
Definition E_INVALID_DATA_DIR : Z := 252.
Definition E_INVALID_END_DATE : Z := 251.

(** The variables that the argument loop sets. *)
Record main_vars : Type := mk_main_vars {
  dl_dir : option (list byte);
  dl_url : option (list byte);
  max_date : option (list byte);
  exp_flag : Z;
  rra_flag : Z;
  dl_flag : Z;
  dir_flag : Z;
  dat_flag : Z;
  backup_flag : Z
}.

(** What is printed: the lines of the standard output and of the standard
    error, in the order of the calls. *)
Inductive stream : Type := Stdout | Stderr.
Definition printed : Type := list (stream * string).

(** A statement either goes on or makes [main] return. *)
Inductive ctl (A : Type) : Type :=
| Go (a : A)
| Return (status : Z).
Arguments Go {A} a.
Arguments Return {A} status.

Definition run (A : Type) : Type := printed → outcome (ctl A * printed).

#[global] Instance run_ret : MRet run := λ A a out, Ret (Go a, out).
#[global] Instance run_bind : MBind run :=
  λ A B k m out,
    match m out with
    | Ret (Go a, out) => k a out
    | Ret (Return status, out) => Ret (Return status, out)
    | Fault f => Fault f
    end.

Definition lift {A} (m : outcome A) : run A :=
  λ out, match m with Ret a => Ret (Go a, out) | Fault f => Fault f end.
Definition print (s : stream) (lines : list string) : run () :=
  λ out, Ret (Go (), out ++ map (pair s) lines).
Definition return_ {A} (status : Z) : run A := λ out, Ret (Return status, out).

(** [!x] on an [int]. *)
Definition not_c (x : Z) : Z := if x =? 0 then 1 else 0.

(** The test of the flags behind the loop. *)
Definition insufficient (v : main_vars) : bool :=
  negb (Z.lor (Z.lor (not_c (Z.lor (exp_flag v) (rra_flag v)))
                     (not_c (Z.lor (dl_flag v) (dir_flag v))))
              (not_c (Z.lor (exp_flag v) (dir_flag v))) =? 0).

(** The four branches of the statement that acts on the flags. *)
Inductive branch : Type :=
| Convert_rra
| Unzip_exports
| Download_exports
| Impossible_error.

Definition main_branch (v : main_vars) : branch :=
  if Z.land (dir_flag v) (rra_flag v) =? 1 then Convert_rra
  else if negb (Z.land (dir_flag v) (exp_flag v) =? 0) then Unzip_exports
  else if negb (Z.land (dl_flag v) (exp_flag v) =? 0) then Download_exports
  else Impossible_error.

Section main.

(** [test_host] connects to a host and [opendir] reads the file system:
    they are parameters, as is [to_time] of [test_date]. *)
Variable test_host : list byte → Z.
Variable opendir : list byte → bool.
Variable to_time : list byte → option Z.

(** [argv[0] .. argv[argc-1]]; [argv[argc]] is the null pointer. *)
Variable argv : list (list byte).

Definition argc : Z := Z.of_nat (length argv).

(** [argv[i]] as a pointer, and as the string passed to [strcmp] or to a
    [%s]. *)
Definition argv_at (i : Z) : outcome (option (list byte)) :=
  rd "argv" (map Some argv ++ [None]) i.
Definition arg (i : Z) : outcome (list byte) :=
  p ← argv_at i; deref "argv" p.

Definition print_usage : run () :=
  exec_name ← lift (arg 0); print Stdout (usage (string_of exec_name)).

(** [-h] *)
Definition opt_h (i : Z) : run () :=
  a ← lift (arg i);
  if bool_decide (a = bytes_of "-h")
  then _ ← print_usage; return_ 0
  else mret ().

(** [-d <IP>] *)
Definition opt_d (i : Z) (v : main_vars) : run (Z * main_vars) :=
  a ← lift (arg i);
  if bool_decide (a = bytes_of "-d") then
    next ← lift (argv_at (add32 i 1));
    match next with
    | Some ip =>
      url ← lift (fill "dl_url" (bytes_of "http://" ++ ip));
      if negb (test_host url =? 0) then
        _ ← print Stderr ["Invalid IP-address supplied with option -d: " +:+ string_of ip];
        _ ← print_usage;
        return_ E_BAD_DL_URL
      else
        url ← lift (fill "dl_url" (bytes_of "http://" ++ ip ++ bytes_of "/export.zip"));
        mret (add32 i 1,
              mk_main_vars (dl_dir v) (Some url) (max_date v) 1 0 1 (dir_flag v)
                (dat_flag v) (backup_flag v))
    | None =>
      _ ← print Stdout ["Error: option -d requires an IP-address as extra argument"];
      _ ← print_usage;
      return_ E_INSUFFICIENT_CL_ARGS
    end
  else mret (i, v).

(** [dl_dir = calloc( MAX_LEN, sizeof ( char ) ); sprintf( dl_dir, EXPORTS_LOCATION );] *)
Definition default_dl_dir (v : main_vars) : main_vars :=
  mk_main_vars (Some (bytes_of EXPORTS_LOCATION)) (dl_url v) (max_date v) (exp_flag v)
    (rra_flag v) (dl_flag v) (dir_flag v) (dat_flag v) (backup_flag v).

(** [-u <directory>] *)
Definition opt_u (i : Z) (v : main_vars) : run (Z * main_vars) :=
  a ← lift (arg i);
  if bool_decide (a = bytes_of "-u") then
    next ← lift (argv_at (add32 i 1));
    '(i, v) ← match next with
              | Some d =>
                dir ← lift (fill "dl_dir" d);
                if opendir dir then
                  dir ← lift (fill "dl_dir" (dir ++ bytes_of "/"));
                  mret (add32 i 1,
                        mk_main_vars (Some dir) (dl_url v) (max_date v) (exp_flag v)
                          (rra_flag v) (dl_flag v) 1 (dat_flag v) (backup_flag v))
                else
                  _ ← print Stdout
                        ["Error: option -u requires a valid path as extra argument"];
                  _ ← print_usage;
                  return_ E_INVALID_DATA_DIR
              | None => mret (i, v)
              end;
    mret (i, mk_main_vars (dl_dir v) (dl_url v) (max_date v) (exp_flag v) (rra_flag v)
               0 (dir_flag v) (dat_flag v) (backup_flag v))
  else mret (i, v).

(** [-L <date>] *)
Definition opt_L (i : Z) (v : main_vars) : run (Z * main_vars) :=
  a ← lift (arg i);
  if bool_decide (a = bytes_of "-L") then
    next ← lift (argv_at (add32 i 1));
    match next with
    | Some d =>
      date ← lift (fill "max_date" d);
      if (test_date to_time (Some date) =? 0)
         || (test_date to_time (Some date) =? 2147483647) then
        _ ← print Stdout
              ["Error: option -L requires a valid date (YYYY-mm-dd) as extra argument"];
        _ ← print_usage;
        return_ E_INVALID_END_DATE
      else
        mret (add32 i 1,
              mk_main_vars (dl_dir v) (dl_url v) (Some date) (exp_flag v) (rra_flag v)
                (dl_flag v) (dir_flag v) 1 (backup_flag v))
    | None =>
      mret (i, mk_main_vars (dl_dir v) (dl_url v) (Some []) (exp_flag v) (rra_flag v)
                 (dl_flag v) (dir_flag v) (dat_flag v) (backup_flag v))
    end
  else mret (i, v).

(** [-e], [-b] and [-r] *)
Definition opt_e (i : Z) (v : main_vars) : run main_vars :=
  a ← lift (arg i);
  mret (if bool_decide (a = bytes_of "-e")
        then mk_main_vars (dl_dir v) (dl_url v) (max_date v) 1 0 (dl_flag v) (dir_flag v)
               (dat_flag v) (backup_flag v)
        else v).
Definition opt_b (i : Z) (v : main_vars) : run main_vars :=
  a ← lift (arg i);
  mret (if bool_decide (a = bytes_of "-b")
        then mk_main_vars (dl_dir v) (dl_url v) (max_date v) (exp_flag v) (rra_flag v)
               (dl_flag v) (dir_flag v) (dat_flag v) 1
        else v).
Definition opt_r (i : Z) (v : main_vars) : run main_vars :=
  a ← lift (arg i);
  mret (if bool_decide (a = bytes_of "-r")
        then mk_main_vars (dl_dir v) (dl_url v) (max_date v) 0 1 (dl_flag v) (dir_flag v)
               (dat_flag v) (backup_flag v)
        else v).

(** One turn of the loop over the arguments: the index as the turn leaves
    it, before the [i++] of the loop, and the variables. *)
Definition main_arg (i : Z) (v : main_vars) : run (Z * main_vars) :=
  _ ← opt_h i;
  '(i, v) ← opt_d i v;
  '(i, v) ← opt_u i (default_dl_dir v);
  '(i, v) ← opt_L i v;
  v ← opt_e i v;
  v ← opt_b i v;
  v ← opt_r i v;
  mret (i, v).

(** [for ( i = 1; i < argc; i++ )]; every turn moves on by one argument at
    least, so the number of arguments bounds the number of turns. *)
Fixpoint main_loop (fuel : nat) (i : Z) (v : main_vars) : run main_vars :=
  match fuel with
  | O => lift (Fault OutOfFuel)
  | S fuel =>
    if i <? argc then
      '(i, v) ← main_arg i v;
      main_loop fuel (add32 i 1) v
    else mret v
  end.

(** [main] from its first statement to the test of the flags: the status
    with which it returns there, or the variables with which it goes on to
    the work on the databases. *)
Definition main_args : run main_vars :=
  if argc <? 2 then
    _ ← print_usage; return_ 0
  else
    _ ← print Stdout [String.concat "" (map (λ a, string_of a +:+ " ") argv)];
    v ← main_loop (length argv) 1 (mk_main_vars None None None 0 0 0 0 0 0);
    if insufficient v then
      _ ← print Stderr ["Error: Insufficient or invalid command line arguments"];
      _ ← print_usage;
      return_ E_INSUFFICIENT_CL_ARGS
    else mret v.

End main.

(** ** The statements: the command line *)

(** A flag holds 0 or 1. *)
Definition flag (x : Z) : Prop := x = 0 ∨ x = 1.
Definition flags_ok (v : main_vars) : Prop :=
  flag (exp_flag v) ∧ flag (rra_flag v) ∧ flag (dl_flag v) ∧ flag (dir_flag v) ∧
  flag (dat_flag v) ∧ flag (backup_flag v).

(** Arguments short enough for the buffers of [MAX_LEN] bytes that [main]
    copies them to, the longest text being [http://<IP>/export.zip]. *)
Definition short_args (argv : list (list byte)) : Prop :=
  Forall (λ a : list byte, Z.of_nat (length a) < MAX_LEN - 18) argv.

(** * Machine integers and arrays *)

Lemma wrap32_id z : - 2 ^ 31 ≤ z < 2 ^ 31 → wrap32 z = z.
Proof.
  intros Hz. unfold wrap32.
  rewrite Z.mod_small by lia. lia.
Qed.

Lemma add32_id a b : - 2 ^ 31 ≤ a + b < 2 ^ 31 → add32 a b = a + b.
Proof. apply wrap32_id. Qed.

Lemma sub32_id a b : - 2 ^ 31 ≤ a - b < 2 ^ 31 → sub32 a b = a - b.
Proof. apply wrap32_id. Qed.

Lemma rd_at a (arr : list Z) i :
  0 ≤ i < Z.of_nat (length arr) → rd a arr i = Ret (at_ arr i).
Proof.
  intros Hi. unfold rd, at_.
  destruct (Z.leb_spec 0 i); [|lia].
  destruct (lookup_lt_is_Some_2 arr (Z.to_nat i)) as [x ->]; [lia|done].
Qed.

Lemma rd_lookup {A} a (arr : list A) i x :
  0 ≤ i → arr !! Z.to_nat i = Some x → rd a arr i = Ret x.
Proof.
  intros Hi Hx. unfold rd.
  destruct (Z.leb_spec 0 i); [|lia]. by rewrite Hx.
Qed.

Lemma rd_Ret_inv {A} a (arr : list A) i x :
  rd a arr i = Ret x → 0 ≤ i < Z.of_nat (length arr) ∧ arr !! Z.to_nat i = Some x.
Proof.
  unfold rd. destruct (Z.leb_spec 0 i); [|done].
  destruct (arr !! Z.to_nat i) eqn:E; [|done].
  intros [= ->]. apply lookup_lt_Some in E as ?. split; [lia|done].
Qed.

Lemma rd_oob {A} a (arr : list A) i :
  ¬ (0 ≤ i < Z.of_nat (length arr)) → rd a arr i = Fault (OutOfBounds a i).
Proof.
  intros Hi. unfold rd. destruct (Z.leb_spec 0 i); [|done].
  rewrite lookup_ge_None_2; [done|lia].
Qed.

Lemma wr_Ret {A} a (arr : list A) i x :
  0 ≤ i < Z.of_nat (length arr) → wr a arr i x = Ret (<[Z.to_nat i := x]> arr).
Proof.
  intros Hi. unfold wr.
  destruct (Z.leb_spec 0 i); [|lia].
  destruct (Z.ltb_spec i (Z.of_nat (length arr))); [done|lia].
Qed.

Lemma at_lookup arr i x : arr !! Z.to_nat i = Some x → at_ arr i = x.
Proof. unfold at_. by intros ->. Qed.

Lemma lookup_at arr i :
  0 ≤ i < Z.of_nat (length arr) → arr !! Z.to_nat i = Some (at_ arr i).
Proof.
  intros Hi. unfold at_.
  destruct (lookup_lt_is_Some_2 arr (Z.to_nat i)) as [x ->]; [lia|done].
Qed.

(** * The pivoted binary search *)

Lemma inc_le f a b i j : inc f a b → a ≤ i → i ≤ j → j ≤ b → f i ≤ f j.
Proof.
  intros Hinc ? ? ?. destruct (Z.eq_dec i j) as [->|]; [lia|].
  specialize (Hinc i j). lia.
Qed.

Lemma inc_sub f a b a' b' : inc f a b → a ≤ a' → b' ≤ b → inc f a' b'.
Proof. intros Hinc ? ? i j ? ? ?. apply Hinc; lia. Qed.

Lemma window_sub f l h l' h' : window f l h → l ≤ l' → h' ≤ h → window f l' h'.
Proof.
  intros [Hinc|(p & Hp & H1 & H2 & Hlt)] ? ?.
  - left. eauto using inc_sub.
  - destruct (Z_lt_dec l' p) as [Hl|Hl]; [destruct (Z_le_dec p h') as [Hh|Hh]|].
    + right. exists p. split; [lia|]. split; [|split].
      * eapply inc_sub; [exact H1|lia..].
      * eapply inc_sub; [exact H2|lia..].
      * pose proof (inc_le f _ _ h' h H2 ltac:(lia) ltac:(lia) ltac:(lia)).
        pose proof (inc_le f _ _ l l' H1 ltac:(lia) ltac:(lia) ltac:(lia)).
        lia.
    + left. eapply inc_sub; [exact H1|lia..].
    + left. eapply inc_sub; [exact H2|lia..].
Qed.

(** When [f l ≤ f mid] the left half is the increasing one, and a slot to
    the right of [mid] holds more than [f mid] or less than [f l]. *)
Lemma window_left f l h mid :
  window f l h → l ≤ mid ≤ h → f l ≤ f mid →
  inc f l mid ∧ ∀ i, mid < i ≤ h → f mid < f i ∨ f i < f l.
Proof.
  intros [Hinc|(p & Hp & H1 & H2 & Hlt)] Hm Hle.
  - split; [eapply inc_sub; [exact Hinc|lia..]|].
    intros i Hi. left. apply Hinc; lia.
  - destruct (Z_le_dec p mid) as [Hpm|Hpm].
    + pose proof (inc_le f _ _ mid h H2 ltac:(lia) ltac:(lia) ltac:(lia)). lia.
    + split; [eapply inc_sub; [exact H1|lia..]|].
      intros i Hi. destruct (Z_lt_dec i p).
      * left. apply H1; lia.
      * right. pose proof (inc_le f _ _ i h H2 ltac:(lia) ltac:(lia) ltac:(lia)). lia.
Qed.

(** When [f mid < f l] the right half is the increasing one, and a slot to
    the left of [mid] holds less than [f mid] or more than [f h]. *)
Lemma window_right f l h mid :
  window f l h → l ≤ mid ≤ h → f mid < f l →
  inc f mid h ∧ ∀ i, l ≤ i < mid → f i < f mid ∨ f h < f i.
Proof.
  intros [Hinc|(p & Hp & H1 & H2 & Hlt)] Hm Hle.
  - pose proof (inc_le f _ _ l mid Hinc ltac:(lia) ltac:(lia) ltac:(lia)). lia.
  - destruct (Z_le_dec p mid) as [Hpm|Hpm].
    + split; [eapply inc_sub; [exact H2|lia..]|].
      intros i Hi. destruct (Z_lt_dec i p).
      * right. pose proof (inc_le f _ _ l i H1 ltac:(lia) ltac:(lia) ltac:(lia)). lia.
      * left. apply H2; lia.
    + pose proof (inc_le f _ _ l mid H1 ltac:(lia) ltac:(lia) ltac:(lia)). lia.
Qed.

Lemma mid_between l h :
  0 ≤ l → l ≤ h → h < 2 ^ 30 →
  Z.quot (add32 l h) 2 = (l + h) / 2 ∧ l ≤ (l + h) / 2 ≤ h.
Proof.
  intros. rewrite add32_id by lia.
  rewrite Z.quot_div_nonneg by lia.
  split; [reflexivity|]. split.
  - apply Z.div_le_lower_bound; lia.
  - apply Z.div_le_upper_bound; lia.
Qed.

Lemma search_rec_spec arr key fuel : ∀ l h,
  Z.of_nat (length arr) ≤ 2 ^ 30 →
  0 ≤ l → l ≤ h + 1 → h < Z.of_nat (length arr) →
  (Z.to_nat (h - l + 1) < fuel)%nat →
  window (at_ arr) l h →
  ∃ r, search_rec fuel arr l h key = Ret r ∧
       ((∃ i, l ≤ i ≤ h ∧ at_ arr i = key) → l ≤ r ≤ h ∧ at_ arr r = key) ∧
       ((∀ i, l ≤ i ≤ h → at_ arr i ≠ key) → r = -1).
Proof.
  induction fuel as [|fuel IH]; intros l h Hlen Hl Hlh Hh Hfuel Hw; [lia|].
  cbn [search_rec].
  destruct (Z.gtb_spec l h) as [Hgt|Hle].
  { exists (-1). split; [done|]. split; [|done].
    intros (i & ? & _). lia. }
  destruct (mid_between l h) as [-> Hmid]; [lia..|].
  set (mid := (l + h) / 2) in *.
  rewrite (rd_at _ arr mid) by lia. cbn [mbind outcome_bind].
  destruct (Z.eqb_spec (at_ arr mid) key) as [Hkey|Hkey].
  { exists mid. split; [done|]. split; [intros _; split; [lia|done]|].
    intros Hno. exfalso. apply (Hno mid); [lia|done]. }
  rewrite (rd_at _ arr l) by lia. cbn [mbind outcome_bind].
  rewrite (sub32_id mid 1), (add32_id mid 1) by lia.
  assert (Hleft : window (at_ arr) l (mid - 1)) by (eapply window_sub; [exact Hw|lia..]).
  assert (Hright : window (at_ arr) (mid + 1) h) by (eapply window_sub; [exact Hw|lia..]).
  destruct (Z.leb_spec (at_ arr l) (at_ arr mid)) as [Hlm|Hlm].
  - destruct (window_left _ _ _ mid Hw ltac:(lia) Hlm) as [Hs Hout].
    destruct (Z.geb_spec key (at_ arr l)) as [Hk1|Hk1];
      [destruct (Z.leb_spec key (at_ arr mid)) as [Hk2|Hk2]|]; cbn [andb].
    + destruct (IH l (mid - 1)) as (r & -> & Hfound & Hnone); [lia..|done|].
      exists r. split; [done|]. split.
      * intros (i & Hi & Hik). destruct Hfound as [? ?]; [|lia].
        exists i. split; [|done].
        destruct (Z_le_dec i (mid - 1)); [lia|].
        destruct (Z.eq_dec i mid) as [->|]; [done|].
        destruct (Hout i ltac:(lia)); lia.
      * intros Hno. apply Hnone. intros i Hi. apply Hno. lia.
    + destruct (IH (mid + 1) h) as (r & -> & Hfound & Hnone); [lia..|done|].
      exists r. split; [done|]. split.
      * intros (i & Hi & Hik). destruct Hfound as [? ?]; [|lia].
        exists i. split; [|done].
        destruct (Z_le_dec (mid + 1) i); [lia|].
        pose proof (inc_le _ _ _ i mid Hs ltac:(lia) ltac:(lia) ltac:(lia)). lia.
      * intros Hno. apply Hnone. intros i Hi. apply Hno. lia.
    + destruct (IH (mid + 1) h) as (r & -> & Hfound & Hnone); [lia..|done|].
      exists r. split; [done|]. split.
      * intros (i & Hi & Hik). destruct Hfound as [? ?]; [|lia].
        exists i. split; [|done].
        destruct (Z_le_dec (mid + 1) i); [lia|].
        pose proof (inc_le _ _ _ l i Hs ltac:(lia) ltac:(lia) ltac:(lia)). lia.
      * intros Hno. apply Hnone. intros i Hi. apply Hno. lia.
  - destruct (window_right _ _ _ mid Hw ltac:(lia) Hlm) as [Hs Hout].
    destruct (Z.geb_spec key (at_ arr mid)) as [Hk1|Hk1].
    + rewrite (rd_at _ arr h) by lia. cbn [mbind outcome_bind].
      destruct (Z.leb_spec key (at_ arr h)) as [Hk2|Hk2].
      * destruct (IH (mid + 1) h) as (r & -> & Hfound & Hnone); [lia..|done|].
        exists r. split; [done|]. split.
        -- intros (i & Hi & Hik). destruct Hfound as [? ?]; [|lia].
           exists i. split; [|done].
           destruct (Z_le_dec (mid + 1) i); [lia|].
           destruct (Z.eq_dec i mid) as [->|]; [done|].
           destruct (Hout i ltac:(lia)); lia.
        -- intros Hno. apply Hnone. intros i Hi. apply Hno. lia.
      * destruct (IH l (mid - 1)) as (r & -> & Hfound & Hnone); [lia..|done|].
        exists r. split; [done|]. split.
        -- intros (i & Hi & Hik). destruct Hfound as [? ?]; [|lia].
           exists i. split; [|done].
           destruct (Z_le_dec i (mid - 1)); [lia|].
           pose proof (inc_le _ _ _ i h Hs ltac:(lia) ltac:(lia) ltac:(lia)). lia.
        -- intros Hno. apply Hnone. intros i Hi. apply Hno. lia.
    + destruct (IH l (mid - 1)) as (r & -> & Hfound & Hnone); [lia..|done|].
      exists r. split; [done|]. split.
      * intros (i & Hi & Hik). destruct Hfound as [? ?]; [|lia].
        exists i. split; [|done].
        destruct (Z_le_dec i (mid - 1)); [lia|].
        pose proof (inc_le _ _ _ mid i Hs ltac:(lia) ltac:(lia) ltac:(lia)). lia.
      * intros Hno. apply Hnone. intros i Hi. apply Hno. lia.
Qed.

Lemma at_rotate s (m : nat) i :
  (m < length s)%nat → 0 ≤ i < Z.of_nat (length s) →
  at_ (drop m s ++ take m s) i =
  if decide (i < Z.of_nat (length s) - Z.of_nat m)
  then at_ s (i + Z.of_nat m)
  else at_ s (i - (Z.of_nat (length s) - Z.of_nat m)).
Proof.
  intros Hm Hi. unfold at_. case_decide.
  - rewrite lookup_app_l by (rewrite length_drop; lia).
    rewrite lookup_drop. do 2 f_equal. lia.
  - rewrite lookup_app_r by (rewrite length_drop; lia).
    rewrite length_drop, lookup_take_lt by lia. do 2 f_equal. lia.
Qed.

Lemma rotated_window arr :
  rotated_sorted arr → window (at_ arr) 0 (Z.of_nat (length arr) - 1).
Proof.
  intros (s & k & Hasc & ->). rewrite length_rotate. unfold rotate.
  destruct s as [|x s']; [left; intros i j; cbn; lia|].
  set (s := x :: s') in *.
  assert (Hm : (k mod length s < length s)%nat) by (apply Nat.mod_upper_bound; done).
  set (m := (k mod length s)%nat) in *.
  destruct (decide (m = 0%nat)) as [->|Hm0].
  { left. cbn [drop take]. by rewrite app_nil_r. }
  right. exists (Z.of_nat (length s) - Z.of_nat m).
  split; [lia|]. split; [|split].
  - intros i j ? ? ?. rewrite !at_rotate by lia.
    rewrite !decide_True by lia. apply Hasc; lia.
  - intros i j ? ? ?. rewrite !at_rotate by lia.
    rewrite !decide_False by lia. apply Hasc; lia.
  - rewrite !at_rotate by lia.
    rewrite decide_False, decide_True by lia. apply Hasc; lia.
Qed.

(** C3.  On a rotated sorted array of distinct integers of at most [2^30]
    elements, [search] over a window [l..h] of the array returns: it gives an
    index of the window at which the array holds [key] when [key] occurs in
    the window, and [-1], which is no index of the array (not index 0
    either), when it does not.  The window may be empty ([l = h + 1]), as it
    is for an array of size 0. *)
Theorem search_correct (arr : list Z) (l h key : Z) :
  rotated_sorted arr →
  Z.of_nat (length arr) ≤ 2 ^ 30 →
  0 ≤ l → l ≤ h + 1 → h < Z.of_nat (length arr) →
  ∃ r, search arr l h key = Ret r ∧
       (occurs arr l h key → l ≤ r ≤ h ∧ arr !! Z.to_nat r = Some key) ∧
       (¬ occurs arr l h key →
        r = -1 ∧ ∀ i, is_Some (arr !! Z.to_nat i) → 0 ≤ i → r ≠ i).
Proof.
  intros Hrot Hlen Hl Hlh Hh.
  destruct (search_rec_spec arr key (S (Z.to_nat (h - l + 1))) l h)
    as (r & Hr & Hfound & Hnone); [lia..| |].
  { eapply window_sub; [apply rotated_window, Hrot|lia..]. }
  exists r. split; [exact Hr|]. split.
  - intros (i & Hi & Hik). destruct Hfound as [Hrange Hat].
    { exists i. split; [done|]. by apply at_lookup. }
    split; [done|]. rewrite <- Hat. apply lookup_at. lia.
  - intros Hno. assert (r = -1) as ->; [|split; [done|intros i _ Hi; lia]].
    apply Hnone. intros i Hi Hik. apply Hno.
    exists i. split; [done|]. rewrite <- Hik. apply lookup_at. lia.
Qed.

Lemma search_correct_witness :
  ∃ r, search [4; 5; 6; 7; 0; 1; 2] 0 6 1 = Ret r ∧
       (occurs [4; 5; 6; 7; 0; 1; 2] 0 6 1 →
        0 ≤ r ≤ 6 ∧ [4; 5; 6; 7; 0; 1; 2] !! Z.to_nat r = Some 1) ∧
       (¬ occurs [4; 5; 6; 7; 0; 1; 2] 0 6 1 →
        r = -1 ∧ ∀ i, is_Some ([4; 5; 6; 7; 0; 1; 2] !! Z.to_nat i) → 0 ≤ i → r ≠ i).
Proof.
  apply (search_correct [4; 5; 6; 7; 0; 1; 2] 0 6 1).
  - exists [0; 1; 2; 4; 5; 6; 7], 3%nat. split; [|reflexivity].
    intros i j Hi Hij Hj. change (j ≤ 6) in Hj.
    assert (Hc : i = 0 ∨ i = 1 ∨ i = 2 ∨ i = 3 ∨ i = 4 ∨ i = 5) by lia.
    assert (Hd : j = 1 ∨ j = 2 ∨ j = 3 ∨ j = 4 ∨ j = 5 ∨ j = 6) by lia.
    destruct Hc as [->|[->|[->|[->|[->| ->]]]]];
      destruct Hd as [->|[->|[->|[->|[->| ->]]]]];
      first [lia | vm_compute; reflexivity].
  - cbn. lia.
  - lia.
  - lia.
  - cbn. lia.
Defined.

(** * Loops over slots *)

Lemma for_each_seqZ {S} (P : Z → S → Prop) (body : Z → S → outcome S) len :
  ∀ a s, 0 ≤ len → P a s →
  (∀ i s, a ≤ i < a + len → P i s → ∃ s', body i s = Ret s' ∧ P (i + 1) s') →
  ∃ s', for_each (seqZ a len) body s = Ret s' ∧ P (a + len) s'.
Proof.
  remember (Z.to_nat len) as m eqn:Hm.
  revert len Hm. induction m as [|m IH]; intros len Hm a s Hlen HP Hbody.
  - assert (len = 0) as -> by lia. rewrite seqZ_nil by lia.
    exists s. split; [done|]. by rewrite Z.add_0_r.
  - rewrite seqZ_cons by lia. cbn [for_each].
    destruct (Hbody a s) as (s1 & -> & HP1); [lia|done|].
    cbn [mbind outcome_bind].
    destruct (IH (Z.pred len) ltac:(lia) (Z.succ a) s1) as (s' & -> & HP');
      [lia|by replace (Z.succ a) with (a + 1) by lia| |].
    + intros i s2 Hi. apply Hbody. lia.
    + exists s'. split; [done|].
      by replace (a + len) with (Z.succ a + Z.pred len) by lia.
Qed.

(** The copy loop [tmp[i] = rra[i]]. *)
Lemma copy_loop (data_rra : list Z) n :
  Z.of_nat (length data_rra) = n →
  for_each (seqZ 0 n)
    (λ i tmp, x ← rd "data_rra" data_rra i; wr "tmp" tmp i x) (calloc 0 n)
  = Ret data_rra.
Proof.
  intros Hn.
  destruct (for_each_seqZ
    (λ i tmp, length tmp = length data_rra ∧
              ∀ k, (Z.of_nat k < i) → tmp !! k = data_rra !! k)
    (λ i tmp, x ← rd "data_rra" data_rra i; wr "tmp" tmp i x) n 0 (calloc 0 n))
    as (out & -> & Hlen & Hout); [lia| | |].
  - split; [unfold calloc; rewrite length_replicate; lia|]. intros k Hk. lia.
  - intros i tmp Hi [Hlen Hpre].
    rewrite rd_at by lia. cbn [mbind outcome_bind].
    rewrite wr_Ret by lia. eexists. split; [done|].
    split; [by rewrite length_insert|].
    intros k Hk. destruct (decide (k = Z.to_nat i)) as [->|Hne].
    + rewrite list_lookup_insert_eq by lia. symmetry. apply lookup_at. lia.
    + rewrite list_lookup_insert_ne by done. apply Hpre. lia.
  - f_equal. apply list_eq. intros k.
    destruct (decide (k < length data_rra)%nat).
    + apply Hout. lia.
    + rewrite !lookup_ge_None_2; [done|lia..].
Qed.

(** What [search] returns is [-1] or a slot that holds the key. *)
Lemma search_rec_Ret arr key fuel : ∀ l h r,
  search_rec fuel arr l h key = Ret r →
  r = -1 ∨ (0 ≤ r < Z.of_nat (length arr) ∧ arr !! Z.to_nat r = Some key).
Proof.
  induction fuel as [|fuel IH]; intros l h r; [done|].
  cbn [search_rec]. destruct (l >? h); [intros [= <-]; by left|].
  destruct (rd "arr" arr (Z.quot (add32 l h) 2)) as [a_mid|] eqn:Hmid; [|done].
  cbn [mbind outcome_bind].
  destruct (Z.eqb_spec a_mid key) as [->|_].
  { intros [= <-]. right. by apply rd_Ret_inv in Hmid. }
  destruct (rd "arr" arr l) as [a_l|]; [|done]. cbn [mbind outcome_bind].
  destruct (a_l <=? a_mid).
  { destruct (_ && _); apply IH. }
  destruct (key >=? a_mid); [|apply IH].
  destruct (rd "arr" arr h) as [a_h|]; [|done]. cbn [mbind outcome_bind].
  destruct (key <=? a_h); apply IH.
Qed.

Lemma search_Ret arr l h key r :
  search arr l h key = Ret r →
  r = -1 ∨ (0 ≤ r < Z.of_nat (length arr) ∧ arr !! Z.to_nat r = Some key).
Proof. apply search_rec_Ret. Qed.

(** * The merge *)

Section merge.
Context (data : dat_s) (sub : Z) (s : dat_sub_s) (integer : bool).
Context (data_csv data_rra time_csv time_rra : list Z).
Hypothesis Hty : is_integer data = Ret integer.
Hypothesis Hsub : subset_at data sub = Ret s.
Hypothesis Hrra : Z.of_nat (length data_rra) = n_samples s.
Hypothesis Htcsv : Z.of_nat (length time_csv) = n_samples s.
Hypothesis Htrra : Z.of_nat (length time_rra) = n_samples s.
Hypothesis Hint : n_samples s < 2 ^ 31.

(** The merge up to its second loop. *)
Lemma sort_data_unfold t_min t_max :
  0 ≤ file_offset s →
  time_rra !! Z.to_nat (file_offset s + 1) = Some t_min →
  time_rra !! Z.to_nat (file_offset s) = Some t_max →
  sort_data_for_rra data sub data_csv data_rra time_csv time_rra =
  for_each (seqZ 0 (n_samples s))
    (λ i tmp,
       c ← rd "time_csv" time_csv i;
       if (c >=? t_min) && (c <=? t_max) then
         key ← rd "time_rra" time_rra i;
         index ← search time_csv 0 (n_samples s) key;
         if index >=? 0
         then x ← rd "data_csv" data_csv index; wr "tmp" tmp i x
         else Ret tmp
       else Ret tmp)
    data_rra.
Proof.
  intros Hfo Hmin Hmax. unfold sort_data_for_rra.
  rewrite Hty, Hsub. cbn [mbind outcome_bind].
  rewrite copy_loop by done. cbn [mbind outcome_bind].
  apply lookup_lt_Some in Hmin as Hlt.
  rewrite add32_id by lia.
  rewrite (rd_lookup _ _ (file_offset s + 1) t_min) by (done || lia).
  cbn [mbind outcome_bind].
  rewrite (rd_lookup _ _ (file_offset s) t_max) by (done || lia). done.
Qed.

End merge.

(** X30.  When slot [file_offset+1] of the destination timeline exists and
    no entry of the import timestamp array lies within the destination's
    window [[oldest, newest]], [oldest] being the destination timestamp at
    slot [file_offset+1] and [newest] the one at slot [file_offset], the
    merge returns the destination values, slot for slot. *)
Theorem merge_nothing_in_window (data : dat_s) (sub : Z) (s : dat_sub_s)
    (integer : bool) (data_csv data_rra time_csv time_rra : list Z)
    (oldest newest : Z) :
  is_integer data = Ret integer →
  subset_at data sub = Ret s →
  Z.of_nat (length data_rra) = n_samples s →
  Z.of_nat (length time_csv) = n_samples s →
  Z.of_nat (length time_rra) = n_samples s →
  n_samples s < 2 ^ 31 →
  0 ≤ file_offset s →
  time_rra !! Z.to_nat (file_offset s + 1) = Some oldest →
  time_rra !! Z.to_nat (file_offset s) = Some newest →
  (∀ t, t ∈ time_csv → ¬ (oldest ≤ t ≤ newest)) →
  sort_data_for_rra data sub data_csv data_rra time_csv time_rra = Ret data_rra.
Proof.
  intros Hty Hsub Hrra Htcsv Htrra Hint Hfo Hold Hnew Hout.
  rewrite (sort_data_unfold _ _ _ _ _ _ _ _ Hty Hsub Hrra Htrra Hint oldest newest)
    by done.
  match goal with |- for_each _ ?body _ = _ =>
    destruct (for_each_seqZ (λ _ tmp, tmp = data_rra) body (n_samples s) 0 data_rra)
      as (out & -> & ->); [lia|done| |done]
  end.
  intros i tmp Hi ->. exists data_rra. split; [|done].
  rewrite (rd_at _ time_csv i) by lia. cbn [mbind outcome_bind].
  destruct (Z.geb_spec (at_ time_csv i) oldest);
    [destruct (Z.leb_spec (at_ time_csv i) newest)|]; [|done..].
  exfalso. apply (Hout (at_ time_csv i)); [|lia].
  apply list_elem_of_lookup. exists (Z.to_nat i). apply lookup_at. lia.
Qed.

Lemma merge_nothing_in_window_witness :
  sort_data_for_rra (one_buffer "integer" 300 400 1 4) 0
    [91; 92; 93; 94] [10; 11; 12; 13] [500; 600; 700; 800] [300; 400; 100; 200]
  = Ret [10; 11; 12; 13].
Proof.
  apply (merge_nothing_in_window _ 0
           (mk_dat_sub_s 0 0 0 0 0 300 400 0 0 (Some []) 1 4 0 0 (Some []) 0 (Some []) None)
           true _ _ _ _ 100 400); try reflexivity; try (cbn; lia).
  intros t Ht [H1 H2].
  repeat (apply elem_of_cons in Ht as [->|Ht]; [lia|]).
  by apply elem_of_nil in Ht.
Defined.

(** The search called with [h = length arr]: on an increasing array a key
    above every element sends it to the right until it reads the slot past
    the array. *)
Lemma search_rec_above_reads_past arr key fuel : ∀ l,
  inc (at_ arr) 0 (Z.of_nat (length arr) - 1) →
  (∀ i, 0 ≤ i < Z.of_nat (length arr) → at_ arr i < key) →
  Z.of_nat (length arr) < 2 ^ 30 →
  0 ≤ l ≤ Z.of_nat (length arr) →
  (Z.to_nat (Z.of_nat (length arr) - l) < fuel)%nat →
  search_rec fuel arr l (Z.of_nat (length arr)) key
  = Fault (OutOfBounds "arr" (Z.of_nat (length arr))).
Proof.
  induction fuel as [|fuel IH]; intros l Hinc Habove Hlen Hl Hfuel; [lia|].
  cbn [search_rec]. set (n := Z.of_nat (length arr)) in *.
  destruct (Z.gtb_spec l n); [lia|].
  destruct (mid_between l n) as [-> Hmid]; [lia..|].
  set (mid := (l + n) / 2) in *.
  destruct (Z.eq_dec l n) as [->|Hne].
  { assert (mid = n) as -> by lia. by rewrite rd_oob by lia. }
  assert (mid < n).
  { apply Z.div_lt_upper_bound; lia. }
  rewrite (rd_at _ arr mid) by lia. cbn [mbind outcome_bind].
  pose proof (Habove mid ltac:(lia)). pose proof (Habove l ltac:(lia)).
  destruct (Z.eqb_spec (at_ arr mid) key); [lia|].
  rewrite (rd_at _ arr l) by lia. cbn [mbind outcome_bind].
  pose proof (inc_le _ _ _ l mid Hinc ltac:(lia) ltac:(lia) ltac:(lia)).
  destruct (Z.leb_spec (at_ arr l) (at_ arr mid)); [|lia].
  destruct (Z.geb_spec key (at_ arr l)); [|lia].
  destruct (Z.leb_spec key (at_ arr mid)); [lia|]. cbn [andb].
  rewrite (add32_id mid 1) by lia. apply IH; [done..|lia|lia].
Qed.

Lemma search_above_reads_past arr key :
  inc (at_ arr) 0 (Z.of_nat (length arr) - 1) →
  (∀ i, 0 ≤ i < Z.of_nat (length arr) → at_ arr i < key) →
  Z.of_nat (length arr) < 2 ^ 30 →
  search arr 0 (Z.of_nat (length arr)) key
  = Fault (OutOfBounds "arr" (Z.of_nat (length arr))).
Proof.
  intros. apply search_rec_above_reads_past; [done..|lia|lia].
Qed.


(** C10.  The call [search(time_csv, 0, n_samples, key)] of the merge reads
    [arr[n_samples]], one slot past the import timestamp array: with four
    slots, the import row [(200, 99)] and the destination timeline
    [[300,400,100,200]], the search for 300 reads [arr[4]]. *)
Theorem search_reads_past_the_array :
  search [200; 0; 0; 0] 0 4 300 = Fault (OutOfBounds "arr" 4) ∧
  sort_data_for_rra (one_buffer "integer" 300 400 1 4) 0
    [99; 0; 0; 0] [10; 11; 12; 13] [200; 0; 0; 0] [300; 400; 100; 200]
  = Fault (OutOfBounds "arr" 4).
Proof. split; reflexivity. Qed.

(** The example of the specification, with [file_offset] at the last slot:
    the merge reads [time_rra[file_offset+1]], past the timeline. *)
Example merge_example_reads_past_timeline :
  sort_data_for_rra (one_buffer "integer" 300 400 3 4) 0
    [99; 0; 0; 0] [10; 11; 12; 13] [200; 0; 0; 0] [100; 200; 300; 400]
  = Fault (OutOfBounds "time_rra" 4).
Proof. reflexivity. Qed.

(** * Reading integers and buffers *)

Lemma wrap32_mod z : wrap32 (z mod 2 ^ 32) = wrap32 z.
Proof. unfold wrap32. by rewrite Z.add_mod_idemp_l. Qed.

Lemma length_enc_int z : length (enc_int z) = 4%nat.
Proof. apply length_le_split. Qed.

Lemma length_enc_double z : length (enc_double z) = 8%nat.
Proof. apply length_le_split. Qed.

Lemma fread_int_enc z fp :
  - 2 ^ 31 ≤ z < 2 ^ 31 → fread_int (enc_int z ++ fp) = (z, 1, fp).
Proof.
  intros Hz. unfold fread_int.
  rewrite (take_app_length' (enc_int z)), (drop_app_length' (enc_int z))
    by (by rewrite length_enc_int).
  rewrite length_app, length_enc_int. cbn [Nat.leb Nat.add].
  unfold enc_int. rewrite le_combine_split.
  change (Z.of_nat 4 * 8) with 32. by rewrite wrap32_mod, wrap32_id.
Qed.

Lemma fread_double_enc z fp :
  0 ≤ z < 2 ^ 64 → fread_double (enc_double z ++ fp) = (z, 1, fp).
Proof.
  intros Hz. unfold fread_double.
  rewrite (take_app_length' (enc_double z)), (drop_app_length' (enc_double z))
    by (by rewrite length_enc_double).
  rewrite length_app, length_enc_double. cbn [Nat.leb Nat.add].
  unfold enc_double. rewrite le_combine_split.
  change (Z.of_nat 8 * 8) with 64. by rewrite Z.mod_small.
Qed.

(** * The archive-native load *)

Lemma rra_elem_spec integer (rra : list Z) fp (i : nat) :
  (i < length rra)%nat →
  rra_elem integer (Z.of_nat i) (rra, drop (i * (if integer then 4 else 8)) fp)
  = Ret (<[i := elem_at integer fp i]> rra,
         drop (S i * (if integer then 4 else 8)) fp).
Proof.
  intros Hi. unfold rra_elem, elem_at, fread_int, fread_double.
  destruct integer; rewrite wr_Ret by lia; cbn [mbind outcome_bind];
    rewrite drop_drop, Nat2Z.id; do 3 f_equal; lia.
Qed.

Lemma rra_loop integer fp n :
  0 ≤ n →
  ∃ out rest,
    for_each (seqZ 0 n) (rra_elem integer) (calloc 0 n, fp) = Ret (out, rest) ∧
    length out = Z.to_nat n ∧
    ∀ j, (j < Z.to_nat n)%nat → out !! j = Some (elem_at integer fp j).
Proof.
  intros Hn.
  destruct (for_each_seqZ
    (λ i (st : list Z * list byte),
       st.2 = drop (Z.to_nat i * (if integer then 4 else 8)) fp ∧
       length st.1 = Z.to_nat n ∧
       ∀ j, (j < Z.to_nat i)%nat → st.1 !! j = Some (elem_at integer fp j))
    (rra_elem integer) n 0 (calloc 0 n, fp)) as ([out rest] & -> & _ & Hlen & Hout).
  - done.
  - cbn. split; [done|]. split; [apply length_replicate|]. intros j Hj. lia.
  - intros i [rra fpi] Hi (Hfp & Hlen & Hpre). cbn in Hfp, Hlen, Hpre. subst fpi.
    replace (rra_elem integer i) with (rra_elem integer (Z.of_nat (Z.to_nat i)))
      by (f_equal; lia).
    rewrite rra_elem_spec by lia. eexists. split; [done|]. cbn [fst snd].
    split; [f_equal; lia|]. split; [by rewrite length_insert|].
    intros j Hj. destruct (decide (j = Z.to_nat i)) as [->|Hne].
    + by rewrite list_lookup_insert_eq by lia.
    + rewrite list_lookup_insert_ne by done. apply Hpre. lia.
  - exists out, rest. split; [done|]. split; [done|].
    intros j Hj. apply Hout. lia.
Qed.

(** The elements of a file that holds the encodings of [xs]. *)
Lemma elem_at_enc integer xs rest (j : nat) x :
  Forall (elem_range integer) xs → xs !! j = Some x →
  elem_at integer (concat (map (enc_elem integer) xs) ++ rest) j = x.
Proof.
  revert j. induction xs as [|y xs IH]; intros j Hr Hj; [done|].
  apply Forall_cons in Hr as [Hy Hr]. cbn [map concat]. rewrite <- app_assoc.
  destruct j as [|j].
  - injection Hj as ->. unfold elem_at, enc_elem, elem_range in *. cbn [Nat.mul drop].
    destruct integer.
    + pose proof (fread_int_enc x (concat (map enc_int xs) ++ rest) Hy) as E.
      unfold fread_int in E. by injection E.
    + pose proof (fread_double_enc x (concat (map enc_double xs) ++ rest) Hy) as E.
      unfold fread_double in E. by injection E.
  - cbn in Hj. rewrite <- (IH j Hr Hj). unfold elem_at, enc_elem.
    destruct integer.
    + replace (S j * 4)%nat with (length (enc_int y) + j * 4)%nat
        by (rewrite length_enc_int; lia).
      by rewrite <- drop_drop, drop_app_length.
    + replace (S j * 8)%nat with (length (enc_double y) + j * 8)%nat
        by (rewrite length_enc_double; lia).
      by rewrite <- drop_drop, drop_app_length.
Qed.

(** C8, as amended.  [read_rra_file] fails, with a diagnostic and no array,
    when the payload file cannot be opened.  For a file that is present it
    returns [n_samples] elements in slot order, element [j] being read from
    the bytes of the file at [j] times the element size, with the bytes the
    file lacks left zero: a file that holds at least [n_samples] elements
    gives exactly its first [n_samples] elements, and a shorter file gives
    an array all the same, not a failure. *)
Theorem read_rra_file_load (path : string) (data : dat_s) (sub : Z)
    (s : dat_sub_s) (integer : bool) :
  is_integer data = Ret integer →
  subset_at data sub = Ret s →
  0 ≤ n_samples s →
  read_rra_file None path data sub
    = Ret (None, ["read_rra_file: Cannot open file " +:+ path +:+ " for reading"]) ∧
  ∀ fp, ∃ out,
    read_rra_file (Some fp) path data sub = Ret (Some out, []) ∧
    length out = Z.to_nat (n_samples s) ∧
    (∀ j, (j < Z.to_nat (n_samples s))%nat → out !! j = Some (elem_at integer fp j)) ∧
    (∀ xs rest, fp = concat (map (enc_elem integer) xs) ++ rest →
                Forall (elem_range integer) xs →
                (Z.to_nat (n_samples s) ≤ length xs)%nat →
                out = take (Z.to_nat (n_samples s)) xs).
Proof.
  intros Hty Hsub Hn. split; [done|]. intros fp. unfold read_rra_file.
  rewrite Hty, Hsub. cbn [mbind outcome_bind].
  destruct (rra_loop integer fp (n_samples s) Hn) as (out & rest & -> & Hlen & Hout).
  cbn [mbind outcome_bind fst]. destruct (Z.ltb_spec (n_samples s) 0); [lia|].
  exists out. split; [done|]. split; [done|].
  split; [done|]. intros xs rest' -> Hr Hxs.
  apply list_eq. intros j. destruct (decide (j < Z.to_nat (n_samples s))%nat).
  - rewrite Hout, lookup_take_lt by done.
    destruct (lookup_lt_is_Some_2 xs j) as [x Hx]; [lia|].
    rewrite Hx. f_equal. by apply elem_at_enc.
  - rewrite lookup_take_ge by lia. apply lookup_ge_None_2. lia.
Qed.

Lemma read_rra_file_load_witness :
  read_rra_file None "x.rra" (one_buffer "integer" 300 400 1 4) 0
    = Ret (None, ["read_rra_file: Cannot open file x.rra for reading"]) ∧
  ∃ out,
    read_rra_file (Some (enc_int 7 ++ enc_int (-2))) "x.rra"
      (one_buffer "integer" 300 400 1 4) 0 = Ret (Some out, []) ∧
    out = [7; -2; 0; 0].
Proof.
  destruct (read_rra_file_load "x.rra" (one_buffer "integer" 300 400 1 4) 0
    (mk_dat_sub_s 0 0 0 0 0 300 400 0 0 (Some []) 1 4 0 0 (Some []) 0 (Some []) None)
    true eq_refl eq_refl ltac:(cbn; lia)) as [Habsent Hpresent].
  split; [exact Habsent|].
  destruct (Hpresent (enc_int 7 ++ enc_int (-2))) as (out & Hread & Hlen & Hout & _).
  exists out. split; [exact Hread|].
  apply list_eq. intros j. destruct (decide (j < 4)%nat) as [Hj|Hj].
  - rewrite (Hout j Hj).
    destruct j as [|[|[|[|j]]]]; [reflexivity..|cbn in Hj; lia].
  - rewrite !lookup_ge_None_2; [done|cbn; lia|cbn in Hlen; lia].
Defined.

(** C8, as stated, fails: a payload file of one element, read for a
    Buffer of four, gives the array [[7,0,0,0]] and no failure. *)
Lemma short_file_does_not_fail : ¬ short_file_fails.
Proof.
  intros H.
  destruct (H (enc_int 7) "x.rra" (one_buffer "integer" 300 400 1 4) 0
    (mk_dat_sub_s 0 0 0 0 0 300 400 0 0 (Some []) 1 4 0 0 (Some []) 0 (Some []) None)
    eq_refl eq_refl ltac:(vm_compute; reflexivity)) as [stdout E].
  discriminate E.
Qed.

(** * The import load *)

(** Writing the next kept value behind those written so far. *)
Lemma wr_next a (pre : list Z) (m : nat) x :
  wr a (pre ++ replicate (S m) 0) (Z.of_nat (length pre)) x
  = Ret ((pre ++ [x]) ++ replicate m 0).
Proof.
  rewrite wr_Ret by (rewrite length_app, length_replicate; lia).
  f_equal. rewrite Nat2Z.id, <- app_assoc.
  replace (length pre) with (length pre + 0)%nat at 1 by lia.
  by rewrite insert_app_r.
Qed.

Lemma csv_time_line_row max_time t v time_csv j time_tmp :
  csv_time_line max_time (mk_csv_line (Some t) v) (time_csv, j, time_tmp)
  = if t <=? max_time
    then time_csv ← wr "time_csv" time_csv j t; Ret (time_csv, add32 j 1, Some t)
    else Ret (time_csv, j, Some t).
Proof. reflexivity. Qed.

Lemma csv_data_line_row t_max t v csv j t0 tmp :
  csv_data_line t_max (mk_csv_line (Some t) (Some v)) (csv, j, t0, tmp)
  = if t <=? t_max
    then csv ← wr "csv" csv j v; Ret (csv, add32 j 1, Some t, Some v)
    else Ret (csv, j, Some t, Some v).
Proof. unfold csv_data_line. cbn. by destruct (t <=? t_max). Qed.

Lemma csv_time_loop max_time (n : nat) : ∀ rows pre t0,
  (length pre + length (kept max_time rows) ≤ n)%nat →
  Z.of_nat n < 2 ^ 31 →
  ∃ t1,
    for_each (lines_of rows) (csv_time_line max_time)
      (pre ++ replicate (n - length pre) 0, Z.of_nat (length pre), t0)
    = Ret ((pre ++ (kept max_time rows).*1)
             ++ replicate (n - length pre - length (kept max_time rows)) 0,
           Z.of_nat (length pre + length (kept max_time rows)), t1).
Proof.
  induction rows as [|[t v] rows IH]; intros pre t0 Hcap Hn.
  { exists t0. cbn [lines_of map for_each kept filter list_filter fmap list_fmap length].
    by rewrite app_nil_r, Nat.sub_0_r, Nat.add_0_r. }
  cbn [lines_of map for_each fst snd]. rewrite csv_time_line_row.
  unfold kept in *. destruct (decide (t ≤ max_time)) as [Hle|Hgt].
  - rewrite filter_cons_True in * by done. cbn [length fmap list_fmap fst] in *.
    destruct (Z.leb_spec t max_time); [|lia].
    replace (n - length pre)%nat with (S (n - length pre - 1)) by lia.
    rewrite wr_next. cbn [mbind outcome_bind].
    rewrite add32_id by lia.
    destruct (IH (pre ++ [t]) (Some t)) as [t1 E];
      [rewrite length_app; cbn; lia|done|].
    rewrite length_app in E. cbn [length] in E.
    replace (Z.of_nat (length pre) + 1) with (Z.of_nat (length pre + 1)) by lia.
    replace (n - length pre - 1)%nat with (n - (length pre + 1))%nat by lia.
    unfold lines_of in E. rewrite E. exists t1.
    rewrite <- !app_assoc. cbn [app].
    set (ks := filter (λ r : Z * Z, r.1 ≤ max_time) rows) in *.
    replace (n - length pre - S (length ks))%nat
      with (n - (length pre + 1) - length ks)%nat by lia.
    by replace (length pre + S (length ks))%nat
      with (length pre + 1 + length ks)%nat by lia.
  - rewrite filter_cons_False in * by done.
    destruct (Z.leb_spec t max_time); [lia|].
    apply IH; done.
Qed.

Lemma csv_data_loop t_max (n : nat) : ∀ rows pre t0 v0,
  (length pre + length (kept t_max rows) ≤ n)%nat →
  Z.of_nat n < 2 ^ 31 →
  ∃ t1 v1,
    for_each (lines_of rows) (csv_data_line t_max)
      (pre ++ replicate (n - length pre) 0, Z.of_nat (length pre), t0, v0)
    = Ret ((pre ++ (kept t_max rows).*2)
             ++ replicate (n - length pre - length (kept t_max rows)) 0,
           Z.of_nat (length pre + length (kept t_max rows)), t1, v1).
Proof.
  induction rows as [|[t v] rows IH]; intros pre t0 v0 Hcap Hn.
  { exists t0, v0.
    cbn [lines_of map for_each kept filter list_filter fmap list_fmap length].
    by rewrite app_nil_r, Nat.sub_0_r, Nat.add_0_r. }
  cbn [lines_of map for_each fst snd]. rewrite csv_data_line_row.
  unfold kept in *. destruct (decide (t ≤ t_max)) as [Hle|Hgt].
  - rewrite filter_cons_True in * by done. cbn [length fmap list_fmap snd] in *.
    destruct (Z.leb_spec t t_max); [|lia].
    replace (n - length pre)%nat with (S (n - length pre - 1)) by lia.
    rewrite wr_next. cbn [mbind outcome_bind].
    rewrite add32_id by lia.
    destruct (IH (pre ++ [v]) (Some t) (Some v)) as (t1 & v1 & E);
      [rewrite length_app; cbn; lia|done|].
    rewrite length_app in E. cbn [length] in E.
    replace (Z.of_nat (length pre) + 1) with (Z.of_nat (length pre + 1)) by lia.
    replace (n - length pre - 1)%nat with (n - (length pre + 1))%nat by lia.
    unfold lines_of in E. rewrite E. exists t1, v1.
    rewrite <- !app_assoc. cbn [app].
    set (ks := filter (λ r : Z * Z, r.1 ≤ t_max) rows) in *.
    replace (n - length pre - S (length ks))%nat
      with (n - (length pre + 1) - length ks)%nat by lia.
    by replace (length pre + S (length ks))%nat
      with (length pre + 1 + length ks)%nat by lia.
  - rewrite filter_cons_False in * by done.
    destruct (Z.leb_spec t t_max); [lia|]. cbn [mbind outcome_bind].
    apply IH; done.
Qed.

(** C9, as amended.  For an import file whose rows all convert and of which
    at most [n_samples] have a timestamp [<= cutoff], the import load writes
    exactly those rows, in file order and unsorted, to the leading slots of
    its [n_samples]-slot arrays (the timestamps by [read_csv_time], the
    values by [read_csv_data]) and leaves the other slots zero. *)
Theorem import_load (rows : list (Z * Z)) (cutoff : Z) (path : string)
    (data : dat_s) (sub : Z) (s : dat_sub_s) (integer : bool) :
  is_integer data = Ret integer →
  subset_at data sub = Ret s →
  n_samples s < 2 ^ 31 →
  Z.of_nat (length (kept cutoff rows)) ≤ n_samples s →
  read_csv_time (Some (lines_of rows)) path data sub cutoff
    = Ret (Some ((kept cutoff rows).*1
                   ++ replicate (Z.to_nat (n_samples s) - length (kept cutoff rows)) 0),
           []) ∧
  read_csv_data (Some (lines_of rows)) path data sub cutoff
    = Ret (Some ((kept cutoff rows).*2
                   ++ replicate (Z.to_nat (n_samples s) - length (kept cutoff rows)) 0),
           []).
Proof.
  intros Hty Hsub Hint Hcap. unfold read_csv_time, read_csv_data.
  rewrite Hty, Hsub. cbn [mbind outcome_bind]. unfold calloc.
  destruct (Z.ltb_spec (n_samples s) 0); [lia|]. split.
  - destruct (csv_time_loop cutoff (Z.to_nat (n_samples s)) rows [] None) as [t1 E];
      [cbn; lia..|].
    cbn [app length Nat.add] in E. rewrite Nat.sub_0_r in E.
    change (Z.of_nat 0) with 0 in E. rewrite E. done.
  - destruct (csv_data_loop cutoff (Z.to_nat (n_samples s)) rows [] None None)
      as (t1 & v1 & E); [cbn; lia..|].
    cbn [app length Nat.add] in E. rewrite Nat.sub_0_r in E.
    change (Z.of_nat 0) with 0 in E. rewrite E. done.
Qed.

Lemma import_load_witness :
  read_csv_time (Some (lines_of [(100, 1); (200, 2); (300, 3)])) "x.csv"
    (one_buffer "integer" 300 400 1 4) 0 250 = Ret (Some [100; 200; 0; 0], []) ∧
  read_csv_data (Some (lines_of [(100, 1); (200, 2); (300, 3)])) "x.csv"
    (one_buffer "integer" 300 400 1 4) 0 250 = Ret (Some [1; 2; 0; 0], []).
Proof.
  apply (import_load [(100, 1); (200, 2); (300, 3)] 250 "x.csv"
    (one_buffer "integer" 300 400 1 4) 0
    (mk_dat_sub_s 0 0 0 0 0 300 400 0 0 (Some []) 1 4 0 0 (Some []) 0 (Some []) None)
    true eq_refl eq_refl); vm_compute; first [reflexivity | discriminate].
Defined.

(** C9, as stated, fails: three rows under a cutoff that keeps them all,
    loaded for a Buffer of two slots, make the load write [time_csv[2]],
    past its array. *)
Lemma import_as_claimed_fails : ¬ import_as_claimed.
Proof.
  intros H.
  destruct (H [(100, 1); (200, 2); (300, 3)] 1000 "x.csv"
    (one_buffer "integer" 300 400 1 2) 0
    (mk_dat_sub_s 0 0 0 0 0 300 400 0 0 (Some []) 1 2 0 0 (Some []) 0 (Some []) None)
    eq_refl) as (time_csv & E & _).
  discriminate E.
Qed.

(** * The metadata decoder *)

Lemma wrap32_add_l a b : wrap32 (wrap32 a + b) = wrap32 (a + b).
Proof.
  unfold wrap32.
  replace ((a + 2 ^ 31) mod 2 ^ 32 - 2 ^ 31 + b + 2 ^ 31)
    with ((a + 2 ^ 31) mod 2 ^ 32 + b) by lia.
  rewrite Z.add_mod_idemp_l by lia. do 2 f_equal. lia.
Qed.

Lemma fread_str p (s rest : list byte) :
  fread_buf p (calloc_buf (Z.of_nat (length s))) (Z.of_nat (length s)) (s ++ rest)
  = Ret (Some s, Z.of_nat (length s), rest).
Proof.
  unfold fread_buf, calloc_buf, calloc.
  destruct (Z.ltb_spec (Z.of_nat (length s)) 0) as [?|_]; [lia|].
  rewrite Nat2Z.id, take_app_length, drop_app_length.
  destruct s as [|x s]; [done|].
  rewrite drop_ge by (by rewrite length_replicate). by rewrite app_nil_r.
Qed.

Lemma fread_len_str (s rest : list byte) :
  str_ok s →
  fread_int (enc_str s ++ rest) = (Z.of_nat (length s), 1, s ++ rest).
Proof.
  intros Hs. unfold enc_str, str_ok in *. rewrite <- app_assoc.
  apply fread_int_enc. lia.
Qed.

Ltac wrap_small :=
  unfold add32, sub32;
  repeat match goal with
         | |- context [wrap32 ?x] => rewrite (wrap32_id x) by lia
         end.

(** A complete record is read back as it was laid out, and counted in full. *)
Lemma read_subset_enc integer b rest :
  wf_buffer b →
  read_subset integer (enc_buffer integer b ++ rest)
  = Ret (sub_of integer b None,
         9 + Z.of_nat (length (b_binLength b)) + Z.of_nat (length (b_interval b))
           + Z.of_nat (length (b_consolidator b)),
         rest).
Proof.
  intros [].  unfold int_range, str_ok in *.
  unfold read_subset, enc_buffer, sub_of.
  destruct integer; rewrite <- ?app_assoc.
  - rewrite !fread_int_enc by done.
    rewrite fread_len_str by done.
    cbn [Z.eqb]. rewrite fread_str. cbn [mbind outcome_bind].
    rewrite !fread_int_enc by done.
    rewrite fread_len_str by done.
    cbn [Z.eqb]. rewrite fread_str. cbn [mbind outcome_bind].
    rewrite fread_len_str by done.
    cbn [Z.eqb]. rewrite fread_str. cbn [mbind outcome_bind].
    wrap_small. do 3 f_equal. lia.
  - rewrite !fread_double_enc by done.
    rewrite !fread_int_enc by done.
    rewrite fread_len_str by done.
    cbn [Z.eqb]. rewrite fread_str. cbn [mbind outcome_bind].
    rewrite !fread_int_enc by done.
    rewrite fread_len_str by done.
    cbn [Z.eqb]. rewrite fread_str. cbn [mbind outcome_bind].
    rewrite fread_len_str by done.
    cbn [Z.eqb]. rewrite fread_str. cbn [mbind outcome_bind].
    wrap_small. do 3 f_equal. lia.
Qed.

(** A record starts with an integer or a real: it is not empty. *)
Lemma enc_buffer_cons integer b rest :
  ∃ x fp, enc_buffer integer b ++ rest = x :: fp.
Proof.
  unfold enc_buffer, enc_int, enc_double.
  destruct integer; cbn [le_split app]; eauto.
Qed.

(** One pass of the decode loop over a complete record: the record is stored
    in [subset[j]], after the record before it has been linked to it. *)
Lemma read_subsets_step fuel j data uuid st b rest stdout :
  deviceUuid data = Some uuid →
  streq uuid "placeholder" = false →
  sampleType data = Some st →
  wf_buffer b →
  0 ≤ j < Z.of_nat (length (subset data)) →
  Z.of_nat (length (subset data)) < 2 ^ 31 →
  (if j >? 0 then is_Some (mjoin (subset data !! Z.to_nat (j - 1))) else True) →
  let arr :=
    <[Z.to_nat j := Some (sub_of (streq st "integer") b None)]>
      (if j >? 0
       then alter (fmap (λ s, set_next s (Some j))) (Z.to_nat (j - 1)) (subset data)
       else subset data) in
  read_subsets (S fuel) j data (enc_buffer (streq st "integer") b ++ rest) stdout
  = match rest with
    | _ :: _ => read_subsets fuel (j + 1) (set_subsets data (j + 1) arr) rest stdout
    | [] => Ret (set_subsets data (j + 1) arr, stdout)
    end.
Proof.
  intros Huuid Hph Hst Hb Hj Hlen Hprev arr. pose proof Hb as [].
  unfold str_ok in *. cbn [read_subsets].
  rewrite Huuid, Hst. cbn [deref mbind outcome_bind]. rewrite Hph. cbn [negb].
  rewrite wr_Ret by lia. cbn [mbind outcome_bind].
  rewrite (sub32_id j 1), (add32_id j 1) by lia.
  assert (Hlink : (if j >? 0
                   then link (<[Z.to_nat j:=Some zero_sub]> (subset data)) (j - 1) (Some j)
                   else Ret (<[Z.to_nat j:=Some zero_sub]> (subset data)))
                  = Ret (<[Z.to_nat j:=Some zero_sub]>
                           (if j >? 0
                            then alter (fmap (λ s, set_next s (Some j)))
                                   (Z.to_nat (j - 1)) (subset data)
                            else subset data))).
  { destruct (Z.gtb_spec j 0) as [Hpos|_]; [|done].
    destruct Hprev as [prev Hprev].
    destruct (subset data !! Z.to_nat (j - 1)) as [[p|]|] eqn:E; try done.
    cbn in Hprev. injection Hprev as ->.
    unfold link.
    rewrite (rd_lookup _ _ _ (Some prev))
      by (lia || (rewrite list_lookup_insert_ne by lia; done)).
    cbn [mbind outcome_bind deref].
    rewrite wr_Ret by (rewrite length_insert; lia). f_equal.
    apply list_eq. intros k.
    destruct (decide (k = Z.to_nat (j - 1))) as [->|Hk1].
    - rewrite list_lookup_insert_eq by (rewrite length_insert; lia).
      rewrite list_lookup_insert_ne by lia.
      rewrite list_lookup_alter_eq. by rewrite E.
    - rewrite list_lookup_insert_ne by done.
      destruct (decide (k = Z.to_nat j)) as [->|Hk2].
      + rewrite !list_lookup_insert_eq; [done|rewrite ?length_alter; lia..].
      + rewrite !list_lookup_insert_ne by done.
        by rewrite list_lookup_alter_ne. }
  rewrite Hlink. cbn [mbind outcome_bind].
  rewrite read_subset_enc by done. cbn [mbind outcome_bind].
  rewrite wr_Ret
    by (rewrite length_insert; destruct (j >? 0); rewrite ?length_alter; lia).
  cbn [mbind outcome_bind sub_of cons_len int_len binL_len].
  rewrite list_insert_insert_eq.
  match goal with |- context [?c <? ?d] => destruct (Z.ltb_spec c d) as [Hlt|_] end.
  { revert Hlt. wrap_small. lia. }
  done.
Qed.

Lemma match_nonempty {A B} (l : list A) (a b : B) :
  l ≠ [] → match l with _ :: _ => a | [] => b end = a.
Proof. by destruct l. Qed.

Ltac step_record :=
  erewrite read_subsets_step;
    [cbv zeta
    |reflexivity
    |eassumption
    |reflexivity
    |eassumption
    |vm_compute; split; [discriminate|reflexivity]
    |reflexivity
    |first [exact I | eexists; reflexivity]].

Lemma enc_buffer_nonempty integer b rest : enc_buffer integer b ++ rest ≠ [].
Proof. by destruct (enc_buffer_cons integer b rest) as (x & fp & ->). Qed.

(** The header of a metadata file: the magic token and the four strings. *)
Lemma read_dat_file_header d fp :
  wf_device d →
  read_dat_file (Some (enc_header d ++ fp))
  = read_subsets 5 0 (dat_of d []) fp [].
Proof.
  intros []. unfold read_dat_file, enc_header. cbn [deref mbind outcome_bind].
  rewrite <- !app_assoc.
  rewrite (take_app_length' (bytes_of MAGIC)), (drop_app_length' (bytes_of MAGIC))
    by reflexivity.
  change (streq (bytes_of MAGIC ++ replicate (17 - length (bytes_of MAGIC)) Byte.x00) MAGIC)
    with true. cbv iota.
  rewrite fread_len_str by done. rewrite fread_str. cbn [mbind outcome_bind].
  rewrite fread_len_str by done. rewrite fread_str. cbn [mbind outcome_bind].
  rewrite fread_len_str by done. rewrite fread_str. cbn [mbind outcome_bind].
  rewrite fread_len_str by done. rewrite fread_str. cbn [mbind outcome_bind].
  reflexivity.
Qed.

(** C6.  A metadata file built from a Device and one to four Buffers (the
    magic token, the four length-prefixed strings and the records, laid out
    for the Device's sample type) decodes to exactly the values encoded:
    the strings of the Device, the number of Buffers, and for every Buffer
    its timestamps, samples per bin, [binLength], [file_offset],
    [n_samples], [interval] and [consolidator], with the reserved integers
    of an [integer] Device or the two reals of any other; nothing is
    printed.  A file of a placeholder Device without records decodes to the
    Device with no Buffer. *)
Theorem read_dat_file_roundtrip (d : device) (bs : list buffer) :
  wf_device d →
  Forall wf_buffer bs →
  (cstr (d_uuid d) ≠ bytes_of "placeholder" ∧ (1 ≤ length bs ≤ 4)%nat) ∨
  (cstr (d_uuid d) = bytes_of "placeholder" ∧ bs = []) →
  read_dat_file (Some (enc_dat d bs)) = Ret (dat_of d bs, []) ∧
  n_sets (dat_of d bs) = Z.of_nat (length bs) ∧
  ∀ (j : nat) b, bs !! j = Some b →
    ∃ nx, subset_at (dat_of d bs) (Z.of_nat j)
          = Ret (sub_of (streq (d_sampleType d) "integer") b nx).
Proof.
  intros Hd Hbs Hcase. split; [|split; [done|]].
  - unfold enc_dat. rewrite read_dat_file_header by done.
    destruct Hcase as [[Hph Hlen]|[Hph ->]].
    + assert (Hne : streq (d_uuid d) "placeholder" = false)
        by (unfold streq; by rewrite bool_decide_eq_false).
      destruct bs as [|b1 [|b2 [|b3 [|b4 [|b5 bs]]]]]; cbn in Hlen; try lia;
        repeat match goal with
               | H : Forall _ (_ :: _) |- _ => apply Forall_cons in H as [? H]
               end;
        cbn [map concat].
      * step_record. reflexivity.
      * step_record.
        rewrite match_nonempty by apply enc_buffer_nonempty.
        step_record. reflexivity.
      * step_record.
        rewrite match_nonempty by apply enc_buffer_nonempty.
        step_record.
        rewrite match_nonempty by apply enc_buffer_nonempty.
        step_record. reflexivity.
      * step_record.
        rewrite match_nonempty by apply enc_buffer_nonempty.
        step_record.
        rewrite match_nonempty by apply enc_buffer_nonempty.
        step_record.
        rewrite match_nonempty by apply enc_buffer_nonempty.
        step_record. reflexivity.
    + cbn [map concat read_subsets Z.to_nat N_SUBSETS Pos.to_nat Pos.iter_op Nat.add
           dat_of deviceUuid deref mbind outcome_bind].
      unfold streq. rewrite bool_decide_eq_true_2 by done. reflexivity.
  - intros j b Hj.
    destruct Hcase as [[_ Hlen]|[_ ->]]; [|done].
    unfold subset_at, dat_of. cbn [subset].
    destruct bs as [|b1 [|b2 [|b3 [|b4 [|b5 bs]]]]]; cbn in Hlen; try lia;
      destruct j as [|[|[|[|j]]]]; try done;
      injection Hj as <-; eexists; reflexivity.
Qed.

Lemma read_dat_file_roundtrip_witness :
  read_dat_file (Some (enc_dat device_1 [buffer_1; buffer_1]))
    = Ret (dat_of device_1 [buffer_1; buffer_1], []) ∧
  n_sets (dat_of device_1 [buffer_1; buffer_1]) = 2 ∧
  ∀ (j : nat) b, [buffer_1; buffer_1] !! j = Some b →
    ∃ nx, subset_at (dat_of device_1 [buffer_1; buffer_1]) (Z.of_nat j)
          = Ret (sub_of (streq (d_sampleType device_1) "integer") b nx).
Proof.
  assert (Hb : wf_buffer buffer_1)
    by (split; vm_compute; first [reflexivity | split; [discriminate|reflexivity]]).
  apply (read_dat_file_roundtrip device_1 [buffer_1; buffer_1]).
  - split; vm_compute; reflexivity.
  - repeat apply Forall_cons_2; [exact Hb..|apply Forall_nil_2].
  - left. split; [vm_compute; discriminate|cbn; lia].
Defined.

(** A file of a Device of reals, with two Buffers. *)
Example read_dat_file_roundtrip_real :
  read_dat_file (Some (enc_dat device_2 [buffer_2; buffer_2]))
  = Ret (dat_of device_2 [buffer_2; buffer_2], []).
Proof. vm_compute. reflexivity. Qed.

(** * A truncated record *)

Lemma fread_int_nil : fread_int [] = (0, 0, []).
Proof. reflexivity. Qed.

Lemma fread_double_nil : fread_double [] = (0, 0, []).
Proof. reflexivity. Qed.

Lemma fread_buf_nil p buf len : fread_buf p buf len [] = Ret (buf, 0, []).
Proof. unfold fread_buf. by rewrite take_nil. Qed.

Lemma fread_int_take_full z rest (k : nat) :
  int_range z → (4 ≤ k)%nat →
  fread_int (take k (enc_int z ++ rest)) = (z, 1, take (k - 4) rest).
Proof.
  intros Hz Hk. rewrite take_app_ge by (rewrite length_enc_int; lia).
  rewrite length_enc_int. by apply fread_int_enc.
Qed.

Lemma fread_int_take_part z rest (k : nat) :
  (k < 4)%nat →
  ∃ v, fread_int (take k (enc_int z ++ rest)) = (v, 0, []) ∧ 0 ≤ v < 2 ^ 24.
Proof.
  intros Hk. rewrite take_app_le by (rewrite length_enc_int; lia).
  unfold fread_int. rewrite take_take, Nat.min_r by lia.
  rewrite length_take, length_enc_int.
  rewrite drop_ge by (rewrite length_take, length_enc_int; lia).
  destruct (Nat.leb_spec 4 (k `min` 4)); [lia|].
  pose proof (le_combine_bound (take k (enc_int z))) as Hb.
  rewrite length_take, length_enc_int in Hb.
  assert (2 ^ (8 * Z.of_nat (k `min` 4)) ≤ 2 ^ 24)
    by (apply Z.pow_le_mono_r; lia).
  eexists. split; [reflexivity|]. rewrite wrap32_id; lia.
Qed.

Lemma fread_double_take_full z rest (k : nat) :
  0 ≤ z < 2 ^ 64 → (8 ≤ k)%nat →
  fread_double (take k (enc_double z ++ rest)) = (z, 1, take (k - 8) rest).
Proof.
  intros Hz Hk. rewrite take_app_ge by (rewrite length_enc_double; lia).
  rewrite length_enc_double. by apply fread_double_enc.
Qed.

Lemma fread_double_take_part z rest (k : nat) :
  (k < 8)%nat →
  ∃ v, fread_double (take k (enc_double z ++ rest)) = (v, 0, []).
Proof.
  intros Hk. rewrite take_app_le by (rewrite length_enc_double; lia).
  unfold fread_double.
  rewrite length_take, length_enc_double.
  rewrite drop_ge by (rewrite length_take, length_enc_double; lia).
  destruct (Nat.leb_spec 8 (k `min` 8)); [lia|]. by eexists.
Qed.

Lemma fread_str_take_full p (s rest : list byte) (k : nat) :
  (length s ≤ k)%nat →
  fread_buf p (calloc_buf (Z.of_nat (length s))) (Z.of_nat (length s))
    (take k (s ++ rest))
  = Ret (Some s, Z.of_nat (length s), take (k - length s) rest).
Proof. intros Hk. rewrite take_app_ge by done. apply fread_str. Qed.

Lemma fread_str_take_part p (s rest : list byte) (k : nat) :
  (k < length s)%nat →
  ∃ buf, fread_buf p (calloc_buf (Z.of_nat (length s))) (Z.of_nat (length s))
           (take k (s ++ rest))
         = Ret (buf, Z.of_nat k, []).
Proof.
  intros Hk. rewrite take_app_le by lia.
  unfold fread_buf, calloc_buf.
  destruct (Z.ltb_spec (Z.of_nat (length s)) 0) as [?|_]; [lia|].
  rewrite Nat2Z.id, take_take, Nat.min_r by lia.
  destruct (take k s) as [|x got] eqn:E.
  - apply (f_equal length) in E. rewrite length_take in E. cbn in E.
    assert (k = 0%nat) as -> by lia. by eexists.
  - rewrite <- E. rewrite (drop_ge (take k s)) by (rewrite length_take; lia).
    rewrite length_take, Nat.min_l by lia. by eexists.
Qed.

Lemma length_enc_buffer integer b :
  length (enc_buffer integer b)
  = ((if integer then 12 else 16) + 36 + length (b_binLength b)
       + length (b_interval b) + length (b_consolidator b))%nat.
Proof.
  unfold enc_buffer, enc_str.
  destruct integer;
    rewrite !length_app, ?length_enc_int, ?length_enc_double; lia.
Qed.

(** The reads that follow the end of the stream obtain nothing. *)
Ltac at_eof :=
  repeat first
    [ rewrite fread_int_nil
    | rewrite fread_double_nil
    | rewrite fread_buf_nil
    | progress cbn [mbind outcome_bind Z.eqb]
    | progress cbv beta iota ].

Ltac short_count :=
  at_eof; unfold counted_short; eexists _, _, _; split; [reflexivity|];
  cbn [cons_len int_len binL_len]; wrap_small; lia.

Ltac int_field :=
  lazymatch goal with
  | |- context [fread_int (take ?k (enc_int ?z ++ ?rest))] =>
    let v := fresh "v" in let E := fresh "E" in let Hv := fresh "Hv" in
    destruct (decide (4 ≤ k)%nat);
    [ rewrite (fread_int_take_full z rest k)
        by (assumption || (unfold int_range; lia));
      cbv beta iota
    | destruct (fread_int_take_part z rest k ltac:(lia)) as (v & E & Hv);
      rewrite E; short_count ]
  end.

Ltac double_field :=
  lazymatch goal with
  | |- context [fread_double (take ?k (enc_double ?z ++ ?rest))] =>
    let v := fresh "v" in let E := fresh "E" in
    destruct (decide (8 ≤ k)%nat);
    [ rewrite (fread_double_take_full z rest k) by (assumption || lia); cbv beta iota
    | destruct (fread_double_take_part z rest k ltac:(lia)) as (v & E);
      rewrite E; short_count ]
  end.

Ltac str_field :=
  lazymatch goal with
  | |- context [fread_buf ?p _ _ (take ?k (?s ++ ?rest))] =>
    let buf := fresh "buf" in let E := fresh "E" in
    cbn [Z.eqb];
    destruct (decide (length s ≤ k)%nat);
    [ rewrite (fread_str_take_full p s rest k) by lia;
      cbn [mbind outcome_bind]; cbv beta iota
    | destruct (fread_str_take_part p s rest k ltac:(lia)) as (buf & E);
      rewrite E; short_count ]
  end.

(** A record cut short, at any byte, is counted short. *)
Lemma read_subset_truncated integer b rest (k : nat) :
  wf_buffer b →
  (k < length (enc_buffer integer b))%nat →
  counted_short (read_subset integer (take k (enc_buffer integer b ++ rest))).
Proof.
  intros [] Hk. rewrite length_enc_buffer in Hk.
  unfold str_ok in *.
  unfold read_subset, enc_buffer, enc_str. rewrite <- !app_assoc.
  destruct integer; rewrite <- ?app_assoc.
  - do 3 int_field. do 4 int_field. str_field. do 4 int_field. str_field.
    int_field. str_field. lia.
  - do 2 double_field. do 4 int_field. str_field. do 4 int_field. str_field.
    int_field. str_field. lia.
Qed.

(** One pass of the decode loop over a record that is counted short: the
    diagnostic is printed, the record before it is unlinked and [n_sets]
    stays at [j]. *)
Lemma read_subsets_short fuel j data uuid st prev fp stdout :
  deviceUuid data = Some uuid →
  streq uuid "placeholder" = false →
  sampleType data = Some st →
  0 < j < Z.of_nat (length (subset data)) →
  Z.of_nat (length (subset data)) < 2 ^ 31 →
  subset data !! Z.to_nat (j - 1) = Some (Some prev) →
  counted_short (read_subset (streq st "integer") fp) →
  ∃ s,
    read_subsets (S fuel) j data fp stdout
    = Ret (set_subsets data j
             (<[Z.to_nat j := Some s]>
                (<[Z.to_nat (j - 1) := Some (set_next prev None)]> (subset data))),
           stdout ++ ["dat file is partly corrupted, continuing ..."]).
Proof.
  intros Huuid Hph Hst Hj Hlen Hprev (s & cnt & fp' & Hread & Hshort).
  exists s. cbn [read_subsets].
  rewrite Huuid, Hst. cbn [deref mbind outcome_bind]. rewrite Hph. cbn [negb].
  rewrite wr_Ret by lia. cbn [mbind outcome_bind].
  rewrite (sub32_id j 1), (add32_id j 1) by lia.
  destruct (Z.gtb_spec j 0); [|lia]. unfold link.
  rewrite (rd_lookup _ _ _ (Some prev))
    by (lia || (rewrite list_lookup_insert_ne by lia; done)).
  cbn [mbind outcome_bind deref].
  rewrite wr_Ret by (rewrite length_insert; lia). cbn [mbind outcome_bind].
  rewrite Hread. cbn [mbind outcome_bind].
  rewrite wr_Ret by (rewrite !length_insert; lia). cbn [mbind outcome_bind].
  destruct (Z.ltb_spec cnt (add32 (add32 (add32 (cons_len s) (int_len s)) (binL_len s)) 9));
    [|lia].
  rewrite (rd_lookup _ _ _ (Some (set_next prev (Some j)))).
  2: lia.
  2: { rewrite list_lookup_insert_ne by lia.
       rewrite list_lookup_insert_eq by (rewrite length_insert; lia). done. }
  cbn [mbind outcome_bind deref].
  rewrite wr_Ret by (rewrite !length_insert; lia). cbn [mbind outcome_bind].
  rewrite (sub32_id (j + 1) 1) by lia.
  replace (j + 1 - 1) with j by lia. do 3 f_equal.
  apply list_eq. intros i.
  destruct (decide (i = Z.to_nat (j - 1))) as [->|Hi1].
  - rewrite list_lookup_insert_eq by (rewrite !length_insert; lia).
    rewrite list_lookup_insert_ne by lia.
    by rewrite list_lookup_insert_eq by lia.
  - rewrite list_lookup_insert_ne by done.
    destruct (decide (i = Z.to_nat j)) as [->|Hi2].
    + rewrite !list_lookup_insert_eq; [done|rewrite ?length_insert; lia..].
    + by rewrite !list_lookup_insert_ne by done.
Qed.

(** C7.  A metadata stream that holds one complete record and a second
    record cut short, at any byte inside it, decodes without a fault to a
    Device whose [n_sets] is 1 and whose first Buffer is the complete
    record, linked to no other; the diagnostic of a partly corrupted file
    is printed. *)
Theorem read_dat_file_truncated (d : device) (b1 b2 : buffer) (k : nat) :
  wf_device d →
  wf_buffer b1 →
  wf_buffer b2 →
  cstr (d_uuid d) ≠ bytes_of "placeholder" →
  (0 < k < length (enc_buffer (streq (d_sampleType d) "integer") b2))%nat →
  ∃ data,
    read_dat_file
      (Some (enc_header d
               ++ enc_buffer (streq (d_sampleType d) "integer") b1
               ++ take k (enc_buffer (streq (d_sampleType d) "integer") b2)))
    = Ret (data, ["dat file is partly corrupted, continuing ..."]) ∧
    n_sets data = 1 ∧
    subset_at data 0 = Ret (sub_of (streq (d_sampleType d) "integer") b1 None) ∧
    deviceUuid data = Some (d_uuid d) ∧
    deviceVar data = Some (d_var d) ∧
    deviceSvc data = Some (d_svc d) ∧
    sampleType data = Some (d_sampleType d).
Proof.
  intros Hd Hb1 Hb2 Hph Hk.
  assert (Hne : streq (d_uuid d) "placeholder" = false)
    by (unfold streq; by rewrite bool_decide_eq_false).
  rewrite read_dat_file_header by done.
  erewrite read_subsets_step;
    [cbv zeta|reflexivity|exact Hne|reflexivity|exact Hb1
    |vm_compute; split; [discriminate|reflexivity]|reflexivity|exact I].
  rewrite match_nonempty.
  2: { intros E. apply (f_equal length) in E. rewrite length_take in E.
       cbn in E. lia. }
  edestruct (read_subsets_short 3 (0 + 1)) as [s ->];
    [reflexivity|exact Hne|reflexivity|vm_compute; split; reflexivity|reflexivity
    |reflexivity| |].
  { cbn [sampleType set_subsets dat_of].
    rewrite <- (app_nil_r (enc_buffer _ b2)).
    apply read_subset_truncated; [done|lia]. }
  eexists. split; [reflexivity|]. repeat split; reflexivity.
Qed.

Lemma read_dat_file_truncated_witness :
  ∃ data,
    read_dat_file
      (Some (enc_header device_1
               ++ enc_buffer (streq (d_sampleType device_1) "integer") buffer_1
               ++ take 30 (enc_buffer (streq (d_sampleType device_1) "integer") buffer_1)))
    = Ret (data, ["dat file is partly corrupted, continuing ..."]) ∧
    n_sets data = 1 ∧
    subset_at data 0
      = Ret (sub_of (streq (d_sampleType device_1) "integer") buffer_1 None) ∧
    deviceUuid data = Some (d_uuid device_1) ∧
    deviceVar data = Some (d_var device_1) ∧
    deviceSvc data = Some (d_svc device_1) ∧
    sampleType data = Some (d_sampleType device_1).
Proof.
  assert (Hb : wf_buffer buffer_1)
    by (split; vm_compute; first [reflexivity | split; [discriminate|reflexivity]]).
  apply (read_dat_file_truncated device_1 buffer_1 buffer_1 30).
  - split; vm_compute; reflexivity.
  - exact Hb.
  - exact Hb.
  - vm_compute. discriminate.
  - vm_compute. split; apply le_n || (repeat constructor).
Defined.

(** The pass of the decode loop that finds the Device full stores past
    its pointers. *)
Lemma read_subsets_full fuel j data uuid fp stdout :
  deviceUuid data = Some uuid →
  streq uuid "placeholder" = false →
  j = Z.of_nat (length (subset data)) →
  read_subsets (S fuel) j data fp stdout = Fault (OutOfBounds "subset" j).
Proof.
  intros Huuid Hph ->. cbn [read_subsets].
  rewrite Huuid. cbn [deref mbind outcome_bind]. rewrite Hph. cbn [negb].
  unfold wr. destruct (Z.leb_spec 0 (Z.of_nat (length (subset data)))); [|lia].
  by rewrite Z.ltb_irrefl.
Qed.

(** Any byte behind four complete records starts a fifth pass of the loop. *)
Lemma read_dat_file_more_than_four (d : device) (b1 b2 b3 b4 : buffer)
    (rest : list byte) :
  wf_device d →
  wf_buffer b1 → wf_buffer b2 → wf_buffer b3 → wf_buffer b4 →
  cstr (d_uuid d) ≠ bytes_of "placeholder" →
  rest ≠ [] →
  read_dat_file
    (Some (enc_header d
             ++ enc_buffer (streq (d_sampleType d) "integer") b1
             ++ enc_buffer (streq (d_sampleType d) "integer") b2
             ++ enc_buffer (streq (d_sampleType d) "integer") b3
             ++ enc_buffer (streq (d_sampleType d) "integer") b4 ++ rest))
  = Fault (OutOfBounds "subset" 4).
Proof.
  intros Hd Hb1 Hb2 Hb3 Hb4 Hph Hrest.
  assert (Hne : streq (d_uuid d) "placeholder" = false)
    by (unfold streq; by rewrite bool_decide_eq_false).
  rewrite read_dat_file_header by done.
  step_record. rewrite match_nonempty by apply enc_buffer_nonempty.
  step_record. rewrite match_nonempty by apply enc_buffer_nonempty.
  step_record. rewrite match_nonempty by apply enc_buffer_nonempty.
  step_record. rewrite match_nonempty by done.
  erewrite (read_subsets_full 0); [reflexivity|reflexivity|exact Hne|reflexivity].
Qed.

(** C4.  A metadata stream that holds five complete records makes the
    decode loop run a fifth time and store into [subset[4]], past the
    [N_SUBSETS] pointers of the Device. *)
Theorem read_dat_file_fifth_buffer :
  read_dat_file
    (Some (enc_dat device_1 [buffer_1; buffer_1; buffer_1; buffer_1; buffer_1]))
  = Fault (OutOfBounds "subset" 4).
Proof. vm_compute. reflexivity. Qed.

(** A file of a Device that is not the placeholder and has no record: the
    loop takes the missing record for a corrupt one and unlinks
    [subset[-1]]. *)
Example read_dat_file_no_record :
  read_dat_file (Some (enc_dat device_1 [])) = Fault (OutOfBounds "subset" (-1)).
Proof. vm_compute. reflexivity. Qed.

(** * The slot timeline *)

Lemma sub32_wrap a b : sub32 (wrap32 a) b = wrap32 (a - b).
Proof. unfold sub32. apply (wrap32_add_l a (- b)). Qed.

Lemma sub32_wrap_sub a b c : wrap32 (sub32 a b - c) = wrap32 (a - b - c).
Proof. unfold sub32. apply (wrap32_add_l (a - b) (- c)). Qed.

Lemma at_insert_eq (t : list Z) i x :
  0 ≤ i < Z.of_nat (length t) → at_ (<[Z.to_nat i := x]> t) i = x.
Proof. intros Hi. unfold at_. by rewrite list_lookup_insert_eq by lia. Qed.

Lemma at_insert_ne (t : list Z) i j x :
  0 ≤ i → 0 ≤ j → i ≠ j → at_ (<[Z.to_nat i := x]> t) j = at_ t j.
Proof. intros Hi Hj Hne. unfold at_. by rewrite list_lookup_insert_ne by lia. Qed.

(** The first loop fills the slots below [j] from slot [j]. *)
Lemma walk_down_spec itv fuel : ∀ (t : list Z) j,
  1 ≤ j < Z.of_nat (length t) → Z.of_nat (length t) < 2 ^ 31 →
  j ≤ Z.of_nat fuel →
  ∃ t', walk_down fuel itv t j = Ret t' ∧
        length t' = length t ∧
        (∀ i, 0 ≤ i < j → at_ t' i = wrap32 (at_ t j - (j - i) * itv)) ∧
        (∀ i, j ≤ i → at_ t' i = at_ t i).
Proof.
  induction fuel as [|fuel IH]; intros t j Hj Hlen Hfuel; [lia|].
  cbn [walk_down]. rewrite rd_at by lia. cbn [mbind outcome_bind].
  rewrite (sub32_id j 1) by lia. rewrite wr_Ret by lia. cbn [mbind outcome_bind].
  set (t1 := <[Z.to_nat (j - 1) := sub32 (at_ t j) itv]> t).
  assert (Hlen1 : length t1 = length t) by apply length_insert.
  destruct (Z.gtb_spec (j - 1) 0) as [Hpos|Hzero].
  - destruct (IH t1 (j - 1)) as (t' & -> & Hlen' & Hlow & Hhigh); [lia..|].
    exists t'. split; [done|]. split; [congruence|]. split.
    + intros i Hi. destruct (Z.eq_dec i (j - 1)) as [->|Hne].
      * rewrite Hhigh by lia. unfold t1. rewrite at_insert_eq by lia.
        unfold sub32. f_equal. lia.
      * rewrite Hlow by lia. unfold t1 at 1. rewrite at_insert_eq by lia.
        rewrite sub32_wrap_sub. f_equal. lia.
    + intros i Hi. rewrite Hhigh by lia. unfold t1. apply at_insert_ne; lia.
  - exists t1. split; [done|]. split; [done|]. split.
    + intros i Hi. assert (i = j - 1) as -> by lia.
      unfold t1. rewrite at_insert_eq by lia. unfold sub32. f_equal. lia.
    + intros i Hi. unfold t1. apply at_insert_ne; lia.
Qed.

(** The second loop fills the slots from [j - 1] down to [file_offset+1]
    from slot [j]. *)
Lemma walk_wrap_spec itv fo fuel : ∀ (t : list Z) j,
  0 ≤ fo → fo + 1 < j < Z.of_nat (length t) → Z.of_nat (length t) < 2 ^ 31 →
  j - fo - 1 ≤ Z.of_nat fuel →
  ∃ t', walk_wrap fuel itv fo t j = Ret t' ∧
        length t' = length t ∧
        (∀ i, fo + 1 ≤ i < j → at_ t' i = wrap32 (at_ t j - (j - i) * itv)) ∧
        (∀ i, 0 ≤ i → i < fo + 1 ∨ j ≤ i → at_ t' i = at_ t i).
Proof.
  induction fuel as [|fuel IH]; intros t j Hfo Hj Hlen Hfuel; [lia|].
  cbn [walk_wrap]. rewrite (sub32_id j 1), (add32_id (j - 1) 1), (add32_id fo 1) by lia.
  replace (j - 1 + 1) with j by lia.
  rewrite rd_at by lia. cbn [mbind outcome_bind].
  rewrite wr_Ret by lia. cbn [mbind outcome_bind].
  set (t1 := <[Z.to_nat (j - 1) := sub32 (at_ t j) itv]> t).
  assert (Hlen1 : length t1 = length t) by apply length_insert.
  destruct (Z.gtb_spec (j - 1) (fo + 1)) as [Hmore|Hlast].
  - destruct (IH t1 (j - 1)) as (t' & -> & Hlen' & Hlow & Hrest); [lia..|].
    exists t'. split; [done|]. split; [congruence|]. split.
    + intros i Hi. destruct (Z.eq_dec i (j - 1)) as [->|Hne].
      * rewrite Hrest by lia. unfold t1. rewrite at_insert_eq by lia.
        unfold sub32. f_equal. lia.
      * rewrite Hlow by lia. unfold t1 at 1. rewrite at_insert_eq by lia.
        rewrite sub32_wrap_sub. f_equal. lia.
    + intros i Hi0 Hi. rewrite Hrest by lia. unfold t1. apply at_insert_ne; lia.
  - exists t1. split; [done|]. split; [done|]. split.
    + intros i Hi. assert (i = j - 1) as -> by lia.
      unfold t1. rewrite at_insert_eq by lia. unfold sub32. f_equal. lia.
    + intros i Hi0 Hi. unfold t1. apply at_insert_ne; lia.
Qed.

(** X3.  Away from the boundary offsets [create_rra_time] builds the
    timeline of the Buffer: for [1 <= file_offset <= n_samples - 3] slot
    [file_offset] holds [timestamp_1] and the slot [d] places before it
    around the ring holds [timestamp_1 - d * interval]. *)
Lemma create_rra_time_interior (data : dat_s) (sub : Z) (s : dat_sub_s) :
  subset_at data sub = Ret s →
  n_samples s < 2 ^ 31 →
  1 ≤ file_offset s → file_offset s + 2 < n_samples s →
  int_range (timestamp_1 s) →
  ∃ time_rra,
    create_rra_time data sub = Ret time_rra ∧
    Z.of_nat (length time_rra) = n_samples s ∧
    at_ time_rra (file_offset s) = timestamp_1 s ∧
    ∀ i, 0 ≤ i < n_samples s →
      at_ time_rra i
      = wrap32 (timestamp_1 s
                - ((file_offset s - i) mod n_samples s)
                  * sub32 (timestamp_1 s) (timestamp_0 s)).
Proof.
  intros Hsub Hn Hfo1 Hfo2 Hts. unfold int_range in Hts.
  unfold create_rra_time. rewrite Hsub. cbn [mbind outcome_bind].
  set (n := n_samples s) in *. set (fo := file_offset s) in *.
  set (ts1 := timestamp_1 s) in *.
  set (itv := sub32 ts1 (timestamp_0 s)).
  assert (Hlen0 : Z.of_nat (length (calloc 0 n)) = n)
    by (unfold calloc; rewrite length_replicate; lia).
  rewrite wr_Ret by lia. cbn [mbind outcome_bind].
  set (t0 := <[Z.to_nat fo := ts1]> (calloc 0 n)).
  assert (Hlent0 : Z.of_nat (length t0) = n) by (unfold t0; by rewrite length_insert).
  destruct (walk_down_spec itv (S (Z.to_nat fo)) t0 fo)
    as (t1 & -> & Hlen1 & Hlow1 & Hhigh1); [lia..|].
  cbn [mbind outcome_bind].
  assert (Hfo0 : at_ t0 fo = ts1) by (unfold t0; apply at_insert_eq; lia).
  rewrite rd_at by lia. cbn [mbind outcome_bind].
  rewrite (sub32_id n 1) by lia. rewrite wr_Ret by lia. cbn [mbind outcome_bind].
  set (t2 := <[Z.to_nat (n - 1) := sub32 (at_ t1 0) itv]> t1).
  assert (Hlen2 : length t2 = length t1) by apply length_insert.
  destruct (walk_wrap_spec itv fo (S (Z.to_nat n)) t2 (n - 1))
    as (t3 & -> & Hlen3 & Hmid3 & Hrest3); [lia..|].
  assert (Hlast : at_ t2 (n - 1) = wrap32 (ts1 - (fo + 1) * itv)).
  { unfold t2. rewrite at_insert_eq by lia. rewrite Hlow1, Hfo0 by lia.
    rewrite sub32_wrap. f_equal. lia. }
  assert (Hslot : ∀ i, 0 ≤ i < n →
            at_ t3 i = wrap32 (ts1 - ((fo - i) mod n) * itv)).
  { intros i Hi. destruct (Z_le_dec i fo) as [Hle|Hgt].
    - rewrite Z.mod_small by lia. rewrite Hrest3 by lia.
      unfold t2. rewrite at_insert_ne by lia.
      destruct (Z.eq_dec i fo) as [->|Hne].
      + rewrite Hhigh1, Hfo0 by lia. rewrite wrap32_id by lia.
        replace (fo - fo) with 0 by lia. lia.
      + rewrite Hlow1, Hfo0 by lia. done.
    - replace ((fo - i) mod n) with (fo - i + n).
      2: { apply (Z.mod_unique_pos _ _ (-1)); lia. }
      destruct (Z.eq_dec i (n - 1)) as [->|Hne].
      + rewrite Hrest3, Hlast by lia. f_equal. lia.
      + rewrite Hmid3, Hlast by lia.
        replace (wrap32 (ts1 - (fo + 1) * itv) - (n - 1 - i) * itv)
          with (wrap32 (ts1 - (fo + 1) * itv) + - ((n - 1 - i) * itv)) by lia.
        rewrite wrap32_add_l. f_equal. lia. }
  exists t3. split; [done|]. split; [lia|]. split; [|exact Hslot].
  rewrite Hslot by lia. replace (fo - fo) with 0 by lia.
  rewrite Z.mod_0_l by lia. rewrite wrap32_id; lia.
Qed.

(** With [file_offset] at the last slot the store into slot [n_samples - 1]
    that closes the ring replaces [timestamp_1] by the timestamp
    [n_samples] intervals before it. *)
Lemma create_rra_time_last_offset (data : dat_s) (sub : Z) (s : dat_sub_s) :
  subset_at data sub = Ret s →
  2 ≤ n_samples s < 2 ^ 31 →
  file_offset s = n_samples s - 1 →
  ∃ time_rra,
    create_rra_time data sub = Ret time_rra ∧
    at_ time_rra (file_offset s)
    = wrap32 (timestamp_1 s
              - n_samples s * sub32 (timestamp_1 s) (timestamp_0 s)).
Proof.
  intros Hsub Hn Hfo. unfold create_rra_time. rewrite Hsub. cbn [mbind outcome_bind].
  rewrite Hfo.
  set (n := n_samples s) in *. set (ts1 := timestamp_1 s) in *.
  set (itv := sub32 ts1 (timestamp_0 s)).
  assert (Hlen0 : Z.of_nat (length (calloc 0 n)) = n)
    by (unfold calloc; rewrite length_replicate; lia).
  rewrite wr_Ret by lia. cbn [mbind outcome_bind].
  set (t0 := <[Z.to_nat (n - 1) := ts1]> (calloc 0 n)).
  assert (Hlent0 : Z.of_nat (length t0) = n) by (unfold t0; by rewrite length_insert).
  destruct (walk_down_spec itv (S (Z.to_nat (n - 1))) t0 (n - 1))
    as (t1 & -> & Hlen1 & Hlow1 & _); [lia..|].
  cbn [mbind outcome_bind].
  assert (Hfo0 : at_ t0 (n - 1) = ts1) by (unfold t0; apply at_insert_eq; lia).
  rewrite rd_at by lia. cbn [mbind outcome_bind].
  rewrite (sub32_id n 1) by lia. rewrite wr_Ret by lia. cbn [mbind outcome_bind].
  set (t2 := <[Z.to_nat (n - 1) := sub32 (at_ t1 0) itv]> t1).
  assert (Hlen2 : length t2 = length t1) by apply length_insert.
  cbn [walk_wrap].
  rewrite (sub32_id (n - 1) 1), (add32_id (n - 1 - 1) 1), (add32_id (n - 1) 1) by lia.
  replace (n - 1 - 1 + 1) with (n - 1) by lia.
  rewrite rd_at by lia. cbn [mbind outcome_bind].
  rewrite wr_Ret by lia. cbn [mbind outcome_bind].
  destruct (Z.gtb_spec (n - 1 - 1) (n - 1 + 1)); [lia|].
  eexists. split; [reflexivity|].
  rewrite at_insert_ne by lia. unfold t2. rewrite at_insert_eq by lia.
  rewrite Hlow1, Hfo0 by lia. rewrite sub32_wrap. f_equal. lia.
Qed.

(** C2.  At the boundary offsets the timeline is not the one of the Buffer:
    [create_rra_time] does not keep [timestamp_1] in slot [file_offset] when
    the offset is one of the last two slots (both loops run their body once
    before they test), writes slot [-1] when the offset is 0, and writes
    into an empty array when [n_samples] is 0. *)
Theorem create_rra_time_boundary_offsets :
  create_rra_time (one_buffer "integer" 300 400 3 4) 0 = Ret [100; 200; -100; 0] ∧
  create_rra_time (one_buffer "integer" 300 400 2 4) 0 = Ret [200; 300; 0; 100] ∧
  create_rra_time (one_buffer "integer" 300 400 0 4) 0
    = Fault (OutOfBounds "time_rra" (-1)) ∧
  create_rra_time (one_buffer "integer" 300 400 0 0) 0
    = Fault (OutOfBounds "time_rra" 0).
Proof. repeat split; reflexivity. Qed.

(** * The search on an arbitrary array *)

Lemma search_rec_window arr key fuel : ∀ l h,
  Z.of_nat (length arr) ≤ 2 ^ 30 →
  0 ≤ l → h < Z.of_nat (length arr) →
  (Z.to_nat (h - l + 1) < fuel)%nat →
  ∃ r, search_rec fuel arr l h key = Ret r ∧
       (r = -1 ∨ (l ≤ r ≤ h ∧ arr !! Z.to_nat r = Some key)).
Proof.
  induction fuel as [|fuel IH]; intros l h Hlen Hl Hh Hfuel; [lia|].
  cbn [search_rec]. destruct (Z.gtb_spec l h) as [Hgt|Hle].
  { exists (-1). by split; [|left]. }
  destruct (mid_between l h) as [-> Hmid]; [lia..|].
  set (mid := (l + h) / 2) in *.
  rewrite (rd_at _ arr mid) by lia. cbn [mbind outcome_bind].
  destruct (Z.eqb_spec (at_ arr mid) key) as [Heq|Hne].
  { exists mid. split; [done|]. right. split; [lia|].
    rewrite <- Heq. apply lookup_at. lia. }
  rewrite (rd_at _ arr l) by lia. cbn [mbind outcome_bind].
  rewrite (sub32_id mid 1), (add32_id mid 1) by lia.
  assert (Hlow : ∃ r, search_rec fuel arr l (mid - 1) key = Ret r ∧
            (r = -1 ∨ (l ≤ r ≤ h ∧ arr !! Z.to_nat r = Some key))).
  { destruct (IH l (mid - 1)) as (r & Hr & Hres); [lia..|].
    exists r. split; [done|]. destruct Hres as [?|[? ?]]; [by left|right]. split; [lia|done]. }
  assert (Hhigh : ∃ r, search_rec fuel arr (mid + 1) h key = Ret r ∧
            (r = -1 ∨ (l ≤ r ≤ h ∧ arr !! Z.to_nat r = Some key))).
  { destruct (IH (mid + 1) h) as (r & Hr & Hres); [lia..|].
    exists r. split; [done|]. destruct Hres as [?|[? ?]]; [by left|right]. split; [lia|done]. }
  destruct (at_ arr l <=? at_ arr mid).
  - by destruct ((key >=? at_ arr l) && (key <=? at_ arr mid)).
  - destruct (key >=? at_ arr mid); [|done].
    rewrite (rd_at _ arr h) by lia. cbn [mbind outcome_bind].
    by destruct (key <=? at_ arr h).
Qed.

(** X1.  Called on a window of valid indices, [search] returns on every
    array, sorted or not: it reads no slot outside the array, and its result
    is [-1] or an index of the window at which the array holds the key. *)
Theorem search_window_sound (arr : list Z) (l h key : Z) :
  Z.of_nat (length arr) ≤ 2 ^ 30 →
  0 ≤ l → h < Z.of_nat (length arr) →
  ∃ r, search arr l h key = Ret r ∧
       (r = -1 ∨ (l ≤ r ≤ h ∧ arr !! Z.to_nat r = Some key)).
Proof.
  intros Hlen Hl Hh. apply search_rec_window; [done..|lia].
Qed.

Lemma search_window_sound_witness :
  ∃ r, search [7; 3; 9; 3; 1] 1 4 9 = Ret r ∧
       (r = -1 ∨ (1 ≤ r ≤ 4 ∧ [7; 3; 9; 3; 1] !! Z.to_nat r = Some 9)).
Proof. apply search_window_sound; cbn; lia. Defined.

(** X2.  On an ascending array every element of which lies below the key,
    the call [search arr 0 n key] with [n] the number of elements, as the
    merge makes it, reads the slot [n] behind the array. *)
Theorem search_key_above_reads_past (arr : list Z) (key : Z) :
  ascending arr →
  (∀ i, 0 ≤ i < Z.of_nat (length arr) → at_ arr i < key) →
  Z.of_nat (length arr) < 2 ^ 30 →
  search arr 0 (Z.of_nat (length arr)) key
  = Fault (OutOfBounds "arr" (Z.of_nat (length arr))).
Proof. intros Hasc. by apply search_above_reads_past. Qed.

Lemma search_key_above_reads_past_witness :
  search [10; 20; 30] 0 3 40 = Fault (OutOfBounds "arr" 3).
Proof.
  apply (search_key_above_reads_past [10; 20; 30] 40).
  - intros i j Hi Hij Hj. cbn in Hj.
    assert (i = 0 ∨ i = 1) as [-> | ->] by lia;
      [assert (j = 1 ∨ j = 2) as [-> | ->] by lia | assert (j = 2) as -> by lia];
      vm_compute; reflexivity.
  - intros i Hi. cbn in Hi.
    assert (i = 0 ∨ i = 1 ∨ i = 2) as [-> | [-> | ->]] by lia; vm_compute; reflexivity.
  - cbn. lia.
Defined.

(** * The slot timeline at and beyond the boundary *)

Lemma create_rra_time_interior_witness :
  ∃ time_rra,
    create_rra_time (one_buffer "integer" 300 400 2 6) 0 = Ret time_rra ∧
    Z.of_nat (length time_rra) = 6 ∧
    at_ time_rra 2 = 400 ∧
    ∀ i, 0 ≤ i < 6 →
      at_ time_rra i = wrap32 (400 - ((2 - i) mod 6) * sub32 400 300).
Proof.
  apply (create_rra_time_interior (one_buffer "integer" 300 400 2 6) 0
           (mk_dat_sub_s 0 0 0 0 0 300 400 0 0 (Some []) 2 6 0 0 (Some []) 0 (Some []) None)).
  - reflexivity.
  - cbn. lia.
  - cbn. lia.
  - cbn. lia.
  - unfold int_range. cbn. lia.
Defined.

(** X4.  With [file_offset] at one of the last two slots the second loop,
    which runs its body once before it tests, overwrites slot [file_offset]:
    the slot holds the timestamp [n_samples] intervals before [timestamp_1]. *)
Theorem create_rra_time_late_offset (data : dat_s) (sub : Z) (s : dat_sub_s) :
  subset_at data sub = Ret s →
  n_samples s < 2 ^ 31 →
  1 ≤ file_offset s →
  n_samples s - 2 ≤ file_offset s ≤ n_samples s - 1 →
  ∃ time_rra,
    create_rra_time data sub = Ret time_rra ∧
    Z.of_nat (length time_rra) = n_samples s ∧
    at_ time_rra (file_offset s)
    = wrap32 (timestamp_1 s
              - n_samples s * sub32 (timestamp_1 s) (timestamp_0 s)).
Proof.
  intros Hsub Hn Hfo1 Hfo. unfold create_rra_time. rewrite Hsub. cbn [mbind outcome_bind].
  set (n := n_samples s) in *. set (fo := file_offset s) in *.
  set (ts1 := timestamp_1 s) in *.
  set (itv := sub32 ts1 (timestamp_0 s)).
  assert (Hlen0 : Z.of_nat (length (calloc 0 n)) = n)
    by (unfold calloc; rewrite length_replicate; lia).
  rewrite wr_Ret by lia. cbn [mbind outcome_bind].
  set (t0 := <[Z.to_nat fo := ts1]> (calloc 0 n)).
  assert (Hlent0 : Z.of_nat (length t0) = n) by (unfold t0; by rewrite length_insert).
  destruct (walk_down_spec itv (S (Z.to_nat fo)) t0 fo)
    as (t1 & -> & Hlen1 & Hlow1 & Hhigh1); [lia..|].
  cbn [mbind outcome_bind].
  assert (Hfo0 : at_ t0 fo = ts1) by (unfold t0; apply at_insert_eq; lia).
  rewrite rd_at by lia. cbn [mbind outcome_bind].
  rewrite (sub32_id n 1) by lia. rewrite wr_Ret by lia. cbn [mbind outcome_bind].
  set (t2 := <[Z.to_nat (n - 1) := sub32 (at_ t1 0) itv]> t1).
  assert (Hlen2 : length t2 = length t1) by apply length_insert.
  assert (Hlast : at_ t2 (n - 1) = wrap32 (ts1 - (fo + 1) * itv)).
  { unfold t2. rewrite at_insert_eq by lia. rewrite Hlow1, Hfo0 by lia.
    rewrite sub32_wrap. f_equal. lia. }
  cbn [walk_wrap].
  rewrite (sub32_id (n - 1) 1), (add32_id (n - 1 - 1) 1), (add32_id fo 1) by lia.
  replace (n - 1 - 1 + 1) with (n - 1) by lia.
  rewrite rd_at by lia. cbn [mbind outcome_bind].
  rewrite wr_Ret by lia. cbn [mbind outcome_bind].
  destruct (Z.gtb_spec (n - 1 - 1) (fo + 1)); [lia|].
  eexists. split; [reflexivity|]. split; [rewrite length_insert; lia|].
  destruct (Z.eq_dec fo (n - 1)) as [Heq|Hne].
  - rewrite at_insert_ne by lia. rewrite Heq, Hlast. f_equal. lia.
  - assert (fo = n - 1 - 1) as Heq by lia. rewrite Heq at 1.
    rewrite at_insert_eq by lia. rewrite Hlast, sub32_wrap. f_equal. lia.
Qed.

Lemma create_rra_time_late_offset_witness :
  ∃ time_rra,
    create_rra_time (one_buffer "integer" 300 400 4 6) 0 = Ret time_rra ∧
    Z.of_nat (length time_rra) = 6 ∧
    at_ time_rra 4 = wrap32 (400 - 6 * sub32 400 300).
Proof.
  apply (create_rra_time_late_offset (one_buffer "integer" 300 400 4 6) 0
           (mk_dat_sub_s 0 0 0 0 0 300 400 0 0 (Some []) 4 6 0 0 (Some []) 0 (Some []) None)).
  - reflexivity.
  - cbn. lia.
  - cbn. lia.
  - cbn. lia.
Defined.

(** X5.  [create_rra_time] stores [timestamp_1] at slot [file_offset]
    without testing the offset against [n_samples], and its first loop
    stores once below slot [file_offset] before it tests: for an offset
    outside [1 .. n_samples - 1] the function stores outside the array, at
    slot [-1] for the offset 0 of a Buffer that has slots and at slot
    [file_offset] otherwise. *)
Theorem create_rra_time_offset_unchecked (data : dat_s) (sub : Z) (s : dat_sub_s) :
  subset_at data sub = Ret s →
  ¬ (1 ≤ file_offset s < n_samples s) →
  create_rra_time data sub
  = Fault (OutOfBounds "time_rra"
             (if decide (file_offset s = 0 ∧ 0 < n_samples s) then -1
              else file_offset s)).
Proof.
  intros Hsub Hfo. unfold create_rra_time. rewrite Hsub. cbn [mbind outcome_bind].
  set (n := n_samples s) in *. set (fo := file_offset s) in *.
  assert (Hlen0 : Z.of_nat (length (calloc 0 n)) = Z.max 0 n)
    by (unfold calloc; rewrite length_replicate; lia).
  destruct (decide (fo = 0 ∧ 0 < n)) as [[Hz Hpos]|Hno].
  - rewrite Hz. rewrite wr_Ret by lia. cbn [mbind outcome_bind walk_down Z.to_nat].
    rewrite rd_at by (rewrite length_insert; lia). cbn [mbind outcome_bind].
    unfold wr. by rewrite (sub32_id 0 1) by lia.
  - unfold wr. destruct (Z.leb_spec 0 fo); [|done].
    destruct (Z.ltb_spec fo (Z.of_nat (length (calloc 0 n)))); [lia|done].
Qed.

Lemma create_rra_time_offset_unchecked_witness :
  create_rra_time (one_buffer "integer" 300 400 7 6) 0
  = Fault (OutOfBounds "time_rra" 7).
Proof.
  apply (create_rra_time_offset_unchecked (one_buffer "integer" 300 400 7 6) 0
           (mk_dat_sub_s 0 0 0 0 0 300 400 0 0 (Some []) 7 6 0 0 (Some []) 0 (Some []) None)).
  - reflexivity.
  - cbn. lia.
Defined.

(** * The metadata decoder on arbitrary streams *)

Lemma bind_Ret_inv {A B} (m : outcome A) (k : A → outcome B) (b : B) :
  m ≫= k = Ret b → ∃ a, m = Ret a ∧ k a = Ret b.
Proof. destruct m as [a|f]; [by exists a|done]. Qed.

Lemma cstr_full (l m : list byte) : cstr l = m → length l = length m → l = m.
Proof.
  revert m. induction l as [|b l IH]; intros m; cbn [cstr].
  - by intros <-.
  - destruct (Byte.eqb b Byte.x00); intros <-; cbn [length]; [done|].
    intros [= Hlen]. f_equal. by apply IH.
Qed.

Lemma bad_magic_streq (fp : list byte) :
  take 17 fp ≠ bytes_of MAGIC →
  streq (take 17 fp ++ replicate (17 - length (take 17 fp)) Byte.x00) MAGIC = false.
Proof.
  intros Hne. unfold streq. apply bool_decide_eq_false. intros Heq.
  apply cstr_full in Heq.
  2: { rewrite length_app, length_replicate.
       assert (length (take 17 fp) ≤ 17)%nat by (rewrite length_take; lia).
       change (length (bytes_of MAGIC)) with 17%nat. lia. }
  destruct (decide (length (take 17 fp) = 17%nat)) as [Hfull|Hshort].
  - rewrite Hfull in Heq. cbn [Nat.sub replicate] in Heq.
    rewrite app_nil_r in Heq. done.
  - assert (Hin : Byte.x00 ∈ bytes_of MAGIC).
    { rewrite <- Heq. apply elem_of_app. right.
      apply elem_of_replicate. split; [done|].
      assert (length (take 17 fp) ≤ 17)%nat by (rewrite length_take; lia). lia. }
    revert Hin. vm_compute. intros Hin.
    repeat (apply elem_of_cons in Hin as [Hin|Hin]; [discriminate|]).
    by apply elem_of_nil in Hin.
Qed.

(** X6.  A stream that does not start with the 17 bytes of the magic string,
    a stream shorter than 17 bytes included, is not decoded: [read_dat_file]
    prints [Bad magic number] and returns a Device without Buffers, all of
    whose text fields, the identifier included, are null pointers. *)
Theorem read_dat_file_bad_magic (fp : list byte) :
  take 17 fp ≠ bytes_of MAGIC →
  ∃ data,
    read_dat_file (Some fp) = Ret (data, ["Bad magic number"]) ∧
    n_sets data = 0 ∧
    subset data = [None; None; None; None] ∧
    deviceUuid data = None ∧ deviceVar data = None ∧
    deviceSvc data = None ∧ sampleType data = None.
Proof.
  intros Hne. unfold read_dat_file. cbn [deref mbind outcome_bind].
  rewrite (bad_magic_streq fp Hne). eexists. split; [reflexivity|]. done.
Qed.

Lemma read_dat_file_bad_magic_witness :
  ∃ data,
    read_dat_file (Some (bytes_of "hcb_rrd_09082011B-and-more"))
      = Ret (data, ["Bad magic number"]) ∧
    n_sets data = 0 ∧
    subset data = [None; None; None; None] ∧
    deviceUuid data = None ∧ deviceVar data = None ∧
    deviceSvc data = None ∧ sampleType data = None.
Proof. apply read_dat_file_bad_magic. vm_compute. discriminate. Defined.

(** X7.  The file of a placeholder Device decodes to a Device without
    Buffers whatever follows its header: the bytes behind the header are not
    read, and nothing is printed. *)
Theorem read_dat_file_placeholder (d : device) (rest : list byte) :
  wf_device d →
  cstr (d_uuid d) = bytes_of "placeholder" →
  read_dat_file (Some (enc_header d ++ rest)) = Ret (dat_of d [], []) ∧
  n_sets (dat_of d []) = 0.
Proof.
  intros Hd Hph. split; [|done]. rewrite read_dat_file_header by done.
  cbn [read_subsets dat_of deviceUuid deref mbind outcome_bind].
  unfold streq. by rewrite bool_decide_eq_true_2.
Qed.

Lemma read_dat_file_placeholder_witness :
  read_dat_file
    (Some (enc_header (mk_device (bytes_of "placeholder") [] [] [])
             ++ bytes_of "anything"))
    = Ret (dat_of (mk_device (bytes_of "placeholder") [] [] []) [], []) ∧
  n_sets (dat_of (mk_device (bytes_of "placeholder") [] [] []) []) = 0.
Proof.
  apply read_dat_file_placeholder.
  - split; vm_compute; reflexivity.
  - vm_compute. reflexivity.
Defined.

(** X8.  Any byte behind four complete Buffers makes the decode loop store a
    fifth record pointer behind the four-element array of the Device. *)
Theorem read_dat_file_bytes_after_four (d : device) (b1 b2 b3 b4 : buffer)
    (rest : list byte) :
  wf_device d →
  wf_buffer b1 → wf_buffer b2 → wf_buffer b3 → wf_buffer b4 →
  cstr (d_uuid d) ≠ bytes_of "placeholder" →
  rest ≠ [] →
  read_dat_file
    (Some (enc_dat d [b1; b2; b3; b4] ++ rest))
  = Fault (OutOfBounds "subset" 4).
Proof.
  intros. unfold enc_dat. cbn [map concat]. rewrite app_nil_r.
  rewrite <- !app_assoc. by apply read_dat_file_more_than_four.
Qed.

Lemma read_dat_file_bytes_after_four_witness :
  read_dat_file
    (Some (enc_dat device_1 [buffer_1; buffer_1; buffer_1; buffer_1] ++ [Byte.x2a]))
  = Fault (OutOfBounds "subset" 4).
Proof.
  assert (Hb : wf_buffer buffer_1)
    by (split; vm_compute; first [reflexivity | split; [discriminate|reflexivity]]).
  apply (read_dat_file_bytes_after_four device_1 buffer_1 buffer_1 buffer_1 buffer_1
           [Byte.x2a]).
  - split; vm_compute; reflexivity.
  - exact Hb.
  - exact Hb.
  - exact Hb.
  - exact Hb.
  - vm_compute. discriminate.
  - discriminate.
Defined.

(** X29.  A file that ends within the first record of a Device that is not
    the placeholder, or right behind its header, makes [read_dat_file]
    access the slot before its array of record pointers: the loop counts the
    record short and unlinks the record before it, which for the first
    record is [subset[-1]]. *)
Theorem read_dat_file_first_record_truncated (d : device) (b : buffer) (k : nat) :
  wf_device d →
  wf_buffer b →
  cstr (d_uuid d) ≠ bytes_of "placeholder" →
  (k < length (enc_buffer (streq (d_sampleType d) "integer") b))%nat →
  read_dat_file
    (Some (enc_header d ++ take k (enc_buffer (streq (d_sampleType d) "integer") b)))
  = Fault (OutOfBounds "subset" (-1)).
Proof.
  intros Hd Hb Hph Hk.
  assert (Hne : streq (d_uuid d) "placeholder" = false)
    by (unfold streq; by rewrite bool_decide_eq_false).
  rewrite read_dat_file_header by done.
  cbn [read_subsets dat_of deviceUuid sampleType subset deref mbind outcome_bind].
  rewrite Hne. cbn [negb].
  rewrite wr_Ret by (vm_compute; split; [discriminate|reflexivity]).
  cbn [mbind outcome_bind].
  destruct (Z.gtb_spec 0 0); [lia|]. cbn [mbind outcome_bind].
  destruct (read_subset_truncated (streq (d_sampleType d) "integer") b [] k Hb Hk)
    as (s & cnt & fp' & Hread & Hshort).
  rewrite app_nil_r in Hread. rewrite Hread. cbn [mbind outcome_bind].
  rewrite wr_Ret by (rewrite length_insert; vm_compute; split; [discriminate|reflexivity]).
  cbn [mbind outcome_bind].
  destruct (Z.ltb_spec cnt (add32 (add32 (add32 (cons_len s) (int_len s)) (binL_len s)) 9));
    [|lia].
  rewrite (sub32_id 0 1) by lia. unfold link.
  by rewrite rd_oob by lia.
Qed.

Lemma read_dat_file_first_record_truncated_witness :
  read_dat_file
    (Some (enc_header device_1
             ++ take 30 (enc_buffer (streq (d_sampleType device_1) "integer") buffer_1)))
  = Fault (OutOfBounds "subset" (-1)).
Proof.
  apply (read_dat_file_first_record_truncated device_1 buffer_1 30).
  - split; vm_compute; reflexivity.
  - split; vm_compute; first [reflexivity | split; [discriminate|reflexivity]].
  - vm_compute. discriminate.
  - vm_compute. repeat constructor.
Defined.

(** * The chain of Buffers that the decoder builds *)

Lemma wr_Ret_inv {A} a (arr : list A) i x arr' :
  wr a arr i x = Ret arr' →
  0 ≤ i < Z.of_nat (length arr) ∧ arr' = <[Z.to_nat i := x]> arr.
Proof.
  unfold wr. destruct (Z.leb_spec 0 i); [|done].
  destruct (Z.ltb_spec i (Z.of_nat (length arr))); [|done].
  intros [= <-]. split; [lia|done].
Qed.

Lemma read_subset_next integer fp s cnt fp' :
  read_subset integer fp = Ret (s, cnt, fp') → next s = None.
Proof.
  unfold read_subset.
  repeat match goal with
         | |- context [fread_int ?x] => destruct (fread_int x) as [[? ?] ?]
         | |- context [fread_double ?x] => destruct (fread_double x) as [[? ?] ?]
         | |- context [if integer then _ else _] => destruct integer
         | |- context [fread_buf ?p ?b ?l ?x] =>
           destruct (fread_buf p b l x) as [[[? ?] ?]|]; cbn [mbind outcome_bind]
         | |- Fault _ = Ret _ → _ => discriminate
         end;
  by intros [= <- _ _].
Qed.

Lemma link_Ret_inv arr k nx arr' :
  link arr k nx = Ret arr' →
  ∃ s, 0 ≤ k < Z.of_nat (length arr) ∧ arr !! Z.to_nat k = Some (Some s) ∧
       arr' = <[Z.to_nat k := Some (set_next s nx)]> arr.
Proof.
  unfold link. intros H.
  apply bind_Ret_inv in H as (p & Hp & H). apply rd_Ret_inv in Hp as [Hk Hp].
  apply bind_Ret_inv in H as (s & Hs & H). destruct p as [s'|]; [|done].
  injection Hs as ->. apply wr_Ret_inv in H as [_ ->]. by exists s.
Qed.

Lemma chain_linked data j :
  n_sets data = j → 0 ≤ j ≤ Z.of_nat (length (subset data)) →
  length (subset data) = 4%nat → chain j (subset data) → linked data.
Proof.
  intros Hn Hj Hlen Hch. unfold linked. rewrite Hn.
  intros i Hi. destruct (Hch i Hi) as (s & Hs & Hnx). exists s. split; [|done].
  unfold subset_at. by rewrite (rd_lookup _ _ i (Some s)) by (lia || done).
Qed.

Lemma read_subsets_linked fuel : ∀ j data fp out data' out',
  n_sets data = j → 0 ≤ j →
  length (subset data) = 4%nat → chain j (subset data) →
  read_subsets fuel j data fp out = Ret (data', out') →
  linked data'.
Proof.
  induction fuel as [|fuel IH]; intros j data fp out data' out' Hn Hj Hlen Hch; [done|].
  cbn [read_subsets]. intros H.
  apply bind_Ret_inv in H as (uuid & _ & H).
  destruct (negb (streq uuid "placeholder")).
  2: { injection H as <- <-. apply (chain_linked data j); try done.
       split; [done|]. destruct (Z_le_dec j 4) as [?|Hgt]; [lia|].
       destruct (Hch 4) as (s & Hs & _); [lia|].
       apply lookup_lt_Some in Hs. cbn in Hs. lia. }
  apply bind_Ret_inv in H as (arr0 & Harr0 & H).
  apply wr_Ret_inv in Harr0 as [Hj4 ->]. rewrite Hlen in Hj4.
  rewrite (add32_id j 1) in H by lia.
  apply bind_Ret_inv in H as (arr1 & Harr1 & H).
  apply bind_Ret_inv in H as (st & _ & H).
  apply bind_Ret_inv in H as ([[s cnt] fp'] & Hrec & H).
  apply read_subset_next in Hrec as Hnext.
  apply bind_Ret_inv in H as (arr2 & Harr2 & H).
  apply wr_Ret_inv in Harr2 as [_ ->].
  (* the array before the record is stored: the record before is linked *)
  assert (length arr1 = 4%nat ∧
            ∀ i, 0 ≤ i < j →
              ∃ s, arr1 !! Z.to_nat i = Some (Some s) ∧
                   next s = Some (i + 1)) as [Hlen1 Hch1].
  { destruct (Z.gtb_spec j 0) as [Hpos|Hzero].
    - rewrite (sub32_id j 1) in Harr1 by lia.
      apply link_Ret_inv in Harr1 as (p & _ & Hp & ->).
      split; [by rewrite !length_insert|].
      intros i Hi. destruct (Z.eq_dec i (j - 1)) as [->|Hne].
      + eexists. rewrite list_lookup_insert_eq by (rewrite length_insert; lia).
        split; [done|]. cbn. f_equal. lia.
      + rewrite list_lookup_insert_ne by lia.
        rewrite list_lookup_insert_ne by lia.
        destruct (Hch i Hi) as (si & Hsi & Hnx). exists si. split; [done|].
        rewrite Hnx. destruct (Z.ltb_spec (i + 1) j); [done|lia].
    - injection Harr1 as <-. split; [by rewrite length_insert|]. intros; lia. }
  assert (Hch2 : chain (j + 1) (<[Z.to_nat j := Some s]> arr1)).
  { intros i Hi. destruct (Z.eq_dec i j) as [->|Hne].
    - exists s. rewrite list_lookup_insert_eq by lia. split; [done|].
      rewrite Hnext. destruct (Z.ltb_spec (j + 1) (j + 1)); [lia|done].
    - rewrite list_lookup_insert_ne by lia.
      destruct (Hch1 i) as (si & Hsi & Hnx); [lia|]. exists si. split; [done|].
      rewrite Hnx. destruct (Z.ltb_spec (i + 1) (j + 1)); [done|lia]. }
  destruct (cnt <? _).
  - apply bind_Ret_inv in H as (arr3 & Harr3 & H). injection H as <- <-.
    rewrite (sub32_id (j + 1) 1) by lia.
    destruct (Z_le_dec j 0) as [Hz|Hpos].
    { apply link_Ret_inv in Harr3 as (p & Hk & _).
      assert (j = 0) as -> by lia. rewrite (sub32_id 0 1) in Hk by lia. lia. }
    rewrite (sub32_id j 1) in Harr3 by lia.
    apply link_Ret_inv in Harr3 as (p & _ & Hp & ->).
    apply (chain_linked _ (j + 1 - 1)); cbn [set_subsets n_sets subset].
    + done.
    + rewrite !length_insert. lia.
    + by rewrite !length_insert.
    + intros i Hi. destruct (Z.eq_dec i (j - 1)) as [->|Hne].
      * eexists. rewrite list_lookup_insert_eq by (rewrite length_insert; lia).
        split; [done|]. cbn. destruct (Z.ltb_spec (j - 1 + 1) (j + 1 - 1)); [lia|done].
      * rewrite list_lookup_insert_ne by lia.
        rewrite list_lookup_insert_ne by lia.
        destruct (Hch1 i) as (si & Hsi & Hnx); [lia|]. exists si. split; [done|].
        rewrite Hnx. destruct (Z.ltb_spec (i + 1) (j + 1 - 1)); [done|lia].
  - destruct fp' as [|x fp'].
    + injection H as <- <-. apply (chain_linked _ (j + 1)); cbn [set_subsets n_sets subset].
      * done.
      * rewrite length_insert. lia.
      * by rewrite length_insert.
      * done.
    + apply (IH (j + 1) _ _ _ _ _) in H; cbn [set_subsets n_sets subset]; try done.
      * lia.
      * by rewrite length_insert.
Qed.

Lemma read_dat_file_linked_aux (file : binary_file) (data : dat_s)
    (stdout : list string) :
  read_dat_file file = Ret (data, stdout) → linked data.
Proof.
  unfold read_dat_file. intros H.
  apply bind_Ret_inv in H as (fp & _ & H).
  destruct (streq _ MAGIC).
  2: { injection H as <- <-. intros i Hi. cbn in Hi. lia. }
  destruct (fread_int (drop 17 fp)) as [[uuid_len ?] fp1].
  apply bind_Ret_inv in H as ([[uuid ?] fp2] & _ & H).
  destruct (fread_int fp2) as [[var_len ?] fp3].
  apply bind_Ret_inv in H as ([[var ?] fp4] & _ & H).
  destruct (fread_int fp4) as [[svc_len ?] fp5].
  apply bind_Ret_inv in H as ([[svc ?] fp6] & _ & H).
  destruct (fread_int fp6) as [[st_len ?] fp7].
  apply bind_Ret_inv in H as ([[st ?] fp8] & _ & H).
  apply read_subsets_linked in H; try done. intros i Hi; lia.
Qed.

(** X9.  When [read_dat_file] decodes a file without an access outside its
    arrays (the array [subset] has four slots, a fifth record is stored
    behind it), every index below [n_sets] holds a record, so that an index
    that passes the range test of [get_csv_path] and [get_rra_path] can be
    dereferenced, and the records are chained by [next], the last one
    pointing to none. *)
Theorem read_dat_file_linked (file : binary_file) (data : dat_s)
    (stdout : list string) :
  read_dat_file file = Ret (data, stdout) → linked data.
Proof. apply read_dat_file_linked_aux. Qed.

Lemma read_dat_file_linked_witness :
  linked (dat_of device_1 [buffer_1; buffer_1; buffer_1]).
Proof.
  apply (read_dat_file_linked
           (Some (enc_dat device_1 [buffer_1; buffer_1; buffer_1]))
           (dat_of device_1 [buffer_1; buffer_1; buffer_1]) []).
  vm_compute. reflexivity.
Defined.

(** * The merge on arbitrary arrays *)

Lemma for_each_seqZ_inv {S} (P : Z → S → Prop) (body : Z → S → outcome S) (len : nat) :
  ∀ a s s', P a s →
  (∀ i s s1, a ≤ i < a + Z.of_nat len → P i s → body i s = Ret s1 → P (i + 1) s1) →
  for_each (seqZ a (Z.of_nat len)) body s = Ret s' → P (a + Z.of_nat len) s'.
Proof.
  induction len as [|len IH]; intros a s s' HP Hbody.
  - cbn. intros [= <-]. by rewrite Z.add_0_r.
  - rewrite Nat2Z.inj_succ, seqZ_cons by lia. cbn [for_each]. intros H.
    apply bind_Ret_inv in H as (s1 & Hs1 & H).
    replace (Z.pred (Z.succ (Z.of_nat len))) with (Z.of_nat len) in H by lia.
    apply (IH (Z.succ a) s1 s') in H.
    + by replace (a + Z.succ (Z.of_nat len)) with (Z.succ a + Z.of_nat len) by lia.
    + apply (Hbody a s s1); [lia|done..].
    + intros i t t1 Hi. apply Hbody. lia.
Qed.

Lemma sort_data_sound (data : dat_s) (sub : Z) (s : dat_sub_s)
    (data_csv data_rra time_csv time_rra out : list Z) :
  subset_at data sub = Ret s →
  sort_data_for_rra data sub data_csv data_rra time_csv time_rra = Ret out →
  length out = Z.to_nat (n_samples s) ∧
  ∀ (i : nat) x, out !! i = Some x →
    data_rra !! i = Some x ∨
    ∃ (k : nat) t, time_rra !! i = Some t ∧ time_csv !! k = Some t ∧
                   data_csv !! k = Some x.
Proof.
  intros Hsub H. unfold sort_data_for_rra in H.
  apply bind_Ret_inv in H as (ty & _ & H). rewrite Hsub in H.
  cbn [mbind outcome_bind] in H.
  apply bind_Ret_inv in H as (tmp & Hcopy & H).
  apply bind_Ret_inv in H as (t_min & _ & H).
  apply bind_Ret_inv in H as (t_max & _ & H).
  set (n := n_samples s) in *.
  set (Q := λ tmp : list Z,
    length tmp = Z.to_nat n ∧
    ∀ (i : nat) x, tmp !! i = Some x →
      data_rra !! i = Some x ∨
      ∃ (k : nat) t, time_rra !! i = Some t ∧ time_csv !! k = Some t ∧
                     data_csv !! k = Some x).
  change (Q out).
  destruct (Z_le_dec n 0) as [Hn|Hn].
  { rewrite seqZ_nil in Hcopy, H by lia. injection Hcopy as <-. injection H as <-.
    unfold Q, calloc. replace (Z.to_nat n) with 0%nat by lia. cbn [replicate].
    split; [done|]. intros i x Hx. by rewrite lookup_nil in Hx. }
  assert (HQ : Q tmp).
  { replace n with (Z.of_nat (Z.to_nat n)) in Hcopy at 1 by lia.
    apply (for_each_seqZ_inv
             (λ i tmp, length tmp = Z.to_nat n ∧
                ∀ k : nat, Z.of_nat k < i → tmp !! k = data_rra !! k ∧ is_Some (tmp !! k)))
      in Hcopy.
    - destruct Hcopy as [Hlen Hc]. split; [done|]. intros i x Hx. left.
      apply lookup_lt_Some in Hx as Hi. destruct (Hc i) as [<- _]; [lia|done].
    - split; [unfold calloc; by rewrite length_replicate|]. intros; lia.
    - intros i t t1 Hi [Hlen Hc] Hb.
      apply bind_Ret_inv in Hb as (x & Hx & Hb). apply rd_Ret_inv in Hx as [_ Hx].
      apply wr_Ret_inv in Hb as [_ ->]. split; [by rewrite length_insert|].
      intros k Hk. destruct (decide (k = Z.to_nat i)) as [->|Hne].
      + rewrite list_lookup_insert_eq by lia. by rewrite Hx.
      + rewrite list_lookup_insert_ne by done. apply Hc. lia. }
  replace n with (Z.of_nat (Z.to_nat n)) in H at 1 by lia.
  apply (for_each_seqZ_inv (λ _, Q)) in H; [done..|].
  intros i t t1 Hi [Hlen Hq] Hb.
  apply bind_Ret_inv in Hb as (c & _ & Hb).
  destruct ((c >=? t_min) && (c <=? t_max)).
  2: { by injection Hb as <-. }
  apply bind_Ret_inv in Hb as (key & Hkey & Hb). apply rd_Ret_inv in Hkey as [_ Hkey].
  apply bind_Ret_inv in Hb as (index & Hidx & Hb).
  destruct (Z.geb_spec index 0) as [Hpos|Hneg].
  2: { by injection Hb as <-. }
  apply bind_Ret_inv in Hb as (x & Hx & Hb). apply rd_Ret_inv in Hx as [_ Hx].
  apply wr_Ret_inv in Hb as [_ ->]. split; [by rewrite length_insert|].
  intros k y Hy. destruct (decide (k = Z.to_nat i)) as [->|Hne].
  - rewrite list_lookup_insert_eq in Hy by lia. injection Hy as <-. right.
    exists (Z.to_nat index), key. split; [done|]. split; [|done].
    apply search_Ret in Hidx as [->|[_ Hfound]]; [lia|done].
  - rewrite list_lookup_insert_ne in Hy by done. by apply Hq.
Qed.

(** X10.  Whatever the arrays hold, sorted or not, a merge that returns has
    put nothing into a slot but the value the destination had there, or an
    import value whose timestamp is the timestamp of that slot. *)
Theorem merge_overwrites_matching (data : dat_s) (sub : Z) (s : dat_sub_s)
    (data_csv data_rra time_csv time_rra out : list Z) :
  subset_at data sub = Ret s →
  sort_data_for_rra data sub data_csv data_rra time_csv time_rra = Ret out →
  length out = Z.to_nat (n_samples s) ∧
  ∀ (i : nat) x, out !! i = Some x →
    data_rra !! i = Some x ∨
    ∃ (k : nat) t, time_rra !! i = Some t ∧ time_csv !! k = Some t ∧
                   data_csv !! k = Some x.
Proof. apply sort_data_sound. Qed.

Lemma merge_overwrites_matching_witness :
  length [77; 88; 12; 13] = Z.to_nat 4 ∧
  ∀ (i : nat) x, [77; 88; 12; 13] !! i = Some x →
    [10; 11; 12; 13] !! i = Some x ∨
    ∃ (k : nat) t, [300; 400; 100; 200] !! i = Some t ∧
                   [300; 400; 500; 600; 700] !! k = Some t ∧
                   [77; 88; 0; 0; 0] !! k = Some x.
Proof.
  apply (merge_overwrites_matching (one_buffer "integer" 300 400 1 4) 0
           (mk_dat_sub_s 0 0 0 0 0 300 400 0 0 (Some []) 1 4 0 0 (Some []) 0 (Some []) None)
           [77; 88; 0; 0; 0] [10; 11; 12; 13] [300; 400; 500; 600; 700]
           [300; 400; 100; 200]).
  - reflexivity.
  - vm_compute. reflexivity.
Defined.

(** * The merge of an import sorted by time *)









(** The merge of the sorted import [(100,91), (200,92), (300,93), (400,94)]
    into the destination values [[10,11,12,13]] at the timestamps
    [[300,400,100,200]]: every slot receives the import value of its own
    timestamp.  With the import [(50,91), (200,92), (300,93), (400,94)]
    slots 1 and 3 do, slot 0 is guarded by the import timestamp 50 and
    slot 2 holds a timestamp that the import lacks. *)
Example merge_sorted_import :
  sort_data_for_rra (one_buffer "integer" 300 400 1 4) 0
    [91; 92; 93; 94] [10; 11; 12; 13] [100; 200; 300; 400] [300; 400; 100; 200]
  = Ret [93; 94; 91; 92] ∧
  sort_data_for_rra (one_buffer "integer" 300 400 1 4) 0
    [91; 92; 93; 94] [10; 11; 12; 13] [50; 200; 300; 400] [300; 400; 100; 200]
  = Ret [10; 94; 12; 92].
Proof. split; reflexivity. Qed.

(** * The merge of a Buffer whose newest sample lies in the last slot *)



(** * find_max *)

(** X11.  For [1 <= n] elements of an array that holds them, [find_max]
    returns the index of the first maximum: no element of [vec[0..n-1]] is
    larger than the one at the index returned, and every element before it
    is smaller. *)
Theorem find_max_first_maximum (vec : list Z) (n : Z) :
  1 ≤ n ≤ Z.of_nat (length vec) →
  ∃ j, find_max vec n = Ret j ∧ 0 ≤ j < n ∧
       (∀ i, 0 ≤ i < n → at_ vec i ≤ at_ vec j) ∧
       (∀ i, 0 ≤ i < j → at_ vec i < at_ vec j).
Proof.
  intros Hn. unfold find_max. rewrite (rd_at _ vec 0) by lia. cbn [mbind outcome_bind].
  match goal with |- context [for_each _ ?body _] =>
    destruct (for_each_seqZ
                (λ i (st : Z * Z),
                   0 ≤ st.2 < i ∧ st.1 = at_ vec st.2 ∧
                   (∀ k, 0 ≤ k < i → at_ vec k ≤ st.1) ∧
                   (∀ k, 0 ≤ k < st.2 → at_ vec k < st.1))
                body (n - 1) 1 (at_ vec 0, 0))
      as ([max j] & -> & Hj & Hmax & Hall & Hfirst)
  end.
  - lia.
  - cbn. repeat split; try lia. intros k Hk. by assert (k = 0) as -> by lia.
  - intros i [max j] Hi (Hj & Hmax & Hall & Hfirst). cbn [fst snd] in *.
    rewrite (rd_at _ vec i) by lia. cbn [mbind outcome_bind].
    destruct (Z.gtb_spec (at_ vec i) max) as [Hgt|Hle]; eexists; (split; [reflexivity|]);
      cbn [fst snd]; repeat split; try lia.
    + intros k Hk. destruct (Z.eq_dec k i) as [->|]; [lia|]. specialize (Hall k). lia.
    + intros k Hk. specialize (Hall k). lia.
    + intros k Hk. destruct (Z.eq_dec k i) as [->|]; [lia|]. apply Hall. lia.
    + done.
  - cbn [mbind outcome_bind fst snd] in *. exists j.
    replace (1 + (n - 1)) with n in * by lia. subst max. done.
Qed.

Lemma find_max_first_maximum_witness :
  ∃ j, find_max [3; 9; 2; 9; 5] 5 = Ret j ∧ 0 ≤ j < 5 ∧
       (∀ i, 0 ≤ i < 5 → at_ [3; 9; 2; 9; 5] i ≤ at_ [3; 9; 2; 9; 5] j) ∧
       (∀ i, 0 ≤ i < j → at_ [3; 9; 2; 9; 5] i < at_ [3; 9; 2; 9; 5] j).
Proof. apply find_max_first_maximum. cbn. lia. Defined.

(** * The paths of the import file and of the payload file *)


Lemma fill_fits buf text :
  Z.of_nat (length text) < MAX_LEN → fill buf text = Ret text.
Proof.
  intros H. unfold fill.
  by destruct (Z.ltb_spec (Z.of_nat (length text)) MAX_LEN); [|lia].
Qed.

Lemma fill_Ret_inv buf text r :
  fill buf text = Ret r → r = text ∧ Z.of_nat (length text) < MAX_LEN.
Proof.
  unfold fill. destruct (Z.ltb_spec (Z.of_nat (length text)) MAX_LEN); [|done].
  by intros [= <-].
Qed.


Lemma in_range_test sub n : 0 ≤ sub < n → (sub >=? 0) && (sub <? n) = true.
Proof.
  intros H. destruct (Z.geb_spec sub 0); [|lia]. by destruct (Z.ltb_spec sub n); [|lia].
Qed.

(** ** [%s] and [strncmp] on the buffer of a field *)









(** ** [sprintf] into a buffer of [MAX_LEN] bytes *)







(** ** The two path builders *)

Section paths.
Context (d : device) (bs : list buffer) (j : nat) (b : buffer).
Context (dir name : list byte).
Hypothesis Hlen : (length bs ≤ 4)%nat.
Hypothesis Hj : bs !! j = Some b.






End paths.





(** X14.  [get_csv_path] and [get_rra_path] return [NULL] for exactly the
    indices outside [0 .. n_sets - 1], whatever the Device holds: such an
    index is reported on the standard output and no record is touched; for
    an index in the range a path is returned unless an access faults. *)
Theorem path_null_iff_out_of_range (data : dat_s) (dir uuid loc : list byte) (sub : Z) :
  ((∃ stdout, get_csv_path dir data sub = Ret (None, stdout)) ↔
   ¬ (0 ≤ sub < n_sets data)) ∧
  ((∃ stdout, get_rra_path data uuid loc sub = Ret (None, stdout)) ↔
   ¬ (0 ≤ sub < n_sets data)) ∧
  (¬ (0 ≤ sub < n_sets data) →
   get_csv_path dir data sub
     = Ret (None, ["transfer-logs: get_csv_path: subset out of range"]) ∧
   get_rra_path data uuid loc sub = Ret (None, ["get_rra_path: subset out of range"])).
Proof.
  assert (Hout : ¬ (0 ≤ sub < n_sets data) → (sub >=? 0) && (sub <? n_sets data) = false).
  { intros H. destruct (Z.geb_spec sub 0); [|done].
    destruct (Z.ltb_spec sub (n_sets data)); [lia|done]. }
  split; [|split].
  - split.
    + intros [stdout H] Hin. unfold get_csv_path in H. rewrite in_range_test in H by done.
      apply bind_Ret_inv in H as (s & _ & H).
      apply bind_Ret_inv in H as (name & _ & H).
      apply bind_Ret_inv in H as (thermstat & _ & H).
      apply bind_Ret_inv in H as (csv_name & _ & H).
      apply bind_Ret_inv in H as (p1 & _ & H).
      apply bind_Ret_inv in H as (p2 & _ & H). done.
    + intros H. unfold get_csv_path. rewrite Hout by done. by eexists.
  - split.
    + intros [stdout H] Hin. unfold get_rra_path in H. rewrite in_range_test in H by done.
      apply bind_Ret_inv in H as (s & _ & H).
      apply bind_Ret_inv in H as (p & _ & H). done.
    + intros H. unfold get_rra_path. rewrite Hout by done. by eexists.
  - intros H. unfold get_csv_path, get_rra_path. by rewrite Hout.
Qed.

Lemma path_null_iff_out_of_range_witness :
  ((∃ stdout, get_csv_path (bytes_of "/tmp/") (dat_of device_1 [buffer_1]) 1
              = Ret (None, stdout)) ↔
   ¬ (0 ≤ 1 < n_sets (dat_of device_1 [buffer_1]))) ∧
  ((∃ stdout, get_rra_path (dat_of device_1 [buffer_1]) (bytes_of "uuid-1")
                (bytes_of "/rrd/") 1 = Ret (None, stdout)) ↔
   ¬ (0 ≤ 1 < n_sets (dat_of device_1 [buffer_1]))) ∧
  (¬ (0 ≤ 1 < n_sets (dat_of device_1 [buffer_1])) →
   get_csv_path (bytes_of "/tmp/") (dat_of device_1 [buffer_1]) 1
     = Ret (None, ["transfer-logs: get_csv_path: subset out of range"]) ∧
   get_rra_path (dat_of device_1 [buffer_1]) (bytes_of "uuid-1") (bytes_of "/rrd/") 1
     = Ret (None, ["get_rra_path: subset out of range"])).
Proof.
  apply (path_null_iff_out_of_range (dat_of device_1 [buffer_1]) (bytes_of "/tmp/")
           (bytes_of "uuid-1") (bytes_of "/rrd/") 1).
Defined.

Lemma read_subsets_name fuel : ∀ j data fp out data' out',
  read_subsets fuel j data fp out = Ret (data', out') →
  rrd_device_name data' = rrd_device_name data.
Proof.
  induction fuel as [|fuel IH]; intros j data fp out data' out'; [done|].
  cbn [read_subsets]. intros H.
  apply bind_Ret_inv in H as (uuid & _ & H).
  destruct (negb (streq uuid "placeholder")); [|by injection H as <- <-].
  apply bind_Ret_inv in H as (arr0 & _ & H).
  apply bind_Ret_inv in H as (arr1 & _ & H).
  apply bind_Ret_inv in H as (st & _ & H).
  apply bind_Ret_inv in H as ([[s cnt] fp'] & _ & H).
  apply bind_Ret_inv in H as (arr2 & _ & H).
  destruct (cnt <? _).
  - apply bind_Ret_inv in H as (arr3 & _ & H). by injection H as <- <-.
  - destruct fp' as [|x fp'].
    + by injection H as <- <-.
    + by apply IH in H.
Qed.

Lemma read_dat_file_name file data stdout :
  read_dat_file file = Ret (data, stdout) → rrd_device_name data = None.
Proof.
  unfold read_dat_file. intros H.
  apply bind_Ret_inv in H as (fp & _ & H).
  destruct (streq _ MAGIC); [|by injection H as <- <-].
  destruct (fread_int (drop 17 fp)) as [[uuid_len ?] fp1].
  apply bind_Ret_inv in H as ([[uuid ?] fp2] & _ & H).
  destruct (fread_int fp2) as [[var_len ?] fp3].
  apply bind_Ret_inv in H as ([[var ?] fp4] & _ & H).
  destruct (fread_int fp4) as [[svc_len ?] fp5].
  apply bind_Ret_inv in H as ([[svc ?] fp6] & _ & H).
  destruct (fread_int fp6) as [[st_len ?] fp7].
  apply bind_Ret_inv in H as ([[st ?] fp8] & _ & H).
  by apply read_subsets_name in H.
Qed.

(** X15.  The decoder leaves the name of the Device a null pointer.  Until a
    caller stores a name, [get_csv_path] dereferences that null pointer for
    every Buffer of the Device; it does so again when the name that the
    caller stores is the null pointer of a failed lookup. *)
Theorem get_csv_path_needs_name (file : binary_file) (data : dat_s)
    (stdout : list string) (dir : list byte) (sub : Z) :
  read_dat_file file = Ret (data, stdout) →
  0 ≤ sub < n_sets data →
  get_csv_path dir data sub = Fault (NullPointer "rrd_device_name") ∧
  get_csv_path dir (set_device_name data None) sub
    = Fault (NullPointer "rrd_device_name").
Proof.
  intros Hread Hin.
  pose proof (read_dat_file_linked_aux file data stdout Hread) as Hsub.
  destruct (Hsub sub Hin) as (s & Hs & _).
  apply read_dat_file_name in Hread.
  unfold get_csv_path.
  change (n_sets (set_device_name data None)) with (n_sets data).
  change (subset_at (set_device_name data None) sub) with (subset_at data sub).
  rewrite in_range_test by done. rewrite Hs.
  cbn [mbind outcome_bind set_device_name rrd_device_name]. by rewrite Hread.
Qed.

Lemma get_csv_path_needs_name_witness :
  get_csv_path (bytes_of "/tmp/") (dat_of device_1 [buffer_1; buffer_1]) 1
    = Fault (NullPointer "rrd_device_name") ∧
  get_csv_path (bytes_of "/tmp/")
    (set_device_name (dat_of device_1 [buffer_1; buffer_1]) None) 1
    = Fault (NullPointer "rrd_device_name").
Proof.
  apply (get_csv_path_needs_name (Some (enc_dat device_1 [buffer_1; buffer_1]))
           (dat_of device_1 [buffer_1; buffer_1]) []).
  - vm_compute. reflexivity.
  - cbn. lia.
Defined.



(** A path of 267 bytes is written behind [csv_path] by [strcat].  With
    the name in a buffer of its eight bytes, which holds no NUL, the [%s] of
    the name reads behind that buffer first. *)
Example get_csv_path_too_long_example :
  get_csv_path (replicate 250 Byte.x78)
    (set_device_name (dat_of device_3 [buffer_3])
       (Some (bytes_of "gas_flow" ++ [Byte.x00]))) 0
  = Fault (OutOfBounds "csv_path" MAX_LEN) ∧
  get_csv_path (replicate 250 Byte.x78)
    (set_device_name (dat_of device_3 [buffer_3]) (Some (bytes_of "gas_flow"))) 0
  = Fault (OutOfBounds "rrd_device_name" 8).
Proof. split; vm_compute; reflexivity. Qed.

(** * The export of a payload file *)



Lemma walk_down_length itv fuel : ∀ t j t',
  walk_down fuel itv t j = Ret t' → length t' = length t.
Proof.
  induction fuel as [|fuel IH]; intros t j t'; [done|]. cbn [walk_down]. intros H.
  apply bind_Ret_inv in H as (x & _ & H).
  apply bind_Ret_inv in H as (t1 & Ht1 & H).
  apply wr_Ret_inv in Ht1 as [_ ->].
  destruct (sub32 j 1 >? 0).
  - apply IH in H. by rewrite H, length_insert.
  - injection H as <-. by rewrite length_insert.
Qed.

Lemma walk_wrap_length itv fo fuel : ∀ t j t',
  walk_wrap fuel itv fo t j = Ret t' → length t' = length t.
Proof.
  induction fuel as [|fuel IH]; intros t j t'; [done|]. cbn [walk_wrap]. intros H.
  apply bind_Ret_inv in H as (x & _ & H).
  apply bind_Ret_inv in H as (t1 & Ht1 & H).
  apply wr_Ret_inv in Ht1 as [_ ->].
  destruct (sub32 j 1 >? add32 fo 1).
  - apply IH in H. by rewrite H, length_insert.
  - injection H as <-. by rewrite length_insert.
Qed.

(** A timeline that is returned has the [n_samples] slots of its Buffer,
    one at least. *)
Lemma create_rra_time_length data sub s time_rra :
  subset_at data sub = Ret s →
  create_rra_time data sub = Ret time_rra →
  0 < n_samples s ∧ Z.of_nat (length time_rra) = n_samples s.
Proof.
  intros Hsub H. unfold create_rra_time in H. rewrite Hsub in H.
  cbn [mbind outcome_bind] in H.
  apply bind_Ret_inv in H as (t0 & Ht0 & H). apply wr_Ret_inv in Ht0 as [Hfo ->].
  unfold calloc in Hfo. rewrite length_replicate in Hfo.
  apply bind_Ret_inv in H as (t1 & Ht1 & H). apply walk_down_length in Ht1.
  apply bind_Ret_inv in H as (x & _ & H).
  apply bind_Ret_inv in H as (t2 & Ht2 & H). apply wr_Ret_inv in Ht2 as [_ ->].
  apply walk_wrap_length in H.
  rewrite H, length_insert, Ht1, length_insert. unfold calloc.
  rewrite length_replicate. lia.
Qed.





(** X18.  [write_data_to_csv] does not test what [read_rra_file] returns:
    when the payload file cannot be opened the loop over the slots reads
    through the null pointer. *)
Theorem write_data_to_csv_missing_payload (data : dat_s) (sub : Z) (s : dat_sub_s)
    (ty : bool) (time_rra : list Z) (csv_path rra_path : string) :
  is_integer data = Ret ty →
  subset_at data sub = Ret s →
  create_rra_time data sub = Ret time_rra →
  write_data_to_csv true None csv_path rra_path data sub = Fault (NullPointer "rra").
Proof.
  intros Hty Hsub Htime.
  destruct (create_rra_time_length data sub s time_rra Hsub Htime) as [Hn Hlen].
  unfold write_data_to_csv, read_rra_file. rewrite Hty, Htime. cbn [mbind outcome_bind].
  rewrite Hsub. cbn [mbind outcome_bind].
  destruct (Z.eqb_spec (n_samples s) 0); [lia|].
  by rewrite seqZ_cons by lia.
Qed.

Lemma write_data_to_csv_missing_payload_witness :
  write_data_to_csv true None "x.csv" "x.rra" (one_buffer "integer" 300 400 2 6) 0
  = Fault (NullPointer "rra").
Proof.
  apply (write_data_to_csv_missing_payload (one_buffer "integer" 300 400 2 6) 0
           (mk_dat_sub_s 0 0 0 0 0 300 400 0 0 (Some []) 2 6 0 0 (Some []) 0 (Some []) None)
           true [200; 300; 400; -100; 0; 100]); reflexivity.
Defined.



(** * merge_data *)

Lemma import_arrays (rows : list (Z * Z)) (cutoff : Z) (path : string)
    (data : dat_s) (sub : Z) (s : dat_sub_s) (integer : bool) :
  is_integer data = Ret integer →
  subset_at data sub = Ret s →
  n_samples s < 2 ^ 31 →
  Z.of_nat (length (kept cutoff rows)) ≤ n_samples s →
  read_csv_time (Some (lines_of rows)) path data sub cutoff
    = Ret (Some ((kept cutoff rows).*1
                   ++ replicate (Z.to_nat (n_samples s) - length (kept cutoff rows)) 0),
           []) ∧
  read_csv_data (Some (lines_of rows)) path data sub cutoff
    = Ret (Some ((kept cutoff rows).*2
                   ++ replicate (Z.to_nat (n_samples s) - length (kept cutoff rows)) 0),
           []).
Proof.
  intros Hty Hsub Hint Hcap. unfold read_csv_time, read_csv_data.
  rewrite Hty, Hsub. cbn [mbind outcome_bind]. unfold calloc.
  destruct (Z.ltb_spec (n_samples s) 0); [lia|]. split.
  - destruct (csv_time_loop cutoff (Z.to_nat (n_samples s)) rows [] None) as [t1 E];
      [cbn; lia..|].
    cbn [app length Nat.add] in E. rewrite Nat.sub_0_r in E.
    change (Z.of_nat 0) with 0 in E. rewrite E. done.
  - destruct (csv_data_loop cutoff (Z.to_nat (n_samples s)) rows [] None None)
      as (t1 & v1 & E); [cbn; lia..|].
    cbn [app length Nat.add] in E. rewrite Nat.sub_0_r in E.
    change (Z.of_nat 0) with 0 in E. rewrite E. done.
Qed.



Lemma length_enc_elem ty x : length (enc_elem ty x) = if ty then 4%nat else 8%nat.
Proof. destruct ty; [apply length_enc_int|apply length_enc_double]. Qed.





Lemma fwrite_length ty temp n bytes :
  0 ≤ n → fwrite ty temp n = Ret bytes →
  length bytes = ((if ty then 4 else 8) * Z.to_nat n)%nat.
Proof.
  intros Hn H. unfold fwrite in H. destruct (Z.ltb_spec n 0); [lia|].
  replace n with (Z.of_nat (Z.to_nat n)) in H at 1 by lia.
  apply (for_each_seqZ_inv
           (λ j out, length out = ((if ty then 4 else 8) * Z.to_nat j)%nat)) in H.
  - rewrite H. f_equal. lia.
  - cbn. lia.
  - intros j out out1 Hj Hlen Hb.
    apply bind_Ret_inv in Hb as (x & _ & Hb). injection Hb as <-.
    rewrite length_app, length_enc_elem, Hlen. destruct ty; lia.
Qed.

(** X21.  Whenever [merge_data] rewrites the payload file it writes
    [n_samples] elements, 4 bytes each for an [integer] Buffer and 8 bytes
    each for any other, whatever the size of the file was. *)
Theorem merge_data_writes_all_slots (fopen_csv : csv_file) (fopen_rra : binary_file)
    (fopen_out : bool) (csv_path rra_path : string) (data : dat_s) (sub : Z)
    (max_time : Z) (s : dat_sub_s) (ty : bool) (bytes : list byte)
    (stdout : list string) :
  is_integer data = Ret ty →
  subset_at data sub = Ret s →
  merge_data fopen_csv fopen_rra fopen_out csv_path rra_path data sub max_time
    = Ret (Some bytes, stdout) →
  0 < n_samples s ∧
  length bytes = ((if ty then 4 else 8) * Z.to_nat (n_samples s))%nat.
Proof.
  intros Hty Hsub H. unfold merge_data in H.
  destruct fopen_csv as [lines|]; [|done].
  rewrite Hty in H. cbn [mbind outcome_bind] in H.
  apply bind_Ret_inv in H as (time_rra & Htime & H).
  destruct (create_rra_time_length data sub s time_rra Hsub Htime) as [Hn _].
  split; [done|].
  apply bind_Ret_inv in H as ([time_csv out1] & _ & H).
  apply bind_Ret_inv in H as ([rra out2] & _ & H).
  apply bind_Ret_inv in H as ([csv out3] & _ & H).
  apply bind_Ret_inv in H as (temp & _ & H).
  apply bind_Ret_inv in H as (p & _ & H).
  destruct fopen_out; [|done].
  rewrite Hsub in H. cbn [mbind outcome_bind] in H.
  apply bind_Ret_inv in H as (bytes' & Hw & H). injection H as <- _.
  apply fwrite_length in Hw; [done|lia].
Qed.

Lemma merge_data_writes_all_slots_witness :
  0 < 6 ∧
  length (concat (map (enc_elem true) [7; 0; 0; 0; 0; 0])) = (4 * Z.to_nat 6)%nat.
Proof.
  apply (merge_data_writes_all_slots (Some (lines_of [(100, 1); (1200, 2)]))
           (Some (enc_int 7)) true "x.csv" "x.rra"
           (one_buffer "integer" 900 1000 2 6) 0 1150
           (mk_dat_sub_s 0 0 0 0 0 900 1000 0 0 (Some []) 2 6 0 0 (Some []) 0 (Some []) None)
           true (concat (map (enc_elem true) [7; 0; 0; 0; 0; 0]))
           ["rra_out_path    : x.rra"]).
  - reflexivity.
  - reflexivity.
  - vm_compute. reflexivity.
Defined.

(** X22.  [merge_data] does not test what [read_rra_file] returns: when the
    import file opens and the payload file does not, the merge reads slot 0
    of the array that was not allocated, and the payload file is not
    created. *)
Theorem merge_data_missing_payload (lines : list csv_line) (fopen_out : bool)
    (csv_path rra_path : string) (data : dat_s) (sub : Z) (max_time : Z)
    (s : dat_sub_s) (ty : bool) (time_rra : list Z)
    (r_time r_data : option (list Z) * list string) :
  is_integer data = Ret ty →
  subset_at data sub = Ret s →
  create_rra_time data sub = Ret time_rra →
  read_csv_time (Some lines) csv_path data sub max_time = Ret r_time →
  read_csv_data (Some lines) csv_path data sub max_time = Ret r_data →
  merge_data (Some lines) None fopen_out csv_path rra_path data sub max_time
  = Fault (OutOfBounds "data_rra" 0).
Proof.
  intros Hty Hsub Htime Ht Hd.
  destruct (create_rra_time_length data sub s time_rra Hsub Htime) as [Hn _].
  unfold merge_data. rewrite Hty, Htime. cbn [mbind outcome_bind].
  rewrite Ht. destruct r_time as [time_csv out1]. cbn [mbind outcome_bind read_rra_file].
  rewrite Hd. destruct r_data as [csv out3]. cbn [mbind outcome_bind].
  unfold sort_data_for_rra. rewrite Hty, Hsub. cbn [mbind outcome_bind].
  by rewrite seqZ_cons by lia.
Qed.

Lemma merge_data_missing_payload_witness :
  merge_data (Some (lines_of [(1000, 3); (1200, 2)])) None true "x.csv" "x.rra"
    (one_buffer "integer" 900 1000 2 6) 0 1150
  = Fault (OutOfBounds "data_rra" 0).
Proof.
  apply (merge_data_missing_payload (lines_of [(1000, 3); (1200, 2)]) true
           "x.csv" "x.rra" (one_buffer "integer" 900 1000 2 6) 0 1150
           (mk_dat_sub_s 0 0 0 0 0 900 1000 0 0 (Some []) 2 6 0 0 (Some []) 0 (Some []) None)
           true [800; 900; 1000; 500; 600; 700]
           (Some [1000; 0; 0; 0; 0; 0], []) (Some [3; 0; 0; 0; 0; 0], []));
    reflexivity.
Defined.

(** * The import load beyond its preconditions *)

Lemma wr_full a (pre : list Z) x :
  wr a pre (Z.of_nat (length pre)) x = Fault (OutOfBounds a (Z.of_nat (length pre))).
Proof.
  unfold wr. destruct (Z.leb_spec 0 (Z.of_nat (length pre))); [|lia].
  by destruct (Z.ltb_spec (Z.of_nat (length pre)) (Z.of_nat (length pre))); [lia|].
Qed.

Lemma csv_time_overflow max_time (n : nat) : ∀ rows pre t0,
  (length pre ≤ n)%nat →
  (n < length pre + length (kept max_time rows))%nat →
  Z.of_nat n < 2 ^ 31 →
  for_each (lines_of rows) (csv_time_line max_time)
    (pre ++ replicate (n - length pre) 0, Z.of_nat (length pre), t0)
  = Fault (OutOfBounds "time_csv" (Z.of_nat n)).
Proof.
  induction rows as [|[t v] rows IH]; intros pre t0 Hpre Hcap Hn.
  { cbn in Hcap. lia. }
  cbn [lines_of map for_each fst snd]. rewrite csv_time_line_row.
  unfold kept in *. destruct (decide (t ≤ max_time)) as [Hle|Hgt].
  - rewrite filter_cons_True in Hcap by done. cbn [length] in Hcap.
    destruct (Z.leb_spec t max_time); [|lia].
    destruct (decide (length pre = n)) as [Hfull|Hroom].
    + replace (n - length pre)%nat with 0%nat by lia. cbn [replicate].
      rewrite app_nil_r, wr_full. by rewrite Hfull.
    + replace (n - length pre)%nat with (S (n - length pre - 1)) by lia.
      rewrite wr_next. cbn [mbind outcome_bind].
      rewrite add32_id by lia.
      replace (Z.of_nat (length pre) + 1) with (Z.of_nat (length (pre ++ [t])))
        by (rewrite length_app; cbn; lia).
      replace (n - length pre - 1)%nat with (n - length (pre ++ [t]))%nat
        by (rewrite length_app; cbn; lia).
      apply (IH (pre ++ [t]) (Some t)); rewrite ?length_app; cbn [length]; lia || done.
  - rewrite filter_cons_False in Hcap by done.
    destruct (Z.leb_spec t max_time); [lia|].
    by apply IH.
Qed.

Lemma csv_data_overflow t_max (n : nat) : ∀ rows pre t0 v0,
  (length pre ≤ n)%nat →
  (n < length pre + length (kept t_max rows))%nat →
  Z.of_nat n < 2 ^ 31 →
  for_each (lines_of rows) (csv_data_line t_max)
    (pre ++ replicate (n - length pre) 0, Z.of_nat (length pre), t0, v0)
  = Fault (OutOfBounds "csv" (Z.of_nat n)).
Proof.
  induction rows as [|[t v] rows IH]; intros pre t0 v0 Hpre Hcap Hn.
  { cbn in Hcap. lia. }
  cbn [lines_of map for_each fst snd]. rewrite csv_data_line_row.
  unfold kept in *. destruct (decide (t ≤ t_max)) as [Hle|Hgt].
  - rewrite filter_cons_True in Hcap by done. cbn [length] in Hcap.
    destruct (Z.leb_spec t t_max); [|lia].
    destruct (decide (length pre = n)) as [Hfull|Hroom].
    + replace (n - length pre)%nat with 0%nat by lia. cbn [replicate].
      rewrite app_nil_r, wr_full. by rewrite Hfull.
    + replace (n - length pre)%nat with (S (n - length pre - 1)) by lia.
      rewrite wr_next. cbn [mbind outcome_bind].
      rewrite add32_id by lia.
      replace (Z.of_nat (length pre) + 1) with (Z.of_nat (length (pre ++ [v])))
        by (rewrite length_app; cbn; lia).
      replace (n - length pre - 1)%nat with (n - length (pre ++ [v]))%nat
        by (rewrite length_app; cbn; lia).
      apply (IH (pre ++ [v]) (Some t) (Some v)); rewrite ?length_app; cbn [length];
        lia || done.
  - rewrite filter_cons_False in Hcap by done.
    destruct (Z.leb_spec t t_max); [lia|]. cbn [mbind outcome_bind].
    by apply IH.
Qed.

(** X23.  The import loaders do not test the number of rows against the size
    of their arrays: when the rows with a timestamp up to the cutoff are
    more than [n_samples], [read_csv_time] and [read_csv_data] each store
    the first row in excess behind their array, at slot [n_samples]. *)
Theorem import_overflow (rows : list (Z * Z)) (cutoff : Z) (path : string)
    (data : dat_s) (sub : Z) (s : dat_sub_s) (integer : bool) :
  is_integer data = Ret integer →
  subset_at data sub = Ret s →
  0 ≤ n_samples s < 2 ^ 31 →
  n_samples s < Z.of_nat (length (kept cutoff rows)) →
  read_csv_time (Some (lines_of rows)) path data sub cutoff
    = Fault (OutOfBounds "time_csv" (n_samples s)) ∧
  read_csv_data (Some (lines_of rows)) path data sub cutoff
    = Fault (OutOfBounds "csv" (n_samples s)).
Proof.
  intros Hty Hsub Hn Hcap. unfold read_csv_time, read_csv_data.
  rewrite Hty, Hsub. cbn [mbind outcome_bind]. unfold calloc. split.
  - pose proof (csv_time_overflow cutoff (Z.to_nat (n_samples s)) rows [] None) as E.
    cbn [app length Nat.add] in E. rewrite Nat.sub_0_r in E.
    change (Z.of_nat 0) with 0 in E. rewrite E by lia.
    cbn [mbind outcome_bind]. do 2 f_equal. lia.
  - pose proof (csv_data_overflow cutoff (Z.to_nat (n_samples s)) rows [] None None) as E.
    cbn [app length Nat.add] in E. rewrite Nat.sub_0_r in E.
    change (Z.of_nat 0) with 0 in E. rewrite E by lia.
    cbn [mbind outcome_bind]. do 2 f_equal. lia.
Qed.

Lemma import_overflow_witness :
  read_csv_time (Some (lines_of [(100, 1); (900, 2); (200, 3); (300, 4)])) "x.csv"
    (one_buffer "integer" 300 400 1 2) 0 500
    = Fault (OutOfBounds "time_csv" 2) ∧
  read_csv_data (Some (lines_of [(100, 1); (900, 2); (200, 3); (300, 4)])) "x.csv"
    (one_buffer "integer" 300 400 1 2) 0 500
    = Fault (OutOfBounds "csv" 2).
Proof.
  apply (import_overflow [(100, 1); (900, 2); (200, 3); (300, 4)] 500 "x.csv"
           (one_buffer "integer" 300 400 1 2) 0
           (mk_dat_sub_s 0 0 0 0 0 300 400 0 0 (Some []) 1 2 0 0 (Some []) 0 (Some []) None)
           true); try reflexivity; cbn; lia.
Defined.

Lemma for_each_app {I S} (l1 l2 : list I) (body : I → S → outcome S) (s : S) :
  for_each (l1 ++ l2) body s = for_each l1 body s ≫= for_each l2 body.
Proof.
  revert s. induction l1 as [|i l1 IH]; intros s; [done|].
  cbn [app for_each]. destruct (body i s) as [s'|f]; cbn [mbind outcome_bind]; [|done].
  apply IH.
Qed.

Lemma lines_of_app rows1 rows2 : lines_of (rows1 ++ rows2) = lines_of rows1 ++ lines_of rows2.
Proof. unfold lines_of. apply map_app. Qed.

(** X24.  A line of the import file that does not convert leaves the
    variables of the loaders as the line before set them.  Behind a row that
    converted, such a line is therefore loaded as a second copy of that row.
    As the first line of the file (a header line, for one) it makes both
    loaders read a variable that was never assigned. *)
Theorem import_unconverted_line (rows : list (Z * Z)) (r : Z * Z)
    (lines : list csv_line) (cutoff : Z) (path : string) (data : dat_s) (sub : Z)
    (s : dat_sub_s) (integer : bool) :
  is_integer data = Ret integer →
  subset_at data sub = Ret s →
  read_csv_time (Some (lines_of (rows ++ [r]) ++ [mk_csv_line None None])) path data sub
      cutoff
    = read_csv_time (Some (lines_of (rows ++ [r; r]))) path data sub cutoff ∧
  read_csv_data (Some (lines_of (rows ++ [r]) ++ [mk_csv_line None None])) path data sub
      cutoff
    = read_csv_data (Some (lines_of (rows ++ [r; r]))) path data sub cutoff ∧
  read_csv_time (Some (mk_csv_line None None :: lines)) path data sub cutoff
    = Fault (Uninitialised "time_tmp") ∧
  read_csv_data (Some (mk_csv_line None None :: lines)) path data sub cutoff
    = Fault (Uninitialised "t").
Proof.
  intros Hty Hsub. unfold read_csv_time, read_csv_data.
  rewrite Hty, Hsub. cbn [mbind outcome_bind].
  split; [|split; [|split; reflexivity]].
  - rewrite !lines_of_app, <- app_assoc, !for_each_app.
    destruct (for_each (lines_of rows) _ _) as [[[arr j] t0]|f];
      cbn [mbind outcome_bind]; [|done].
    destruct r as [t v]. cbn [lines_of map app for_each fst snd].
    rewrite !csv_time_line_row.
    destruct (t <=? cutoff) eqn:Hle; cbn [mbind outcome_bind].
    + destruct (wr "time_csv" arr j t) as [arr'|f]; cbn [mbind outcome_bind]; [|done].
      rewrite csv_time_line_row. unfold csv_time_line.
      cbn [scan_time local mbind outcome_bind]. by rewrite Hle.
    + rewrite csv_time_line_row. unfold csv_time_line.
      cbn [scan_time local mbind outcome_bind]. by rewrite Hle.
  - rewrite !lines_of_app, <- app_assoc, !for_each_app.
    destruct (for_each (lines_of rows) _ _) as [[[[arr j] t0] v0]|f];
      cbn [mbind outcome_bind]; [|done].
    destruct r as [t v]. cbn [lines_of map app for_each fst snd].
    rewrite !csv_data_line_row.
    destruct (t <=? cutoff) eqn:Hle; cbn [mbind outcome_bind].
    + destruct (wr "csv" arr j v) as [arr'|f]; cbn [mbind outcome_bind]; [|done].
      rewrite csv_data_line_row. unfold csv_data_line.
      cbn [scan_time scan_value local mbind outcome_bind]. by rewrite Hle.
    + rewrite csv_data_line_row. unfold csv_data_line.
      cbn [scan_time scan_value local mbind outcome_bind]. by rewrite Hle.
Qed.

Lemma import_unconverted_line_witness :
  read_csv_time (Some (lines_of ([(100, 1)] ++ [(200, 2)]) ++ [mk_csv_line None None]))
      "x.csv" (one_buffer "integer" 300 400 1 4) 0 500
    = read_csv_time (Some (lines_of ([(100, 1)] ++ [(200, 2); (200, 2)]))) "x.csv"
        (one_buffer "integer" 300 400 1 4) 0 500 ∧
  read_csv_data (Some (lines_of ([(100, 1)] ++ [(200, 2)]) ++ [mk_csv_line None None]))
      "x.csv" (one_buffer "integer" 300 400 1 4) 0 500
    = read_csv_data (Some (lines_of ([(100, 1)] ++ [(200, 2); (200, 2)]))) "x.csv"
        (one_buffer "integer" 300 400 1 4) 0 500 ∧
  read_csv_time (Some (mk_csv_line None None :: lines_of [(100, 1)])) "x.csv"
      (one_buffer "integer" 300 400 1 4) 0 500
    = Fault (Uninitialised "time_tmp") ∧
  read_csv_data (Some (mk_csv_line None None :: lines_of [(100, 1)])) "x.csv"
      (one_buffer "integer" 300 400 1 4) 0 500
    = Fault (Uninitialised "t").
Proof.
  apply (import_unconverted_line [(100, 1)] (200, 2) (lines_of [(100, 1)]) 500 "x.csv"
           (one_buffer "integer" 300 400 1 4) 0
           (mk_dat_sub_s 0 0 0 0 0 300 400 0 0 (Some []) 1 4 0 0 (Some []) 0 (Some []) None)
           true); reflexivity.
Defined.

(** X25.  Without an end date the cutoff is the largest [int], and no row is
    left out for its timestamp: the loaders keep every row of the import
    file, in file order. *)
Theorem import_without_end_date (to_time : list byte → option Z)
    (rows : list (Z * Z)) (path : string) (data : dat_s) (sub : Z) (s : dat_sub_s)
    (integer : bool) :
  is_integer data = Ret integer →
  subset_at data sub = Ret s →
  n_samples s < 2 ^ 31 →
  Z.of_nat (length rows) ≤ n_samples s →
  Forall (λ r : Z * Z, int_range r.1) rows →
  read_csv_time (Some (lines_of rows)) path data sub (test_date to_time None)
    = Ret (Some (rows.*1 ++ replicate (Z.to_nat (n_samples s) - length rows) 0), []) ∧
  read_csv_data (Some (lines_of rows)) path data sub (test_date to_time None)
    = Ret (Some (rows.*2 ++ replicate (Z.to_nat (n_samples s) - length rows) 0), []).
Proof.
  intros Hty Hsub Hn Hcap Hrows.
  assert (Hkept : kept (test_date to_time None) rows = rows).
  { unfold kept, test_date. induction Hrows as [|r rows Hr _ IH]; [done|].
    rewrite filter_cons_True by (unfold int_range in Hr; lia). f_equal. apply IH.
    cbn [length] in Hcap. lia. }
  pose proof (import_arrays rows (test_date to_time None) path data sub s integer
                Hty Hsub Hn) as E.
  rewrite Hkept in E. by apply E.
Qed.

Lemma import_without_end_date_witness :
  read_csv_time (Some (lines_of [(100, 1); (2000000000, 2)])) "x.csv"
      (one_buffer "integer" 300 400 1 4) 0 (test_date (λ _, None) None)
    = Ret (Some ([(100, 1); (2000000000, 2)].*1
                   ++ replicate (Z.to_nat 4 - length [(100, 1); (2000000000, 2)]) 0), []) ∧
  read_csv_data (Some (lines_of [(100, 1); (2000000000, 2)])) "x.csv"
      (one_buffer "integer" 300 400 1 4) 0 (test_date (λ _, None) None)
    = Ret (Some ([(100, 1); (2000000000, 2)].*2
                   ++ replicate (Z.to_nat 4 - length [(100, 1); (2000000000, 2)]) 0), []).
Proof.
  apply (import_without_end_date (λ _, None) [(100, 1); (2000000000, 2)] "x.csv"
           (one_buffer "integer" 300 400 1 4) 0
           (mk_dat_sub_s 0 0 0 0 0 300 400 0 0 (Some []) 1 4 0 0 (Some []) 0 (Some []) None)
           true); try reflexivity; try (cbn; lia).
  repeat constructor; unfold int_range; cbn; lia.
Defined.

(** * The command line *)

Lemma run_bind_Go {A B} (m : run A) (k : A → run B) out b out' :
  (m ≫= k) out = Ret (Go b, out') →
  ∃ a out1, m out = Ret (Go a, out1) ∧ k a out1 = Ret (Go b, out').
Proof.
  unfold mbind, run_bind. destruct (m out) as [[[a|status] out1]|f]; [|done..].
  intros H. by exists a, out1.
Qed.

Lemma lift_Go {A} (m : outcome A) out a out' :
  lift m out = Ret (Go a, out') → m = Ret a ∧ out' = out.
Proof. unfold lift. destruct m; [|done]. by intros [= <- <-]. Qed.

Lemma mret_Go {A} (a b : A) (out out' : printed) :
  (mret a : run A) out = Ret (Go b, out') → b = a ∧ out' = out.
Proof. by intros [= <- <-]. Qed.

Section command_line.
Context (test_host : list byte → Z) (opendir : list byte → bool).
Context (to_time : list byte → option Z) (argv : list (list byte)).
Hypothesis Hargc : argc argv < 2 ^ 31.

Lemma argv_at_Ret i p :
  argv_at argv i = Ret p → 0 ≤ i ≤ argc argv ∧ p = argv !! Z.to_nat i.
Proof.
  unfold argv_at, argc. intros H. apply rd_Ret_inv in H as [Hi H].
  rewrite length_app, length_map in Hi. cbn in Hi. split; [lia|].
  destruct (decide (Z.to_nat i < length argv)%nat) as [Hlt|Hge].
  - rewrite lookup_app_l in H by (rewrite length_map; lia).
    rewrite list_lookup_fmap in H.
    destruct (argv !! Z.to_nat i); cbn in H; [by injection H as <-|done].
  - rewrite lookup_app_r in H by (rewrite length_map; lia).
    rewrite length_map in H.
    replace (Z.to_nat i - length argv)%nat with 0%nat in H by lia.
    injection H as <-. symmetry. apply lookup_ge_None_2. lia.
Qed.

Lemma arg_Ret i a :
  arg argv i = Ret a → 0 ≤ i < argc argv ∧ argv !! Z.to_nat i = Some a.
Proof.
  unfold arg. intros H. apply bind_Ret_inv in H as (p & Hp & H).
  apply argv_at_Ret in Hp as [Hi ->]. destruct (argv !! Z.to_nat i) eqn:E; [|done].
  injection H as <-. apply lookup_lt_Some in E. unfold argc. split; [lia|done].
Qed.

Lemma opt_h_Go i out u out' :
  opt_h argv i out = Ret (Go u, out') → 0 ≤ i < argc argv.
Proof.
  unfold opt_h. intros H. apply run_bind_Go in H as (a & out1 & Ha & H).
  apply lift_Go in Ha as [Ha ->]. by apply arg_Ret in Ha as [? _].
Qed.

Lemma opt_d_Go i v out i1 v1 out1 :
  opt_d test_host argv i v out = Ret (Go (i1, v1), out1) →
  flags_ok v →
  flags_ok v1 ∧ dl_dir v1 = dl_dir v ∧ i ≤ i1 < argc argv.
Proof.
  unfold opt_d. intros H Hv. apply run_bind_Go in H as (a & o & Ha & H).
  apply lift_Go in Ha as [Ha ->]. apply arg_Ret in Ha as [Hi Ha].
  destruct (bool_decide (a = bytes_of "-d")).
  2: { apply mret_Go in H as [[= -> ->] _]. split; [done|]. split; [done|lia]. }
  apply run_bind_Go in H as (next & o & Hn & H).
  apply lift_Go in Hn as [Hn ->]. apply argv_at_Ret in Hn as [_ ->].
  rewrite (add32_id i 1) in H by lia.
  destruct (argv !! Z.to_nat (i + 1)) as [ip|] eqn:Hip.
  2: { apply run_bind_Go in H as (? & ? & _ & H).
       by apply run_bind_Go in H as (? & ? & _ & H). }
  apply lookup_lt_Some in Hip.
  apply run_bind_Go in H as (url & o & _ & H).
  destruct (negb (test_host url =? 0)).
  { apply run_bind_Go in H as (? & ? & _ & H).
    by apply run_bind_Go in H as (? & ? & _ & H). }
  apply run_bind_Go in H as (url' & o' & _ & H).
  apply mret_Go in H as [[= -> ->] _].
  destruct Hv as (Hf1 & Hf2 & Hf3 & Hf4 & Hf5 & Hf6).
  split; [|split; [done|unfold argc; lia]].
  repeat split; cbn; unfold flag; auto.
Qed.

Lemma opt_u_Go i v out i1 v1 out1 :
  opt_u opendir argv i v out = Ret (Go (i1, v1), out1) →
  flags_ok v →
  flags_ok v1 ∧ i1 < argc argv ∧
  ((i1 = i ∧ dl_dir v1 = dl_dir v) ∨
   (i1 = i + 1 ∧ argv !! Z.to_nat i = Some (bytes_of "-u") ∧
    ∃ dir, argv !! Z.to_nat (i + 1) = Some dir ∧
           dl_dir v1 = Some (dir ++ bytes_of "/"))).
Proof.
  unfold opt_u. intros H Hv. apply run_bind_Go in H as (a & o & Ha & H).
  apply lift_Go in Ha as [Ha ->]. apply arg_Ret in Ha as [Hi Ha].
  destruct Hv as (Hf1 & Hf2 & Hf3 & Hf4 & Hf5 & Hf6).
  destruct (bool_decide_reflect (a = bytes_of "-u")) as [->|_].
  2: { apply mret_Go in H as [[= -> ->] _]. split; [done|]. split; [lia|]. by left. }
  apply run_bind_Go in H as (next & o & Hn & H).
  apply lift_Go in Hn as [Hn ->]. apply argv_at_Ret in Hn as [_ ->].
  rewrite (add32_id i 1) in H by lia.
  apply run_bind_Go in H as ([i2 v2] & o & H2 & H).
  apply mret_Go in H as [[= -> ->] _].
  destruct (argv !! Z.to_nat (i + 1)) as [d|] eqn:Hd.
  2: { apply mret_Go in H2 as [[= -> ->] _].
       split; [repeat split; cbn; unfold flag; auto|]. split; [lia|]. by left. }
  apply lookup_lt_Some in Hd as Hlt.
  apply run_bind_Go in H2 as (dir & o1 & Hdir & H2).
  apply lift_Go in Hdir as [Hdir ->]. apply fill_Ret_inv in Hdir as [-> _].
  destruct (opendir d).
  2: { apply run_bind_Go in H2 as (? & ? & _ & H2).
       by apply run_bind_Go in H2 as (? & ? & _ & H2). }
  apply run_bind_Go in H2 as (dir' & o2 & Hdir' & H2).
  apply lift_Go in Hdir' as [Hdir' ->]. apply fill_Ret_inv in Hdir' as [-> _].
  apply mret_Go in H2 as [[= -> ->] _].
  split; [repeat split; cbn; unfold flag; auto|]. split; [unfold argc; lia|].
  right. split; [done|]. split; [done|]. by exists d.
Qed.

Lemma opt_L_Go i v out i1 v1 out1 :
  opt_L to_time argv i v out = Ret (Go (i1, v1), out1) →
  flags_ok v →
  flags_ok v1 ∧ dl_dir v1 = dl_dir v ∧ i1 < argc argv ∧
  (i1 = i ∨ (i1 = i + 1 ∧ argv !! Z.to_nat i = Some (bytes_of "-L"))).
Proof.
  unfold opt_L. intros H Hv. apply run_bind_Go in H as (a & o & Ha & H).
  apply lift_Go in Ha as [Ha ->]. apply arg_Ret in Ha as [Hi Ha].
  destruct Hv as (Hf1 & Hf2 & Hf3 & Hf4 & Hf5 & Hf6).
  destruct (bool_decide_reflect (a = bytes_of "-L")) as [->|_].
  2: { apply mret_Go in H as [[= -> ->] _]. split; [done|]. split; [done|].
       split; [lia|]. by left. }
  apply run_bind_Go in H as (next & o & Hn & H).
  apply lift_Go in Hn as [Hn ->]. apply argv_at_Ret in Hn as [_ ->].
  rewrite (add32_id i 1) in H by lia.
  destruct (argv !! Z.to_nat (i + 1)) as [d|] eqn:Hd.
  2: { apply mret_Go in H as [[= -> ->] _].
       split; [repeat split; cbn; unfold flag; auto|]. split; [done|].
       split; [lia|]. by left. }
  apply lookup_lt_Some in Hd as Hlt.
  apply run_bind_Go in H as (date & o1 & _ & H).
  destruct (_ || _).
  { apply run_bind_Go in H as (? & ? & _ & H).
    by apply run_bind_Go in H as (? & ? & _ & H). }
  apply mret_Go in H as [[= -> ->] _].
  split; [repeat split; cbn; unfold flag; auto|]. split; [done|].
  split; [unfold argc; lia|]. by right.
Qed.

Lemma opt_e_Go i v out v1 out1 :
  opt_e argv i v out = Ret (Go v1, out1) →
  flags_ok v → flags_ok v1 ∧ dl_dir v1 = dl_dir v.
Proof.
  unfold opt_e. intros H Hv. apply run_bind_Go in H as (a & o & _ & H).
  apply mret_Go in H as [-> _]. destruct Hv as (Hf1 & Hf2 & Hf3 & Hf4 & Hf5 & Hf6).
  destruct (bool_decide _); [|done].
  split; [repeat split; cbn; unfold flag; auto|done].
Qed.

Lemma opt_b_Go i v out v1 out1 :
  opt_b argv i v out = Ret (Go v1, out1) →
  flags_ok v → flags_ok v1 ∧ dl_dir v1 = dl_dir v.
Proof.
  unfold opt_b. intros H Hv. apply run_bind_Go in H as (a & o & _ & H).
  apply mret_Go in H as [-> _]. destruct Hv as (Hf1 & Hf2 & Hf3 & Hf4 & Hf5 & Hf6).
  destruct (bool_decide _); [|done].
  split; [repeat split; cbn; unfold flag; auto|done].
Qed.

Lemma opt_r_Go i v out v1 out1 :
  opt_r argv i v out = Ret (Go v1, out1) →
  flags_ok v → flags_ok v1 ∧ dl_dir v1 = dl_dir v.
Proof.
  unfold opt_r. intros H Hv. apply run_bind_Go in H as (a & o & _ & H).
  apply mret_Go in H as [-> _]. destruct Hv as (Hf1 & Hf2 & Hf3 & Hf4 & Hf5 & Hf6).
  destruct (bool_decide _); [|done].
  split; [repeat split; cbn; unfold flag; auto|done].
Qed.

(** What one turn of the loop leaves in [dl_dir]: the default, or the
    directory of a [-u] that the turn has read. *)
Lemma main_arg_Go i v out i' v' out' :
  main_arg test_host opendir to_time argv i v out = Ret (Go (i', v'), out') →
  flags_ok v →
  flags_ok v' ∧ i ≤ i' < argc argv ∧
  (dl_dir v' = Some (bytes_of EXPORTS_LOCATION) ∨
   ∃ iu dir, 0 ≤ iu ∧ argv !! Z.to_nat iu = Some (bytes_of "-u") ∧
             argv !! Z.to_nat (iu + 1) = Some dir ∧
             dl_dir v' = Some (dir ++ bytes_of "/") ∧
             (i' = iu + 1 ∨ (i' = iu + 2 ∧ dir = bytes_of "-L"))).
Proof.
  unfold main_arg. intros H Hv.
  apply run_bind_Go in H as (? & o0 & Hh & H). apply opt_h_Go in Hh as Hi.
  apply run_bind_Go in H as ([i1 v1] & o1 & Hd & H).
  apply opt_d_Go in Hd as (Hv1 & _ & Hi1); [|done].
  apply run_bind_Go in H as ([i2 v2] & o2 & Hu & H).
  apply opt_u_Go in Hu as (Hv2 & Hi2 & Hdir); [|done].
  apply run_bind_Go in H as ([i3 v3] & o3 & HL & H).
  apply opt_L_Go in HL as (Hv3 & Hd3 & Hi3 & HiL); [|done].
  apply run_bind_Go in H as (v4 & o4 & He & H).
  apply opt_e_Go in He as (Hv4 & Hd4); [|done].
  apply run_bind_Go in H as (v5 & o5 & Hb & H).
  apply opt_b_Go in Hb as (Hv5 & Hd5); [|done].
  apply run_bind_Go in H as (v6 & o6 & Hr & H).
  apply opt_r_Go in Hr as (Hv6 & Hd6); [|done].
  apply mret_Go in H as [[= -> ->] _].
  split; [done|]. split; [destruct Hdir as [[-> _]|[-> _]]; destruct HiL as [->|[-> _]]; lia|].
  rewrite Hd6, Hd5, Hd4, Hd3.
  destruct Hdir as [[-> ->]|(-> & Hu & dir & Hdir & ->)]; [by left|].
  right. exists i1, dir. split; [lia|]. split; [done|]. split; [done|]. split; [done|].
  destruct HiL as [->|[-> HL]]; [by left|right]. split; [lia|]. congruence.
Qed.

Lemma main_loop_Go fuel : ∀ i v out v' out',
  main_loop test_host opendir to_time argv fuel i v out = Ret (Go v', out') →
  0 ≤ i < argc argv → flags_ok v →
  flags_ok v' ∧
  (dl_dir v' = Some (bytes_of EXPORTS_LOCATION) ∨
   ∃ iu dir, 0 ≤ iu ∧ argv !! Z.to_nat iu = Some (bytes_of "-u") ∧
             argv !! Z.to_nat (iu + 1) = Some dir ∧
             dl_dir v' = Some (dir ++ bytes_of "/") ∧
             (argc argv = iu + 2 ∨ (argc argv = iu + 3 ∧ dir = bytes_of "-L"))).
Proof.
  induction fuel as [|fuel IH]; intros i v out v' out' H Hi Hv; [done|].
  cbn [main_loop] in H. destruct (Z.ltb_spec i (argc argv)); [|lia].
  apply run_bind_Go in H as ([i1 v1] & o1 & Harg & H).
  apply main_arg_Go in Harg as (Hv1 & Hi1 & Hdir); [|done].
  rewrite (add32_id i1 1) in H by lia.
  destruct (Z_lt_dec (i1 + 1) (argc argv)) as [Hmore|Hlast].
  { apply IH in H; [done|lia|done]. }
  destruct fuel as [|fuel]; [done|]. cbn [main_loop] in H.
  destruct (Z.ltb_spec (i1 + 1) (argc argv)); [lia|].
  apply mret_Go in H as [-> _]. split; [done|].
  destruct Hdir as [?|(iu & dir & ? & ? & ? & ? & Hend)]; [by left|right].
  exists iu, dir. repeat (split; [done|]).
  destruct Hend as [->|[-> ->]]; [left|right]; [lia|split; [lia|done]].
Qed.

Lemma main_args_Go v out :
  main_args test_host opendir to_time argv [] = Ret (Go v, out) →
  flags_ok v ∧ insufficient v = false ∧
  (dl_dir v = Some (bytes_of EXPORTS_LOCATION) ∨
   ∃ iu dir, 0 ≤ iu ∧ argv !! Z.to_nat iu = Some (bytes_of "-u") ∧
             argv !! Z.to_nat (iu + 1) = Some dir ∧
             dl_dir v = Some (dir ++ bytes_of "/") ∧
             (argc argv = iu + 2 ∨ (argc argv = iu + 3 ∧ dir = bytes_of "-L"))).
Proof.
  unfold main_args. intros H. destruct (Z.ltb_spec (argc argv) 2) as [|Hargs].
  { by apply run_bind_Go in H as (? & ? & _ & H). }
  apply run_bind_Go in H as (? & o & _ & H).
  apply run_bind_Go in H as (v1 & o1 & Hloop & H).
  apply main_loop_Go in Hloop as [Hv Hdir]; [|lia|].
  2: { repeat split; by left. }
  destruct (insufficient v1) eqn:Hins.
  { apply run_bind_Go in H as (? & ? & _ & H).
    by apply run_bind_Go in H as (? & ? & _ & H). }
  by apply mret_Go in H as [-> _].
Qed.

End command_line.

(** X26.  Whenever [main] gets past the test of its flags, one of the three
    modes is selected: the branch that reports an impossible error is never
    taken. *)
Theorem main_branch_never_impossible (test_host : list byte → Z)
    (opendir : list byte → bool) (to_time : list byte → option Z)
    (argv : list (list byte)) (v : main_vars) (out : printed) :
  argc argv < 2 ^ 31 →
  main_args test_host opendir to_time argv [] = Ret (Go v, out) →
  main_branch v ≠ Impossible_error.
Proof.
  intros Hargc H. apply main_args_Go in H as ((He & Hr & Hl & Hd & _) & Hins & _);
    [|done].
  unfold insufficient in Hins. unfold main_branch. revert Hins.
  destruct He as [-> | ->], Hr as [-> | ->], Hl as [-> | ->], Hd as [-> | ->];
    cbn; done.
Qed.

Lemma main_branch_never_impossible_witness :
  main_branch
    (mk_main_vars (Some (bytes_of "/tmp/up/")) None None 0 1 0 1 0 0)
  ≠ Impossible_error.
Proof.
  apply (main_branch_never_impossible (λ _, 0) (λ _, true) (λ _, None)
           [bytes_of "transfer-logs"; bytes_of "-r"; bytes_of "-u"; bytes_of "/tmp/up"]
           _ [(Stdout, "transfer-logs -r -u /tmp/up ")]).
  - vm_compute. reflexivity.
  - vm_compute. reflexivity.
Defined.

(** X27.  [dl_dir] is set to the default location at every turn of the loop
    over the arguments, so the directory given with [-u] is kept only when
    [-u] and its directory end the command line.  When further arguments
    follow the directory, as in [-u <directory> -r], and [main] goes on to
    the databases, [dl_dir] holds the default location, not the directory
    given.  (A directory named [-L] is kept when one argument follows it,
    and a later [-u] sets its own directory.) *)
Theorem main_upload_directory_dropped (test_host : list byte → Z)
    (opendir : list byte → bool) (to_time : list byte → option Z)
    (argv pre post : list (list byte)) (dir : list byte) (v : main_vars)
    (out : printed) :
  argc argv < 2 ^ 31 →
  argv = pre ++ [bytes_of "-u"; dir] ++ post →
  post ≠ [] →
  bytes_of "-u" ∉ dir :: post →
  dir ≠ bytes_of "-L" ∨ length post ≠ 1%nat →
  main_args test_host opendir to_time argv [] = Ret (Go v, out) →
  dl_dir v = Some (bytes_of EXPORTS_LOCATION).
Proof.
  intros Hargc Hargv Hpost Hno HL H.
  apply main_args_Go in H; [|done].
  destruct H as (_ & _ & [?|(iu & d & Hiu & Hu & Hd & _ & Hend)]); [done|].
  exfalso. unfold argc in Hend.
  assert (Hlen : length argv = (length pre + 2 + length post)%nat)
    by (rewrite Hargv, !length_app; cbn; lia).
  assert (0 < length post)%nat by (destruct post; [done|cbn; lia]).
  assert (Hin : ∀ k x, (length pre < k)%nat → argv !! k = Some x → x ∈ dir :: post).
  { intros k x Hk Hx. rewrite Hargv in Hx.
    rewrite lookup_app_r in Hx by lia. cbn [app] in Hx.
    destruct (k - length pre)%nat as [|k'] eqn:Hk'; [lia|]. cbn in Hx.
    by apply list_elem_of_lookup_2 in Hx. }
  destruct (decide (length pre < Z.to_nat iu)%nat) as [Hlate|Hearly].
  { by apply Hno, (Hin (Z.to_nat iu)). }
  destruct Hend as [Hend|[Hend ->]]; [lia|].
  assert (Z.to_nat iu = length pre ∧ length post = 1%nat) as [Hiu' Hone] by lia.
  destruct HL as [HL|HL]; [|done]. apply HL.
  rewrite Hargv in Hd. replace (Z.to_nat (iu + 1)) with (S (length pre)) in Hd by lia.
  rewrite lookup_app_r in Hd by lia.
  replace (S (length pre) - length pre)%nat with 1%nat in Hd by lia.
  by injection Hd.
Qed.

Lemma main_upload_directory_dropped_witness :
  dl_dir (mk_main_vars (Some (bytes_of EXPORTS_LOCATION)) None None 0 1 0 1 0 0)
  = Some (bytes_of EXPORTS_LOCATION).
Proof.
  apply (main_upload_directory_dropped (λ _, 0) (λ _, true) (λ _, None)
           [bytes_of "transfer-logs"; bytes_of "-u"; bytes_of "/tmp/up"; bytes_of "-r"]
           [bytes_of "transfer-logs"] [bytes_of "-r"] (bytes_of "/tmp/up")
           _ [(Stdout, "transfer-logs -u /tmp/up -r ")]).
  - vm_compute. reflexivity.
  - reflexivity.
  - discriminate.
  - intros Hin. repeat (apply elem_of_cons in Hin as [Hin|Hin]; [discriminate Hin|]).
    by apply elem_of_nil in Hin.
  - left. discriminate.
  - vm_compute. reflexivity.
Defined.

(** * The command line: no argument is read behind the null pointer *)

Lemma run_bind_Go_eq {A B} (m : run A) (k : A → run B) out a out1 :
  m out = Ret (Go a, out1) → (m ≫= k) out = k a out1.
Proof. unfold mbind, run_bind. by intros ->. Qed.

Lemma run_bind_Return_eq {A B} (m : run A) (k : A → run B) out status out1 :
  m out = Ret (Return status, out1) → (m ≫= k) out = Ret (Return status, out1).
Proof. unfold mbind, run_bind. by intros ->. Qed.

Lemma lift_Ret {A} (m : outcome A) a out : m = Ret a → lift m out = Ret (Go a, out).
Proof. by intros ->. Qed.

Section command_line_total.
Context (test_host : list byte → Z) (opendir : list byte → bool).
Context (to_time : list byte → option Z) (argv : list (list byte)).
Hypothesis Hargc : argc argv < 2 ^ 31.
Hypothesis Hshort : short_args argv.
Hypothesis Hexec : argv ≠ [].

Lemma argv_at_total i :
  0 ≤ i ≤ argc argv → argv_at argv i = Ret (argv !! Z.to_nat i).
Proof.
  intros Hi. unfold argv_at, argc in *. apply rd_lookup; [lia|].
  destruct (decide (Z.to_nat i < length argv)%nat) as [Hlt|Hge].
  - rewrite lookup_app_l by (rewrite length_map; lia).
    rewrite list_lookup_fmap. by destruct (lookup_lt_is_Some_2 argv _ Hlt) as [a ->].
  - rewrite lookup_app_r by (rewrite length_map; lia). rewrite length_map.
    replace (Z.to_nat i - length argv)%nat with 0%nat by lia.
    rewrite (lookup_ge_None_2 argv (Z.to_nat i)) by lia. done.
Qed.

Lemma arg_total i :
  0 ≤ i < argc argv → ∃ a, arg argv i = Ret a ∧ argv !! Z.to_nat i = Some a.
Proof.
  intros Hi. unfold arg. rewrite argv_at_total by lia. cbn [mbind outcome_bind].
  destruct (lookup_lt_is_Some_2 argv (Z.to_nat i)) as [a Ha]; [unfold argc in Hi; lia|].
  exists a. by rewrite Ha.
Qed.

Lemma short_arg (k : nat) a :
  argv !! k = Some a → Z.of_nat (length a) < MAX_LEN - 18.
Proof. intros Ha. by apply (Forall_lookup_1 _ _ _ _ Hshort Ha). Qed.

Lemma print_usage_total out :
  ∃ out', print_usage argv out = Ret (Go (), out').
Proof.
  unfold print_usage. destruct (arg_total 0) as (a & Ha & _).
  { unfold argc. destruct argv; [done|cbn; lia]. }
  rewrite (run_bind_Go_eq _ _ _ a out) by (by apply lift_Ret). by eexists.
Qed.

(** A statement that prints a line and the usage, and returns. *)
Lemma report_total {A} s line status out :
  ∃ out', (_ ← print s [line]; _ ← print_usage argv; (return_ status : run A)) out
          = Ret (Return status, out').
Proof.
  rewrite (run_bind_Go_eq _ _ _ () (out ++ map (pair s) [line])) by done.
  destruct (print_usage_total (out ++ map (pair s) [line])) as [out' E].
  rewrite (run_bind_Go_eq _ _ _ () out') by done. by eexists.
Qed.

Lemma opt_h_total i out :
  0 ≤ i < argc argv → ∃ r out', opt_h argv i out = Ret (r, out').
Proof.
  intros Hi. unfold opt_h. destruct (arg_total i Hi) as (a & Ha & _).
  rewrite (run_bind_Go_eq _ _ _ a out) by (by apply lift_Ret).
  destruct (bool_decide _); [|by eexists _, _].
  destruct (print_usage_total out) as [out' E].
  rewrite (run_bind_Go_eq _ _ _ () out') by done. by eexists _, _.
Qed.

Lemma opt_d_total i v out :
  0 ≤ i < argc argv → ∃ r out', opt_d test_host argv i v out = Ret (r, out').
Proof.
  intros Hi. unfold opt_d. destruct (arg_total i Hi) as (a & Ha & _).
  rewrite (run_bind_Go_eq _ _ _ a out) by (by apply lift_Ret).
  destruct (bool_decide _); [|by eexists _, _].
  rewrite (add32_id i 1) by lia.
  rewrite (run_bind_Go_eq _ _ _ (argv !! Z.to_nat (i + 1)) out)
    by (apply lift_Ret, argv_at_total; lia).
  destruct (argv !! Z.to_nat (i + 1)) as [ip|] eqn:Hip.
  2: { destruct (report_total (A := Z * main_vars) Stdout
                   "Error: option -d requires an IP-address as extra argument"
                   E_INSUFFICIENT_CL_ARGS out) as [out' E]. by eexists _, _. }
  apply short_arg in Hip. unfold MAX_LEN in Hip.
  rewrite (run_bind_Go_eq _ _ _ (bytes_of "http://" ++ ip) out).
  2: { apply lift_Ret, fill_fits. rewrite length_app. cbn. unfold MAX_LEN. lia. }
  destruct (negb _).
  { destruct (report_total (A := Z * main_vars) Stderr
                ("Invalid IP-address supplied with option -d: " +:+ string_of ip)
                E_BAD_DL_URL out) as [out' E]. by eexists _, _. }
  rewrite (run_bind_Go_eq _ _ _ (bytes_of "http://" ++ ip ++ bytes_of "/export.zip") out).
  2: { apply lift_Ret, fill_fits. rewrite !length_app. cbn. unfold MAX_LEN. lia. }
  by eexists _, _.
Qed.

Lemma opt_u_total i v out :
  0 ≤ i < argc argv → ∃ r out', opt_u opendir argv i v out = Ret (r, out').
Proof.
  intros Hi. unfold opt_u. destruct (arg_total i Hi) as (a & Ha & _).
  rewrite (run_bind_Go_eq _ _ _ a out) by (by apply lift_Ret).
  destruct (bool_decide _); [|by eexists _, _].
  rewrite (add32_id i 1) by lia.
  rewrite (run_bind_Go_eq _ _ _ (argv !! Z.to_nat (i + 1)) out)
    by (apply lift_Ret, argv_at_total; lia).
  destruct (argv !! Z.to_nat (i + 1)) as [d|] eqn:Hd.
  2: { rewrite (run_bind_Go_eq _ _ _ (i, v) out) by done. by eexists _, _. }
  apply short_arg in Hd. unfold MAX_LEN in Hd.
  destruct (opendir d) eqn:Hopen.
  - rewrite (run_bind_Go_eq _ _ _
               (i + 1, mk_main_vars (Some (d ++ bytes_of "/")) (dl_url v) (max_date v)
                         (exp_flag v) (rra_flag v) (dl_flag v) 1 (dat_flag v)
                         (backup_flag v)) out).
    { by eexists _, _. }
    rewrite (run_bind_Go_eq _ _ _ d out).
    2: { apply lift_Ret, fill_fits. unfold MAX_LEN. lia. }
    rewrite Hopen.
    rewrite (run_bind_Go_eq _ _ _ (d ++ bytes_of "/") out).
    2: { apply lift_Ret, fill_fits. rewrite length_app. cbn. unfold MAX_LEN. lia. }
    done.
  - destruct (report_total (A := Z * main_vars) Stdout
                "Error: option -u requires a valid path as extra argument"
                E_INVALID_DATA_DIR out) as [out' E].
    rewrite (run_bind_Return_eq _ _ _ E_INVALID_DATA_DIR out').
    { by eexists _, _. }
    rewrite (run_bind_Go_eq _ _ _ d out).
    2: { apply lift_Ret, fill_fits. unfold MAX_LEN. lia. }
    by rewrite Hopen.
Qed.

Lemma opt_L_total i v out :
  0 ≤ i < argc argv → ∃ r out', opt_L to_time argv i v out = Ret (r, out').
Proof.
  intros Hi. unfold opt_L. destruct (arg_total i Hi) as (a & Ha & _).
  rewrite (run_bind_Go_eq _ _ _ a out) by (by apply lift_Ret).
  destruct (bool_decide _); [|by eexists _, _].
  rewrite (add32_id i 1) by lia.
  rewrite (run_bind_Go_eq _ _ _ (argv !! Z.to_nat (i + 1)) out)
    by (apply lift_Ret, argv_at_total; lia).
  destruct (argv !! Z.to_nat (i + 1)) as [d|] eqn:Hd; [|by eexists _, _].
  apply short_arg in Hd. unfold MAX_LEN in Hd.
  rewrite (run_bind_Go_eq _ _ _ d out).
  2: { apply lift_Ret, fill_fits. unfold MAX_LEN. lia. }
  destruct (_ || _); [|by eexists _, _].
  destruct (report_total (A := Z * main_vars) Stdout
              "Error: option -L requires a valid date (YYYY-mm-dd) as extra argument"
              E_INVALID_END_DATE out) as [out' E]. by eexists _, _.
Qed.

Lemma opt_flag_total (opt : list (list byte) → Z → main_vars → run main_vars) i v out :
  opt = opt_e ∨ opt = opt_b ∨ opt = opt_r →
  0 ≤ i < argc argv → ∃ v' out', opt argv i v out = Ret (Go v', out').
Proof.
  intros Hopt Hi. destruct (arg_total i Hi) as (a & Ha & _).
  destruct Hopt as [-> | [-> | ->]]; unfold opt_e, opt_b, opt_r;
    rewrite (run_bind_Go_eq _ _ _ a out) by (by apply lift_Ret); by eexists _, _.
Qed.

Lemma main_arg_total i v out :
  0 ≤ i < argc argv → flags_ok v →
  ∃ r out', main_arg test_host opendir to_time argv i v out = Ret (r, out').
Proof.
  intros Hi Hv. unfold main_arg.
  destruct (opt_h_total i out Hi) as ([[]|status] & o0 & E0).
  2: { rewrite (run_bind_Return_eq _ _ _ _ _ E0). by eexists _, _. }
  rewrite (run_bind_Go_eq _ _ _ _ _ E0).
  destruct (opt_d_total i v o0 Hi) as ([[i1 v1]|status] & o1 & E1).
  2: { rewrite (run_bind_Return_eq _ _ _ _ _ E1). by eexists _, _. }
  rewrite (run_bind_Go_eq _ _ _ _ _ E1).
  apply (opt_d_Go _ _ Hargc) in E1 as (Hv1 & _ & Hi1); [|done].
  assert (Hv1' : flags_ok (default_dl_dir v1)) by done.
  destruct (opt_u_total i1 (default_dl_dir v1) o1) as ([[i2 v2]|status] & o2 & E2); [lia|..].
  2: { rewrite (run_bind_Return_eq _ _ _ _ _ E2). by eexists _, _. }
  rewrite (run_bind_Go_eq _ _ _ _ _ E2).
  apply (opt_u_Go _ _ Hargc) in E2 as (Hv2 & Hi2 & Hdir); [|done].
  assert (0 ≤ i2) by (destruct Hdir as [[-> _]|[-> _]]; lia).
  destruct (opt_L_total i2 v2 o2) as ([[i3 v3]|status] & o3 & E3); [lia|..].
  2: { rewrite (run_bind_Return_eq _ _ _ _ _ E3). by eexists _, _. }
  rewrite (run_bind_Go_eq _ _ _ _ _ E3).
  apply (opt_L_Go _ _ Hargc) in E3 as (Hv3 & _ & Hi3 & HiL); [|done].
  assert (0 ≤ i3) by (destruct HiL as [->|[-> _]]; lia).
  destruct (opt_flag_total opt_e i3 v3 o3) as (v4 & o4 & E4); [by left|lia|].
  rewrite (run_bind_Go_eq _ _ _ _ _ E4).
  destruct (opt_flag_total opt_b i3 v4 o4) as (v5 & o5 & E5); [by right; left|lia|].
  rewrite (run_bind_Go_eq _ _ _ _ _ E5).
  destruct (opt_flag_total opt_r i3 v5 o5) as (v6 & o6 & E6); [by right; right|lia|].
  rewrite (run_bind_Go_eq _ _ _ _ _ E6). by eexists _, _.
Qed.

Lemma main_loop_total fuel : ∀ i v out,
  0 ≤ i → flags_ok v → Z.max 0 (argc argv - i) < Z.of_nat fuel →
  ∃ r out', main_loop test_host opendir to_time argv fuel i v out = Ret (r, out').
Proof.
  induction fuel as [|fuel IH]; intros i v out Hi Hv Hfuel; [lia|].
  cbn [main_loop]. destruct (Z.ltb_spec i (argc argv)); [|by eexists _, _].
  destruct (main_arg_total i v out) as ([[i1 v1]|status] & o1 & E1); [lia|done|..].
  2: { rewrite (run_bind_Return_eq _ _ _ _ _ E1). by eexists _, _. }
  rewrite (run_bind_Go_eq _ _ _ _ _ E1).
  apply (main_arg_Go _ _ _ _ Hargc) in E1 as (Hv1 & Hi1 & _); [|done].
  rewrite (add32_id i1 1) by lia. apply IH; [lia|done|lia].
Qed.

End command_line_total.

(** X28.  With arguments that fit the buffers they are copied to, [main]
    gets from its first statement to the test of its flags without a fault,
    whatever the options and their order: it passes no null pointer to
    [strcmp] and reads no argument behind the null pointer that ends [argv],
    although an option that takes a value moves on to the next argument
    within a turn of the loop. *)
Theorem main_args_safe (test_host : list byte → Z) (opendir : list byte → bool)
    (to_time : list byte → option Z) (argv : list (list byte)) :
  argv ≠ [] → argc argv < 2 ^ 31 → short_args argv →
  ∃ r out, main_args test_host opendir to_time argv [] = Ret (r, out).
Proof.
  intros Hexec Hargc Hshort. unfold main_args.
  destruct (Z.ltb_spec (argc argv) 2) as [|Hargs].
  { destruct (print_usage_total argv Hargc Hshort Hexec []) as [out' E].
    rewrite (run_bind_Go_eq _ _ _ _ _ E). by eexists _, _. }
  rewrite (run_bind_Go_eq _ _ _ () _) by done.
  match goal with |- context [main_loop _ _ _ _ _ _ ?v] =>
    destruct (main_loop_total test_host opendir to_time argv Hargc Hshort Hexec
                (length argv) 1 v
                ([] ++ map (pair Stdout)
                   [String.concat "" (map (λ a, string_of a +:+ " ") argv)]))
      as ([v1|status] & o1 & E1)
  end.
  - lia.
  - repeat split; by left.
  - unfold argc in *. lia.
  - rewrite (run_bind_Go_eq _ _ _ _ _ E1). destruct (insufficient v1); [|by eexists _, _].
    destruct (report_total argv Hargc Hshort Hexec (A := main_vars) Stderr
                "Error: Insufficient or invalid command line arguments"
                E_INSUFFICIENT_CL_ARGS o1) as [out' E]. by eexists _, _.
  - rewrite (run_bind_Return_eq _ _ _ _ _ E1). by eexists _, _.
Qed.

Lemma main_args_safe_witness :
  ∃ r out,
    main_args (λ _, 0) (λ _, true) (λ _, Some 1552089600)
      [bytes_of "transfer-logs"; bytes_of "-b"; bytes_of "-L"; bytes_of "2019-03-09";
       bytes_of "-r"; bytes_of "-u"] []
    = Ret (r, out).
Proof.
  apply main_args_safe.
  - discriminate.
  - vm_compute. reflexivity.
  - repeat constructor; vm_compute; reflexivity.
Defined.
